(** * private-isu (Python webapp): feed assembly and credentials

    A shallow embedding of [webapp/python/app.py]: the relational store
    and the SQL statements the application sends to it, the shell
    pipeline behind [digest], the request handlers that read or write
    the store, and [make_posts], which turns post rows into hydrated
    post views.

    Conventions.
    - A table is the list of its rows in the order the engine scans
      them.  SQL leaves the order of rows that compare equal under
      [ORDER BY] open; here [ORDER BY] is a stable sort of the scan
      order, and every theorem quantifies over all tables, hence over
      all scan orders.
    - Timestamps ([created_at]) are integers (seconds).
    - A Python [dict] keyed by ids is a [gmap Z _], a Python [set] of
      ids a [gset Z].
    - Python truthiness is written out: an integer is true when it is
      not [0], a row ([dict] with columns) is always true, [None] and
      empty containers are false.
    - A comparison of strings in SQL ([account_name = %s]) is equality
      of the strings. *)

From stdpp Require Import gmap strings list fin_maps sorting pretty.

Abbreviation ascii := Ascii.ascii.
Abbreviation nat_of_ascii := Ascii.nat_of_ascii.
Abbreviation list_ascii_of_string := String.list_ascii_of_string.
Abbreviation string_of_list_ascii := String.string_of_list_ascii.

Open Scope Z_scope.

(** ** Rows *)

Record User := mkUser {
  u_id : Z;
  u_account_name : string;
  u_passhash : string;
  u_authority : Z;
  u_del_flg : Z;
  u_created_at : Z
}.

(** A row of table [posts]. *)
Record Post := mkPost {
  p_id : Z;
  p_user_id : Z;
  p_mime : string;
  p_imgdata : string;
  p_body : string;
  p_created_at : Z
}.

(** A post row as a query returns it: the column [imgdata] is present
    only under [SELECT *]. *)
Record PostRow := mkPostRow {
  r_id : Z;
  r_user_id : Z;
  r_body : string;
  r_mime : string;
  r_created_at : Z;
  r_imgdata : option string
}.

Record Comment := mkComment {
  c_id : Z;
  c_post_id : Z;
  c_user_id : Z;
  c_comment : string;
  c_created_at : Z
}.

Record DB := mkDB {
  users : list User;
  posts : list Post;
  comments : list Comment
}.

Global Instance User_eq_dec : EqDecision User.
Proof. solve_decision. Defined.
Global Instance Post_eq_dec : EqDecision Post.
Proof. solve_decision. Defined.
Global Instance PostRow_eq_dec : EqDecision PostRow.
Proof. solve_decision. Defined.
Global Instance Comment_eq_dec : EqDecision Comment.
Proof. solve_decision. Defined.

Definition UPLOAD_LIMIT : Z := 10 * 1024 * 1024.
Definition POSTS_PER_PAGE : nat := 20.

(** Python truthiness of an integer column. *)
Definition truthy (z : Z) : bool := negb (z =? 0).

(** ** ORDER BY: stable insertion sort *)

Section OrderBy.
Context {A : Type} (le : A → A → bool).

Fixpoint insert_sorted (x : A) (l : list A) : list A :=
  match l with
  | [] => [x]
  | y :: l' => if le x y then x :: y :: l' else y :: insert_sorted x l'
  end.

Fixpoint order_by (l : list A) : list A :=
  match l with
  | [] => []
  | x :: l' => insert_sorted x (order_by l')
  end.
End OrderBy.

(** [ORDER BY created_at DESC] on posts. *)
Definition post_created_desc (a b : Post) : bool :=
  p_created_at b <=? p_created_at a.

(** [ORDER BY created_at DESC] on comments. *)
Definition comment_created_desc (a b : Comment) : bool :=
  c_created_at b <=? c_created_at a.

(** [ORDER BY post_id, created_at DESC] on comments. *)
Definition comment_post_created (a b : Comment) : bool :=
  (c_post_id a <? c_post_id b)
  || ((c_post_id a =? c_post_id b) && (c_created_at b <=? c_created_at a)).

(** ** Projections of a post row *)

(** [SELECT id, user_id, body, created_at, mime FROM posts]. *)
Definition base_columns (p : Post) : PostRow :=
  mkPostRow (p_id p) (p_user_id p) (p_body p) (p_mime p) (p_created_at p) None.

(** [SELECT * FROM posts]. *)
Definition all_columns (p : Post) : PostRow :=
  mkPostRow (p_id p) (p_user_id p) (p_body p) (p_mime p) (p_created_at p)
            (Some (p_imgdata p)).

(** ** The ranked sub-query of the top-3 comment selection *)

Record RankedRow := mkRanked {
  rk_post_id : Z;
  rk_id : Z;
  rk_rn : nat
}.

(** [ROW_NUMBER()] over one partition, already in window order. *)
Definition number_partition (part : list Comment) : list RankedRow :=
  imap (λ i c, mkRanked (c_post_id c) (c_id c) (S i)) part.

(** [SELECT post_id, id, ROW_NUMBER() OVER (PARTITION BY post_id ORDER BY
    created_at DESC) AS rn FROM comments WHERE post_id IN (ids)]. *)
Definition ranked (cs : list Comment) (ids : list Z) : list RankedRow :=
  let sel := filter (λ c, c_post_id c ∈ ids) cs in
  p ← remove_dups (c_post_id <$> sel);
  number_partition
    (order_by comment_created_desc (filter (λ c, c_post_id c = p) sel)).

(** [comments c INNER JOIN ranked ON c.id = ranked.id WHERE ranked.rn <= 3]. *)
Definition join_top3 (cs : list Comment) (rk : list RankedRow) : list Comment :=
  c ← cs;
  r ← rk;
  if decide (c_id c = rk_id r ∧ (rk_rn r ≤ 3)%nat) then [c] else [].

(** ** SQL statements of the application *)

Inductive Sql :=
| SelUserByAccountActive (account_name : string)
    (* SELECT * FROM users WHERE account_name = %s AND del_flg = 0 *)
| SelUserById (id : Z)
    (* SELECT * FROM `users` WHERE `id` = %s *)
| SelUsersByIds (ids : list Z)
    (* SELECT * FROM `users` WHERE `id` IN (...) *)
| SelCommentCounts (post_ids : list Z)
    (* SELECT `post_id`, COUNT( * ) AS `count` FROM `comments`
       WHERE `post_id` IN (...) GROUP BY `post_id` *)
| SelCommentsAll (post_ids : list Z)
    (* SELECT * FROM `comments` WHERE `post_id` IN (...)
       ORDER BY `post_id`, `created_at` DESC *)
| SelCommentsTop3 (post_ids : list Z)
    (* SELECT c.* FROM `comments` c INNER JOIN (ranked) ON c.id = ranked.id
       WHERE ranked.rn <= 3 ORDER BY c.`post_id`, c.`created_at` DESC *)
| SelUserExists (account_name : string)
    (* SELECT 1 FROM users WHERE `account_name` = %s *)
| InsUser (account_name passhash : string)
    (* INSERT INTO `users` (`account_name`, `passhash`) VALUES (%s, %s) *)
| SelPostsFeed (limit : nat)
    (* SELECT `id`, `user_id`, `body`, `created_at`, `mime` FROM `posts`
       ORDER BY `created_at` DESC LIMIT %s *)
| SelPostsByUser (user_id : Z)
    (* SELECT ... FROM `posts` WHERE `user_id` = %s ORDER BY `created_at` DESC *)
| SelPostsUpTo (max_created_at : Z)
    (* SELECT ... FROM `posts` WHERE `created_at` <= %s ORDER BY `created_at` DESC *)
| SelPostsAll
    (* SELECT ... FROM `posts` ORDER BY `created_at` DESC *)
| SelPostById (id : Z)
    (* SELECT * FROM `posts` WHERE `id` = %s *)
| SelUserStats (user_id : Z)
    (* SELECT (comment_count), (post_count), (commented_count) *)
| UpdDelFlg (del_flg id : Z)
    (* UPDATE `users` SET `del_flg` = %s WHERE `id` = %s *).

(** What the cursor holds after a statement: the rows of a [SELECT],
    [lastrowid] of an [INSERT], nothing of an [UPDATE]. *)
Definition result (q : Sql) : Type :=
  match q with
  | SelUserByAccountActive _ | SelUserById _ | SelUsersByIds _ => list User
  | SelCommentCounts _ => list (Z * Z)
  | SelCommentsAll _ | SelCommentsTop3 _ => list Comment
  | SelUserExists _ => list Z
  | InsUser _ _ => Z
  | UpdDelFlg _ _ => unit
  | SelPostsFeed _ | SelPostsByUser _ | SelPostsUpTo _ | SelPostsAll
  | SelPostById _ => list PostRow
  | SelUserStats _ => Z * Z * Z
  end.

Definition count_where {A} (P : A → Prop) `{∀ x, Decision (P x)}
    (l : list A) : Z :=
  Z.of_nat (length (filter P l)).

Definition sel_comment_counts (cs : list Comment) (ids : list Z) : list (Z * Z) :=
  let sel := filter (λ c, c_post_id c ∈ ids) cs in
  (λ p, (p, count_where (λ c, c_post_id c = p) sel))
    <$> remove_dups (c_post_id <$> sel).

Definition sel_comments_all (cs : list Comment) (ids : list Z) : list Comment :=
  order_by comment_post_created (filter (λ c, c_post_id c ∈ ids) cs).

Definition sel_comments_top3 (cs : list Comment) (ids : list Z) : list Comment :=
  order_by comment_post_created (join_top3 cs (ranked cs ids)).

Definition sel_user_stats (db : DB) (uid : Z) : Z * Z * Z :=
  (count_where (λ c, c_user_id c = uid) (comments db),
   count_where (λ p, p_user_id p = uid) (posts db),
   count_where
     (λ c, c_post_id c ∈ p_id <$> filter (λ p, p_user_id p = uid) (posts db))
     (comments db)).

(** [AUTO_INCREMENT]: one more than the largest id in the table. *)
Definition next_user_id (us : list User) : Z :=
  1 + foldr Z.max 0 (u_id <$> us).

Definition sql_result (db : DB) (q : Sql) : result q :=
  match q with
  | SelUserByAccountActive name =>
      filter (λ u, u_account_name u = name ∧ u_del_flg u = 0) (users db)
  | SelUserById id => filter (λ u, u_id u = id) (users db)
  | SelUsersByIds ids => filter (λ u, u_id u ∈ ids) (users db)
  | SelCommentCounts ids => sel_comment_counts (comments db) ids
  | SelCommentsAll ids => sel_comments_all (comments db) ids
  | SelCommentsTop3 ids => sel_comments_top3 (comments db) ids
  | SelUserExists name =>
      (λ _, 1) <$> filter (λ u, u_account_name u = name) (users db)
  | InsUser _ _ => next_user_id (users db)
  | SelPostsFeed limit =>
      base_columns <$> take limit (order_by post_created_desc (posts db))
  | SelPostsByUser uid =>
      base_columns <$>
        order_by post_created_desc (filter (λ p, p_user_id p = uid) (posts db))
  | SelPostsUpTo t =>
      base_columns <$>
        order_by post_created_desc (filter (λ p, p_created_at p ≤ t) (posts db))
  | SelPostsAll => base_columns <$> order_by post_created_desc (posts db)
  | SelPostById id => all_columns <$> filter (λ p, p_id p = id) (posts db)
  | SelUserStats uid => sel_user_stats db uid
  | UpdDelFlg _ _ => ()
  end.

Definition set_del_flg (v : Z) (u : User) : User :=
  mkUser (u_id u) (u_account_name u) (u_passhash u) (u_authority u) v
         (u_created_at u).

(** The store after a statement; [now] is the clock behind the column
    default [CURRENT_TIMESTAMP]. *)
Definition sql_effect (now : Z) (db : DB) (q : Sql) : DB :=
  match q with
  | InsUser name hash =>
      mkDB (users db ++ [mkUser (next_user_id (users db)) name hash 0 0 now])
           (posts db) (comments db)
  | UpdDelFlg v id =>
      mkDB ((λ u, if decide (u_id u = id) then set_del_flg v u else u)
              <$> users db)
           (posts db) (comments db)
  | _ => db
  end.

(** ** The world a request runs in *)

(** [flask.session]: the logged-in user id (stored as [{"id": id}]), the
    anti-forgery token and the flashed messages. *)
Record Session := mkSession {
  s_user : option Z;
  s_csrf_token : option string;
  s_flashes : list string
}.

(** Outcome of one process of a shell pipeline. *)
Record Proc := mkProc {
  exit_status : Z;
  stdout : string
}.

(** The programs [digest] runs, each as a function of what it reads:
    [printf %s src] of its argument, [openssl dgst -sha512] and
    [sed 's/^.*= //'] of their standard input. *)
Record Shell := mkShell {
  sh_printf : string → Proc;
  sh_openssl : string → Proc;
  sh_sed : string → Proc
}.

Record World := mkWorld {
  w_db : DB;
  w_session : Session;
  w_shell : Shell;
  w_now : Z;
  w_urandom : list string;   (* what [os.urandom(8).hex()] will return *)
  w_log : list Sql           (* statements sent to the store, oldest first *)
}.

Inductive exn :=
| CalledProcessError (returncode : Z)
| HTTPException (code : Z)
| KeyError (key : string).

Inductive outcome (A : Type) :=
| Ok (a : A)
| Raise (e : exn).
Global Arguments Ok {A} a.
Global Arguments Raise {A} e.

(** State and exception monad of a request. *)
Definition M (A : Type) : Type := World → outcome A * World.

Global Instance M_ret : MRet M := λ A a w, (Ok a, w).
Global Instance M_bind : MBind M := λ A B f m w,
  match m w with
  | (Ok a, w') => f a w'
  | (Raise e, w') => (Raise e, w')
  end.

Definition raise {A} (e : exn) : M A := λ w, (Raise e, w).

(** Value and final world of a computation. *)
Definition eval {A} (m : M A) (w : World) : outcome A := (m w).1.
Definition exec {A} (m : M A) (w : World) : World := (m w).2.

(** [cursor.execute(q, params)] followed by [fetchall()] / [lastrowid]. *)
Definition execute (q : Sql) : M (result q) := λ w,
  (Ok (sql_result (w_db w) q),
   mkWorld (sql_effect (w_now w) (w_db w) q) (w_session w) (w_shell w)
           (w_now w) (w_urandom w) (w_log w ++ [q])).

(** [cursor.fetchone()]. *)
Definition fetchone {A} (l : list A) : option A := head l.

Definition session_user : M (option Z) := λ w, (Ok (s_user (w_session w)), w).

Definition with_session (f : Session → Session) : M unit := λ w,
  (Ok (), mkWorld (w_db w) (f (w_session w)) (w_shell w) (w_now w)
                  (w_urandom w) (w_log w)).

Definition session_set_user (id : Z) : M unit :=
  with_session (λ s, mkSession (Some id) (s_csrf_token s) (s_flashes s)).

Definition session_set_csrf_token (t : string) : M unit :=
  with_session (λ s, mkSession (s_user s) (Some t) (s_flashes s)).

(** [flask.flash(message)]. *)
Definition flash (message : string) : M unit :=
  with_session (λ s, mkSession (s_user s) (s_csrf_token s)
                               (s_flashes s ++ [message])).

(** [os.urandom(8).hex()]. *)
Definition urandom_hex : M string := λ w,
  (Ok (default "" (head (w_urandom w))),
   mkWorld (w_db w) (w_session w) (w_shell w) (w_now w)
           (tail (w_urandom w)) (w_log w)).

Definition shell : M Shell := λ w, (Ok (w_shell w), w).

(** ** Credential hasher *)

(** [str.strip()] on the ASCII range. *)
Definition is_space (a : ascii) : bool :=
  let n := nat_of_ascii a in
  ((9 <=? n) && (n <=? 13) || (28 <=? n) && (n <=? 32))%nat.

Fixpoint lstrip (l : list ascii) : list ascii :=
  match l with
  | a :: l' => if is_space a then lstrip l' else l
  | [] => []
  end.

Definition strip (s : string) : string :=
  string_of_list_ascii
    (reverse (lstrip (reverse (lstrip (list_ascii_of_string s))))).

(** [sh -c "printf %s src | openssl dgst -sha512 | sed 's/^.*= //'"]: the
    processes are chained through their standard output and the status
    of the pipeline is the status of its last command. *)
Definition run_pipeline (sh : Shell) (src : string) : Proc :=
  let p1 := sh_printf sh src in
  let p2 := sh_openssl sh (stdout p1) in
  let p3 := sh_sed sh (stdout p2) in
  mkProc (exit_status p3) (stdout p3).

(** [subprocess.check_output] raises [CalledProcessError] when the
    shell returns a non-zero status.  (Two errors of [check_output]
    lie outside the definition: the [ValueError] for a [src] that holds
    a NUL character, raised before any process runs, and the
    [UnicodeDecodeError] for an output that is not UTF-8.) *)
Definition digest (src : string) : M string :=
  sh ← shell;
  let out := run_pipeline sh src in
  if decide (exit_status out = 0)
  then mret (strip (stdout out))
  else raise (CalledProcessError (exit_status out)).

Definition calculate_salt (account_name : string) : M string :=
  digest account_name.

Definition calculate_passhash (account_name password : string) : M string :=
  salt ← calculate_salt account_name;
  digest (password +:+ ":" +:+ salt).

Definition try_login (account_name password : string) : M (option User) :=
  us ← execute (SelUserByAccountActive account_name);
  match fetchone (us : list User) with
  | Some user =>
      h ← calculate_passhash (u_account_name user) password;
      if decide (h = u_passhash user) then mret (Some user) else mret None
  | None => mret None
  end.

(** ** Registration rules *)

Definition is_alnum (a : ascii) : bool :=
  let n := nat_of_ascii a in
  ((48 <=? n) && (n <=? 57) || (97 <=? n) && (n <=? 122)
   || (65 <=? n) && (n <=? 90))%nat.

Definition is_word (a : ascii) : bool :=
  is_alnum a || (nat_of_ascii a =? 95)%nat.

(** Length of the longest prefix in a character class. *)
Fixpoint span (cls : ascii → bool) (l : list ascii) : nat :=
  match l with
  | a :: l' => if cls a then S (span cls l') else O
  | [] => O
  end.

(** [re.match(r"[cls]{n,}", s)]: the pattern is tried at the start of
    [s] only and need not reach its end. *)
Definition re_match_at_least (cls : ascii → bool) (n : nat) (s : string) : bool :=
  (n <=? span cls (list_ascii_of_string s))%nat.

Definition validate_user (account_name password : string) : bool :=
  if negb (re_match_at_least is_alnum 3 account_name) then false
  else if negb (re_match_at_least is_word 6 password) then false
  else true.

(** ** Session resolver *)

Definition get_session_user : M (option User) :=
  user ← session_user;
  match user with
  | Some user_id =>
      us ← execute (SelUserById user_id);
      mret (fetchone (us : list User))
  | None => mret None
  end.

(** ** Feed assembler *)

(** A comment row with the key ["user"] that [make_posts] adds to it
    ([None] until it is assigned, and when the author is not found). *)
Record HComment := mkHComment {
  hc_row : Comment;
  hc_user : option User
}.

(** The list object a post's key ["comments"] points to: the list stored
    in [comments_by_post] under a post id, which every post with that id
    shares, or the fresh list of [comments_by_post.get(post_id, [])]. *)
Inductive CommentsRef :=
| Shared (post_id : Z)
| Fresh (l : list HComment).

(** A post row with the keys [make_posts] adds to it. *)
Record PostObj := mkPostObj {
  po_row : PostRow;
  po_user : option User;
  po_comment_count : Z;
  po_comments : CommentsRef
}.

(** A hydrated post view: what the caller reads from the post. *)
Record PostView := mkPostView {
  pv_row : PostRow;
  pv_user : option User;
  pv_comment_count : Z;
  pv_comments : list HComment
}.

(** [{user["id"]: user for user in rows}]: a later row replaces an
    earlier one with the same id. *)
Definition users_by_id (us : list User) : gmap Z User :=
  foldl (λ d u, <[u_id u := u]> d) ∅ us.

(** [{row["post_id"]: row["count"] for row in rows}]. *)
Definition counts_by_post (rs : list (Z * Z)) : gmap Z Z :=
  foldl (λ d row, <[row.1 := row.2]> d) ∅ rs.

(** One round of the loop that groups the fetched comments. *)
Definition group_step (acc : gmap Z (list HComment) * gset Z) (comment : Comment)
    : gmap Z (list HComment) * gset Z :=
  let post_id := c_post_id comment in
  let cbp :=
    match acc.1 !! post_id with
    | None => <[post_id := []]> acc.1
    | Some _ => acc.1
    end in
  (alter (λ l, l ++ [mkHComment comment None]) post_id cbp,
   acc.2 ∪ {[c_user_id comment]}).

Definition group_comments (fetched : list Comment)
    : gmap Z (list HComment) * gset Z :=
  foldl group_step (∅, ∅) fetched.

Definition set_comment_user (comment_users_dict : gmap Z User) (c : HComment)
    : HComment :=
  mkHComment (hc_row c) (comment_users_dict !! c_user_id (hc_row c)).

(** [not post["user"] or post["user"]["del_flg"]]. *)
Definition author_dropped (user : option User) : bool :=
  match user with
  | None => true
  | Some u => truthy (u_del_flg u)
  end.

Section Assemble.
Context (users_dict : gmap Z User) (comment_counts : gmap Z Z)
        (comment_users_dict : gmap Z User).

(** The body of [for post in results] for a post that is kept: the
    new post object and [comments_by_post] after the in-place
    assignments and [comments.reverse()]. *)
Definition hydrate (post : PostRow) (user : option User)
    (cbp : gmap Z (list HComment)) : PostObj * gmap Z (list HComment) :=
  let post_id := r_id post in
  let count := default 0 (comment_counts !! post_id) in
  match cbp !! post_id with
  | Some _ =>
      (mkPostObj post user count (Shared post_id),
       alter reverse post_id
         (alter (fmap (set_comment_user comment_users_dict)) post_id cbp))
  | None =>
      (mkPostObj post user count
         (Fresh (reverse (set_comment_user comment_users_dict <$> []))),
       cbp)
  end.

(** [for post in results: ...], with [continue] and [break]. *)
Fixpoint assemble (results : list PostRow) (posts : list PostObj)
    (cbp : gmap Z (list HComment))
    : list PostObj * gmap Z (list HComment) :=
  match results with
  | [] => (posts, cbp)
  | post :: rest =>
      let user := users_dict !! r_user_id post in
      if author_dropped user then assemble rest posts cbp
      else
        let step := hydrate post user cbp in
        let posts' := posts ++ [step.1] in
        if (POSTS_PER_PAGE <=? length posts')%nat then (posts', step.2)
        else assemble rest posts' step.2
  end.
End Assemble.

(** Reading a post object once the loop is over. *)
Definition deref (cbp : gmap Z (list HComment)) (po : PostObj) : PostView :=
  mkPostView (po_row po) (po_user po) (po_comment_count po)
    match po_comments po with
    | Shared post_id => default [] (cbp !! post_id)
    | Fresh l => l
    end.

Definition make_posts (results : list PostRow) (all_comments : bool)
    : M (list PostView) :=
  if decide (results = []) then mret []
  else
    let post_ids := r_id <$> results in
    let user_ids := elements (list_to_set (r_user_id <$> results) : gset Z) in
    us ← execute (SelUsersByIds user_ids);
    let users_dict := users_by_id us in
    counts ← execute (SelCommentCounts post_ids);
    let comment_counts := counts_by_post counts in
    fetched ← (if all_comments
               then execute (SelCommentsAll post_ids)
               else execute (SelCommentsTop3 post_ids) : M (list Comment));
    let grouped := group_comments fetched in
    let comment_user_ids := grouped.2 in
    comment_users_dict ←
      (if decide (comment_user_ids = ∅) then mret ∅
       else cus ← execute (SelUsersByIds (elements comment_user_ids));
            mret (users_by_id cus));
    let final :=
      assemble users_dict comment_counts comment_users_dict results []
               grouped.1 in
    mret (deref final.2 <$> final.1).

(** ** Endpoints *)

Inductive Response :=
| Redirect (location : string)
| RenderLogin
| RenderRegister
| RenderIndex (posts : list PostView) (me : option User)
| RenderUser (posts : list PostView) (user : User)
             (post_count comment_count commented_count : Z) (me : option User)
| RenderPosts (posts : list PostView)
| RenderPost (post : PostView) (me : option User).

Definition MSG_LOGIN_FAILED : string :=
  "アカウント名かパスワードが間違っています".
Definition MSG_REGISTER_INVALID : string :=
  "アカウント名は3文字以上、パスワードは6文字以上である必要があります".
Definition MSG_ACCOUNT_TAKEN : string :=
  "アカウント名がすでに使われています".

Definition get_login : M Response :=
  me ← get_session_user;
  if me is Some _ then mret (Redirect "/") else mret RenderLogin.

Definition get_register : M Response :=
  me ← get_session_user;
  if me is Some _ then mret (Redirect "/") else mret RenderRegister.

Definition post_login (account_name password : string) : M Response :=
  me ← get_session_user;
  if me is Some _ then mret (Redirect "/")
  else
    user ← try_login account_name password;
    match user with
    | Some user =>
        session_set_user (u_id user);;
        token ← urandom_hex;
        session_set_csrf_token token;;
        mret (Redirect "/")
    | None =>
        flash MSG_LOGIN_FAILED;;
        mret (Redirect "/login")
    end.

Definition post_register (account_name password : string) : M Response :=
  me ← get_session_user;
  if me is Some _ then mret (Redirect "/")
  else if negb (validate_user account_name password) then
    flash MSG_REGISTER_INVALID;;
    mret (Redirect "/register")
  else
    taken ← execute (SelUserExists account_name);
    if fetchone (taken : list Z) is Some _ then
      flash MSG_ACCOUNT_TAKEN;;
      mret (Redirect "/register")
    else
      h ← calculate_passhash account_name password;
      lastrowid ← execute (InsUser account_name h);
      session_set_user lastrowid;;
      token ← urandom_hex;
      session_set_csrf_token token;;
      mret (Redirect "/").

Definition get_index : M Response :=
  me ← get_session_user;
  rs ← execute (SelPostsFeed (POSTS_PER_PAGE * 2));
  posts ← make_posts rs false;
  mret (RenderIndex posts me).

Definition get_user_list (account_name : string) : M Response :=
  us ← execute (SelUserByAccountActive account_name);
  match fetchone (us : list User) with
  | None => raise (HTTPException 404)
  | Some user =>
      rs ← execute (SelPostsByUser (u_id user));
      posts ← make_posts rs false;
      stats ← execute (SelUserStats (u_id user));
      let '(comment_count, post_count, commented_count) := (stats : Z * Z * Z) in
      me ← get_session_user;
      mret (RenderUser posts user post_count comment_count commented_count me)
  end.

(** [max_created_at] is the cursor after [_parse_iso8601]; [None] when
    the request has none (or an empty one). *)
Definition get_posts (max_created_at : option Z) : M Response :=
  rs ← match max_created_at with
       | Some t => execute (SelPostsUpTo t)
       | None => execute SelPostsAll : M (list PostRow)
       end;
  posts ← make_posts rs false;
  mret (RenderPosts posts).

Definition get_posts_id (id : Z) : M Response :=
  rs ← execute (SelPostById id);
  posts ← make_posts rs true;
  match posts with
  | [] => raise (HTTPException 404)
  | post :: _ =>
      me ← get_session_user;
      mret (RenderPost post me)
  end.

(** [for id in uids: cursor.execute(query, (1, id))]. *)
Fixpoint ban_all (uids : list Z) : M unit :=
  match uids with
  | [] => mret ()
  | id :: rest => execute (UpdDelFlg 1 id);; ban_all rest
  end.

Definition session_csrf_token : M string := λ w,
  match s_csrf_token (w_session w) with
  | Some t => (Ok t, w)
  | None => (Raise (KeyError "csrf_token"), w)
  end.

Definition post_banned (csrf_token : string) (uids : list Z) : M Response :=
  me ← get_session_user;
  match me with
  | None => mret (Redirect "/login")
  | Some me =>
      if decide (u_authority me = 0) then raise (HTTPException 403)
      else
        t ← session_csrf_token;
        if decide (csrf_token ≠ t) then raise (HTTPException 422)
        else
          ban_all uids;;
          mret (Redirect "/admin/banned")
  end.

(** ** The usual tools behind [digest] *)

Definition newline : ascii := Ascii.ascii_of_nat 10.

(** [printf %s src]. *)
Definition printf_s (src : string) : Proc := mkProc 0 src.

(** The rest of a line after its last ["= "], if it has one. *)
Fixpoint after_last_label (l : list ascii) : option (list ascii) :=
  match l with
  | [] => None
  | a :: l' =>
      match after_last_label l' with
      | Some t => Some t
      | None =>
          match l' with
          | b :: t =>
              if (nat_of_ascii a =? 61)%nat && (nat_of_ascii b =? 32)%nat
              then Some t else None
          | [] => None
          end
      end
  end.

Fixpoint split_lines (l cur : list ascii) : list (list ascii) :=
  match l with
  | [] => [reverse cur]
  | a :: l' =>
      if (nat_of_ascii a =? 10)%nat then reverse cur :: split_lines l' []
      else split_lines l' (a :: cur)
  end.

Fixpoint join_lines (ls : list (list ascii)) : list ascii :=
  match ls with
  | [] => []
  | [l] => l
  | l :: ls' => l ++ newline :: join_lines ls'
  end.

(** [sed 's/^.*= //']: on every line, the longest prefix ending in
    ["= "] is deleted. *)
Definition sed_strip_label (input : string) : Proc :=
  mkProc 0
    (string_of_list_ascii
       (join_lines
          ((λ l, default l (after_last_label l))
             <$> split_lines (list_ascii_of_string input) []))).

(** ** Vocabulary of the assembly loop *)

(** What one pass of the loop does to the comment group of its post:
    every comment gets its author, then the list is reversed in place. *)
Definition replay (comment_users_dict : gmap Z User) (l : list HComment)
    : list HComment :=
  reverse (set_comment_user comment_users_dict <$> l).

(** A post row the loop keeps, given the author map. *)
Definition kept_by (users_dict : gmap Z User) (r : PostRow) : Prop :=
  author_dropped (users_dict !! r_user_id r) = false.

Global Instance kept_by_dec users_dict r : Decision (kept_by users_dict r).
Proof. unfold kept_by. apply _. Defined.

(** Two stores hold the same comment rows under every post id, up to
    the order inside a group. *)
Definition same_groups (cbp cbp' : gmap Z (list HComment)) : Prop :=
  ∀ p, option_Forall2 (λ l l', hc_row <$> l ≡ₚ hc_row <$> l')
                      (cbp !! p) (cbp' !! p).

(** ** [make_posts] without the monad

    The value [make_posts] returns and the statements it sends, as
    functions of the store; [make_posts_run] below shows they are what
    the monadic definition computes. *)

Definition post_user_ids (results : list PostRow) : list Z :=
  elements (list_to_set (r_user_id <$> results) : gset Z).

Definition fetch_comments (db : DB) (post_ids : list Z) (all_comments : bool)
    : list Comment :=
  if all_comments then sel_comments_all (comments db) post_ids
  else sel_comments_top3 (comments db) post_ids.

Definition comments_query (post_ids : list Z) (all_comments : bool) : Sql :=
  if all_comments then SelCommentsAll post_ids else SelCommentsTop3 post_ids.

Definition comment_authors_query (fetched : list Comment) : list Sql :=
  let ids := (group_comments fetched).2 in
  if decide (ids = ∅) then [] else [SelUsersByIds (elements ids)].

Definition issued (db : DB) (results : list PostRow) (all_comments : bool)
    : list Sql :=
  let post_ids := r_id <$> results in
  [SelUsersByIds (post_user_ids results);
   SelCommentCounts post_ids;
   comments_query post_ids all_comments]
  ++ comment_authors_query (fetch_comments db post_ids all_comments).

Definition post_authors (db : DB) (results : list PostRow) : gmap Z User :=
  users_by_id (sql_result db (SelUsersByIds (post_user_ids results))).

Definition comment_authors (db : DB) (fetched : list Comment) : gmap Z User :=
  let ids := (group_comments fetched).2 in
  if decide (ids = ∅) then ∅
  else users_by_id (sql_result db (SelUsersByIds (elements ids))).

Definition assembled (db : DB) (results : list PostRow) (all_comments : bool)
    : list PostObj * gmap Z (list HComment) :=
  let post_ids := r_id <$> results in
  let fetched := fetch_comments db post_ids all_comments in
  assemble (post_authors db results)
           (counts_by_post (sql_result db (SelCommentCounts post_ids)))
           (comment_authors db fetched)
           results [] (group_comments fetched).1.

Definition views (db : DB) (results : list PostRow) (all_comments : bool)
    : list PostView :=
  let final := assembled db results all_comments in
  deref final.2 <$> final.1.

(** The world after the statements [qs], none of which writes. *)
Definition logged (qs : list Sql) (w : World) : World :=
  mkWorld (w_db w) (w_session w) (w_shell w) (w_now w) (w_urandom w)
          (w_log w ++ qs).

(** ** Vocabulary of the statements *)

(** The author row [users_dict] holds for a user id that occurs in the
    input rows: the last row of [users] with that id. *)
Definition author (db : DB) (uid : Z) : option User :=
  last (filter (λ u, u_id u = uid) (users db)).

(** A post row survives the deleted-author filter. *)
Definition kept (db : DB) (r : PostRow) : Prop :=
  author_dropped (author db (r_user_id r)) = false.

Global Instance kept_dec db r : Decision (kept db r).
Proof. unfold kept. apply _. Defined.

(** ** Vocabulary of the comment selection *)

(** All comments of a post, newest first: the window of the ranked
    sub-query for that post. *)
Definition newest_first (cs : list Comment) (p : Z) : list Comment :=
  order_by comment_created_desc (filter (λ c, c_post_id c = p) cs).

(** The comments of a post among the rows a comment query returned, in
    the order it returned them. *)
Definition group_of (fetched : list Comment) (p : Z) : list Comment :=
  filter (λ c, c_post_id c = p) fetched.

(** Row numbers [k+1, k+2, ...] over a partition. *)
Definition numbered (k : nat) (part : list Comment) : list RankedRow :=
  imap (λ i c, mkRanked (c_post_id c) (c_id c) (S (k + i))) part.

(** The comments the ranked sub-query numbers 1 to 3, partition by
    partition. *)
Definition top_rows (cs : list Comment) (ids : list Z) : list Comment :=
  let sel := filter (λ c, c_post_id c ∈ ids) cs in
  p ← remove_dups (c_post_id <$> sel);
  take 3 (newest_first sel p).

(** [attached] is a choice of the [n] most recent of [total]: it has
    [min n |total|] rows and everything left out is at most as recent
    as everything chosen. *)
Definition most_recent (n : nat) (total attached : list Comment) : Prop :=
  length attached = (n `min` length total)%nat
  ∧ ∃ older,
      attached ++ older ≡ₚ total
      ∧ ∀ c c', c ∈ attached → c' ∈ older → c_created_at c' ≤ c_created_at c.

(** ** Vocabulary of the endpoints *)

(** What [get_session_user] returns and sends in a world. *)
Definition session_user_row (w : World) : option User :=
  match s_user (w_session w) with
  | Some user_id => fetchone (sql_result (w_db w) (SelUserById user_id))
  | None => None
  end.

Definition session_queries (w : World) : list Sql :=
  match s_user (w_session w) with
  | Some user_id => [SelUserById user_id]
  | None => []
  end.

(** The order the specification asks of the post queries: [created_at]
    descending, ties broken by descending [id]. *)
Definition newest_then_largest_id (a b : PostRow) : Prop :=
  r_created_at b < r_created_at a
  ∨ (r_created_at b = r_created_at a ∧ r_id b < r_id a).

Global Instance newest_then_largest_id_dec a b :
  Decision (newest_then_largest_id a b).
Proof. unfold newest_then_largest_id. apply _. Defined.

(** The order the post queries ask of the store: [created_at]
    descending. *)
Definition newest_first_rows (a b : PostRow) : Prop :=
  r_created_at b ≤ r_created_at a.

(** [res] answers [SELECT ... FROM posts ORDER BY created_at DESC LIMIT
    limit] in the sense of SQL: it is the start of some arrangement of
    the table in [created_at] descending order. *)
Definition answers_feed_query (db : DB) (limit : nat) (res : list PostRow)
    : Prop :=
  ∃ sorted,
    sorted ≡ₚ posts db
    ∧ StronglySorted (λ a b, p_created_at b ≤ p_created_at a) sorted
    ∧ res = base_columns <$> take limit sorted.

(** ** Vocabulary of the credential statements *)

(** The row login looks an account name up to. *)
Definition active_account (db : DB) (account_name : string) : option User :=
  fetchone (sql_result db (SelUserByAccountActive account_name)).

(** The hash the store holds for an account name, deleted or not. *)
Definition stored_hash (db : DB) (account_name : string) : option string :=
  u_passhash <$> head (filter (λ u, u_account_name u = account_name) (users db)).

(** What [digest], [calculate_passhash] and [try_login] return, as
    functions of the shell and the store. *)
Definition digest_value (sh : Shell) (src : string) : outcome string :=
  let out := run_pipeline sh src in
  if decide (exit_status out = 0) then Ok (strip (stdout out))
  else Raise (CalledProcessError (exit_status out)).

Definition passhash_value (sh : Shell) (account_name password : string)
    : outcome string :=
  match digest_value sh account_name with
  | Ok salt => digest_value sh (password +:+ ":" +:+ salt)
  | Raise e => Raise e
  end.

Definition login_value (sh : Shell) (db : DB) (account_name password : string)
    : outcome (option User) :=
  match active_account db account_name with
  | Some user =>
      match passhash_value sh (u_account_name user) password with
      | Ok h => if decide (h = u_passhash user) then Ok (Some user) else Ok None
      | Raise e => Raise e
      end
  | None => Ok None
  end.

(** The registration rules in the words of the specification: at least
    [n] characters, all of them in the class. *)
Definition rule (cls : ascii → bool) (n : nat) (s : string) : Prop :=
  (n ≤ length (list_ascii_of_string s))%nat
  ∧ Forall (λ a, cls a = true) (list_ascii_of_string s).

(** The rule [validate_user] applies: the first [n] characters exist and
    are in the class. *)
Definition prefix_rule (cls : ascii → bool) (n : nat) (s : string) : Prop :=
  (n ≤ length (list_ascii_of_string s))%nat
  ∧ Forall (λ a, cls a = true) (take n (list_ascii_of_string s)).

Global Instance rule_dec cls n s : Decision (rule cls n s).
Proof. unfold rule. apply _. Defined.

Global Instance prefix_rule_dec cls n s : Decision (prefix_rule cls n s).
Proof. unfold prefix_rule. apply _. Defined.

(** The world after a failed login: the generic message is flashed and
    the statements sent are the session lookup, if the session names a
    user, and the account lookup. *)
Definition login_failed (account_name : string) (w : World) : World :=
  mkWorld (w_db w)
          (mkSession (s_user (w_session w)) (s_csrf_token (w_session w))
                     (s_flashes (w_session w) ++ [MSG_LOGIN_FAILED]))
          (w_shell w) (w_now w) (w_urandom w)
          (w_log w ++ session_queries w ++ [SelUserByAccountActive account_name]).

(** The world after a registration that validation rejects. *)
Definition register_rejected (w : World) : World :=
  mkWorld (w_db w)
          (mkSession (s_user (w_session w)) (s_csrf_token (w_session w))
                     (s_flashes (w_session w) ++ [MSG_REGISTER_INVALID]))
          (w_shell w) (w_now w) (w_urandom w)
          (w_log w ++ session_queries w).

(** ** A small world to run the definitions in *)

(** A stand-in for [openssl dgst -sha512] that labels its input. *)
Definition demo_openssl (input : string) : Proc :=
  mkProc 0 ("SHA2-512(stdin)= h" +:+ input +:+ String newline "").

Definition demo_shell : Shell := mkShell printf_s demo_openssl sed_strip_label.

Definition alice : User := mkUser 1 "alice" "hsecret1:halice" 0 0 100.
Definition bob : User := mkUser 2 "bob" "hhunter22:hbob" 0 1 100.
Definition carol : User := mkUser 3 "carol" "hpassw0rd:hcarol" 1 0 100.

Definition demo_db : DB :=
  mkDB [alice; bob; carol]
       [mkPost 1 1 "image/png" "" "first" 200;
        mkPost 2 2 "image/jpeg" "" "second" 210;
        mkPost 3 3 "image/gif" "" "third" 210;
        mkPost 4 1 "image/png" "" "fourth" 220]
       [mkComment 1 1 3 "a" 300; mkComment 2 1 2 "b" 310;
        mkComment 3 1 3 "c" 320; mkComment 4 1 1 "d" 330;
        mkComment 5 1 3 "e" 340; mkComment 6 4 2 "f" 350].

Definition demo_world : World :=
  mkWorld demo_db (mkSession None None []) demo_shell 1000
          ["0011223344556677"] [].

Definition demo_rows : list PostRow := sql_result demo_db SelPostsAll.

(** A store where [alice] has 21 posts, numbered 1 to 21 from oldest to
    newest. *)
Definition busy_db : DB :=
  mkDB [alice]
       ((λ i, mkPost (Z.of_nat i) 1 "image/png" "" "" (200 + Z.of_nat i))
          <$> seq 1 21)
       [].

Definition busy_world : World :=
  mkWorld busy_db (mkSession None None []) demo_shell 1000 [] [].

(** A shell where [openssl] fails and prints nothing on its standard
    output, and one where it succeeds and prints something that is not
    a digest. *)
Definition broken_shell : Shell :=
  mkShell printf_s (λ _, mkProc 1 "") sed_strip_label.

Definition garbled_shell : Shell :=
  mkShell printf_s (λ _, mkProc 0 "dgst: Unrecognized flag sha512")
          sed_strip_label.

Definition with_shell (sh : Shell) (w : World) : World :=
  mkWorld (w_db w) (w_session w) sh (w_now w) (w_urandom w) (w_log w).

(** A request whose session names user [uid]. *)
Definition logged_in (uid : Z) (w : World) : World :=
  mkWorld (w_db w) (mkSession (Some uid) (Some "0011223344556677") [])
          (w_shell w) (w_now w) (w_urandom w) (w_log w).

(** Ids of the posts of a list of views, and of the comments attached to
    each. *)
Definition view_ids (vs : list PostView) : list (Z * list Z) :=
  (λ v, (r_id (pv_row v), (λ c, c_id (hc_row c)) <$> pv_comments v)) <$> vs.

Definition eval_views (m : M (list PostView)) (w : World) : list (Z * list Z) :=
  match eval m w with
  | Ok vs => view_ids vs
  | Raise _ => []
  end.

(** A store where post 2 belongs to the deleted [bob] and has two
    comments, and post 1 to [alice]. *)
Definition orphan_db : DB :=
  mkDB [alice; bob]
       [mkPost 1 1 "image/png" "" "kept" 200;
        mkPost 2 2 "image/png" "" "gone" 210]
       [mkComment 1 1 2 "a" 300; mkComment 2 2 1 "b" 310;
        mkComment 3 2 1 "c" 320].

Definition orphan_world : World :=
  mkWorld orphan_db (mkSession None None []) demo_shell 1000 [] [].

(** * The rest of the application

    The endpoints and helpers below complete the embedding.  Their
    statements are not among [Sql]: they act on the store without an
    entry in [w_log], which records the statements of [Sql] only.  As
    for the endpoints above, the arguments of a handler are the form
    fields and path segments it reads. *)

(** ** Python [int(str)] on the ASCII range

    Surrounding whitespace is dropped, a sign may come first, and the
    digits may be separated by single underscores.  (The limit newer
    interpreters put on the number of digits is not part of the
    definition.) *)

Definition is_digit (a : ascii) : bool :=
  let n := nat_of_ascii a in ((48 <=? n) && (n <=? 57))%nat.

Definition digit_value (a : ascii) : Z := Z.of_nat (nat_of_ascii a) - 48.

(** The digits after the sign; [after_digit] tells whether the previous
    character was a digit. *)
Fixpoint int_digits (l : list ascii) (acc : Z) (after_digit : bool)
    : option Z :=
  match l with
  | [] => if after_digit then Some acc else None
  | a :: l' =>
      if is_digit a then int_digits l' (10 * acc + digit_value a) true
      else if (nat_of_ascii a =? 95)%nat && after_digit
           then int_digits l' acc false
      else None
  end.

Definition py_int (s : string) : option Z :=
  match list_ascii_of_string (strip s) with
  | a :: l =>
      if (nat_of_ascii a =? 45)%nat then Z.opp <$> int_digits l 0 false
      else if (nat_of_ascii a =? 43)%nat then int_digits l 0 false
      else int_digits (a :: l) 0 false
  | [] => None
  end.

(** ** Replies of the remaining endpoints *)

(** Exceptions that are not [exn]: the handler ends with them and Flask
    answers 500. *)
Inductive pyerror :=
| TypeError
| ValueError.

Inductive Reply :=
| Page (r : Response)
| Body (text : string)
| ImageData (data mimetype : string)
| RenderBanned (users : list User) (me : User)
| Uncaught (e : pyerror).

(** An uploaded file: [bool(file)] is [bool(file.filename)]. *)
Record FileStorage := mkFile {
  fs_filename : string;
  fs_mimetype : string;
  fs_content : string
}.

Definition MSG_IMAGE_REQUIRED : string := "画像が必要です".
Definition MSG_IMAGE_FORMAT : string :=
  "投稿できる画像形式はjpgとpngとgifだけです".
Definition MSG_IMAGE_TOO_LARGE : string := "ファイルサイズが大きすぎます".
Definition MSG_POST_ID_INTEGER : string := "post_idは整数のみです".

(** ** Statements of the remaining endpoints *)

Inductive Sql2 :=
| DelUsersAbove (id : Z)
    (* DELETE FROM users WHERE id > 1000 *)
| DelPostsAbove (id : Z)
    (* DELETE FROM posts WHERE id > 10000 *)
| DelCommentsAbove (id : Z)
    (* DELETE FROM comments WHERE id > 100000 *)
| ClearDelFlg
    (* UPDATE users SET del_flg = 0 *)
| SetDelFlgEvery (n : Z)
    (* UPDATE users SET del_flg = 1 WHERE id % 50 = 0 *)
| InsPost (user_id : Z) (mime imgdata body : string)
    (* INSERT INTO `posts` (`user_id`, `mime`, `imgdata`, `body`)
       VALUES (%s,%s,%s,%s) *)
| InsComment (post_id user_id : Z) (comment : string)
    (* INSERT INTO `comments` (`post_id`, `user_id`, `comment`)
       VALUES (%s, %s, %s) *).

(** The store takes every row as it is given: the types and the
    constraints of the columns belong to the schema, which the source
    does not hold. *)

(** [AUTO_INCREMENT], as for [users]. *)
Definition next_post_id (ps : list Post) : Z :=
  1 + foldr Z.max 0 (p_id <$> ps).

Definition next_comment_id (cs : list Comment) : Z :=
  1 + foldr Z.max 0 (c_id <$> cs).

(** The store after a statement; [%] of SQL truncates, as [Z.rem]. *)
Definition sql2_effect (now : Z) (db : DB) (q : Sql2) : DB :=
  match q with
  | DelUsersAbove n =>
      mkDB (filter (λ u, ¬ n < u_id u) (users db)) (posts db) (comments db)
  | DelPostsAbove n =>
      mkDB (users db) (filter (λ p, ¬ n < p_id p) (posts db)) (comments db)
  | DelCommentsAbove n =>
      mkDB (users db) (posts db) (filter (λ c, ¬ n < c_id c) (comments db))
  | ClearDelFlg =>
      mkDB (set_del_flg 0 <$> users db) (posts db) (comments db)
  | SetDelFlgEvery n =>
      mkDB ((λ u, if decide (Z.rem (u_id u) n = 0) then set_del_flg 1 u else u)
              <$> users db)
           (posts db) (comments db)
  | InsPost user_id mime imgdata body =>
      mkDB (users db)
           (posts db
              ++ [mkPost (next_post_id (posts db)) user_id mime imgdata body now])
           (comments db)
  | InsComment post_id user_id comment =>
      mkDB (users db) (posts db)
           (comments db
              ++ [mkComment (next_comment_id (comments db)) post_id user_id
                            comment now])
  end.

(** [cursor.lastrowid] after the statement. *)
Definition sql2_lastrowid (db : DB) (q : Sql2) : Z :=
  match q with
  | InsPost _ _ _ _ => next_post_id (posts db)
  | InsComment _ _ _ => next_comment_id (comments db)
  | _ => 0
  end.

Definition execute2 (q : Sql2) : M Z := λ w,
  (Ok (sql2_lastrowid (w_db w) q),
   mkWorld (sql2_effect (w_now w) (w_db w) q) (w_session w) (w_shell w)
           (w_now w) (w_urandom w) (w_log w)).

(** ** Initialisation *)

Definition db_initialize : M unit :=
  execute2 (DelUsersAbove 1000);;
  execute2 (DelPostsAbove 10000);;
  execute2 (DelCommentsAbove 100000);;
  execute2 ClearDelFlg;;
  execute2 (SetDelFlgEvery 50);;
  mret ().

Definition get_initialize : M Reply :=
  db_initialize;;
  mret (Body "").

(** ** Logout *)

(** [flask.session.clear()]. *)
Definition session_clear : M unit :=
  with_session (λ _, mkSession None None []).

Definition get_logout : M Reply :=
  session_clear;;
  mret (Page (Redirect "/")).

(** ** Images *)

Definition image_ext (mime : string) : string :=
  if decide (mime = "image/jpeg") then ".jpg"
  else if decide (mime = "image/png") then ".png"
  else if decide (mime = "image/gif") then ".gif"
  else "".

Definition image_url (post : PostRow) : string :=
  "/image/" +:+ pretty (r_id post) +:+ image_ext (r_mime post).

Definition post_index (csrf_token : string) (file : option FileStorage)
    (body : string) : M Reply :=
  me ← get_session_user;
  match me with
  | None => mret (Page (Redirect "/login"))
  | Some me =>
      t ← session_csrf_token;
      if decide (csrf_token ≠ t) then raise (HTTPException 422)
      else
        match file with
        | Some file =>
            if decide (fs_filename file = "") then
              flash MSG_IMAGE_REQUIRED;;
              mret (Page (Redirect "/"))
            else
              let mime := fs_mimetype file in
              if decide (mime ∉ ["image/jpeg"; "image/png"; "image/gif"]) then
                flash MSG_IMAGE_FORMAT;;
                mret (Page (Redirect "/"))
              else if UPLOAD_LIMIT <? Z.of_nat (String.length (fs_content file))
              then
                flash MSG_IMAGE_TOO_LARGE;;
                mret (Page (Redirect "/"))
              else
                pid ← execute2 (InsPost (u_id me) mime (fs_content file) body);
                mret (Page (Redirect ("/posts/" +:+ pretty pid)))
        | None =>
            flash MSG_IMAGE_REQUIRED;;
            mret (Page (Redirect "/"))
        end
  end.

Definition get_image (id ext : string) : M Reply :=
  if decide (id = "") then mret (Body "")
  else
    match py_int id with
    | None => mret (Uncaught ValueError)
    | Some id =>
        if decide (id = 0) then mret (Body "")
        else
          rs ← execute (SelPostById id);
          match fetchone (rs : list PostRow) with
          | None => mret (Uncaught TypeError)
          | Some post =>
              let mime := r_mime post in
              if decide (ext = "jpg" ∧ mime = "image/jpeg"
                         ∨ ext = "png" ∧ mime = "image/png"
                         ∨ ext = "gif" ∧ mime = "image/gif")
              then mret (ImageData (default "" (r_imgdata post)) mime)
              else raise (HTTPException 404)
          end
    end.

(** ** Comments *)

Definition post_comment (csrf_token post_id comment : string) : M Reply :=
  me ← get_session_user;
  match me with
  | None => mret (Page (Redirect "/login"))
  | Some me =>
      t ← session_csrf_token;
      if decide (csrf_token ≠ t) then raise (HTTPException 422)
      else if negb (re_match_at_least is_digit 1 post_id)
      then mret (Body MSG_POST_ID_INTEGER)
      else
        match py_int post_id with
        | None => mret (Uncaught ValueError)
        | Some post_id =>
            execute2 (InsComment post_id (u_id me) comment);;
            mret (Page (Redirect ("/posts/" +:+ pretty post_id)))
        end
  end.

(** ** The ban page *)

Definition user_created_desc (a b : User) : bool :=
  u_created_at b <=? u_created_at a.

(** [SELECT * FROM users WHERE authority = 0 AND del_flg = 0
    ORDER BY created_at DESC]. *)
Definition sel_bannable (db : DB) : list User :=
  order_by user_created_desc
    (filter (λ u, u_authority u = 0 ∧ u_del_flg u = 0) (users db)).

Definition execute_sel_bannable : M (list User) := λ w,
  (Ok (sel_bannable (w_db w)), w).

Definition get_banned : M Reply :=
  me ← get_session_user;
  match me with
  | None => mret (Page (Redirect "/login"))
  | Some me =>
      if decide (u_authority me = 0) then raise (HTTPException 403)
      else
        users ← execute_sel_bannable;
        mret (RenderBanned users me)
  end.

(** ** The cursor of the cursor page

    [_parse_iso8601] on the ASCII range.  [\d] is a decimal digit, the
    pattern is tried at the start of the string and need not reach its
    end, and [datetime.datetime] raises [ValueError] for a date or a
    time that does not exist, the error the function itself raises when
    the pattern does not match: [None] below. *)

Record datetime := mkDatetime {
  dt_year : Z;
  dt_month : Z;
  dt_day : Z;
  dt_hour : Z;
  dt_minute : Z;
  dt_second : Z
}.

Definition is_leap (year : Z) : bool :=
  (year mod 4 =? 0) && (negb (year mod 100 =? 0) || (year mod 400 =? 0)).

Definition days_in_month (year month : Z) : Z :=
  if month =? 2 then (if is_leap year then 29 else 28)
  else if (month =? 4) || (month =? 6) || (month =? 9) || (month =? 11)
       then 30
  else 31.

(** [datetime.datetime(year, month, day, hour, minute, second)]. *)
Definition datetime_new (year month day hour minute second : Z)
    : option datetime :=
  if (1 <=? year) && (year <=? 9999)
     && (1 <=? month) && (month <=? 12)
     && (1 <=? day) && (day <=? days_in_month year month)
     && (0 <=? hour) && (hour <=? 23)
     && (0 <=? minute) && (minute <=? 59)
     && (0 <=? second) && (second <=? 59)
  then Some (mkDatetime year month day hour minute second)
  else None.

(** [int] of a group of the pattern, which holds digits only. *)
Definition int_group (l : list ascii) : Z :=
  foldl (λ acc a, 10 * acc + digit_value a) 0 l.

Definition is_char (code : nat) (a : ascii) : bool :=
  (nat_of_ascii a =? code)%nat.

Definition _parse_iso8601 (s : string) : option datetime :=
  match list_ascii_of_string s with
  | y1 :: y2 :: y3 :: y4 :: c1 :: m1 :: m2 :: c2 :: d1 :: d2 :: sep
    :: h1 :: h2 :: c3 :: n1 :: n2 :: c4 :: s1 :: s2 :: _ =>
      if forallb is_digit [y1; y2; y3; y4; m1; m2; d1; d2; h1; h2; n1; n2;
                           s1; s2]
         && is_char 45 c1 && is_char 45 c2
         && (is_char 32 sep || is_char 116 sep || is_char 84 sep)
         && is_char 58 c3 && is_char 58 c4
      then datetime_new (int_group [y1; y2; y3; y4]) (int_group [m1; m2])
                        (int_group [d1; d2]) (int_group [h1; h2])
                        (int_group [n1; n2]) (int_group [s1; s2])
      else None
  | _ => None
  end.

(** ** Configuration

    [os.environ] is a map from names to values and [_config] the global
    the function caches its result in; [None] is the [None] of the
    source.  The function returns its result, or the [ValueError] of
    [int], and the new value of the global. *)

Record Config := mkConfig {
  db_host : string;
  db_port : Z;
  db_user : string;
  db_db : string;
  db_passwd : option string;   (* the key is absent when [None] *)
  memcache_address : string
}.

Definition environ_get (environ : gmap string string) (key dflt : string)
    : string :=
  default dflt (environ !! key).

Definition config (environ : gmap string string) (_config : option Config)
    : (pyerror + Config) * option Config :=
  match _config with
  | Some c => (inr c, Some c)
  | None =>
      match py_int (environ_get environ "ISUCONP_DB_PORT" "3306") with
      | None => (inl ValueError, None)
      | Some port =>
          let c passwd :=
            mkConfig (environ_get environ "ISUCONP_DB_HOST" "localhost") port
                     (environ_get environ "ISUCONP_DB_USER" "root")
                     (environ_get environ "ISUCONP_DB_NAME" "isuconp")
                     passwd
                     (environ_get environ "ISUCONP_MEMCACHED_ADDRESS"
                                  "127.0.0.1:11211") in
          let c :=
            match environ !! "ISUCONP_DB_PASSWORD" with
            | Some password =>
                if decide (password = "") then c None else c (Some password)
            | None => c None
            end in
          (inr c, Some c)
      end
  end.

(** * Definitions for the further properties *)

(** Every comment of a list carries the author the map holds for its
    [user_id]. *)
Definition authored (comment_users_dict : gmap Z User) (l : list HComment)
    : Prop :=
  Forall (λ c, hc_user c = comment_users_dict !! c_user_id (hc_row c)) l.

(** The row [INSERT INTO users (account_name, passhash)] adds. *)
Definition new_user (w : World) (account_name passhash : string) : User :=
  mkUser (next_user_id (users (w_db w))) account_name passhash 0 0 (w_now w).

(** The world after a registration that goes through. *)
Definition registered (w : World) (account_name passhash : string) : World :=
  mkWorld
    (mkDB (users (w_db w) ++ [new_user w account_name passhash])
          (posts (w_db w)) (comments (w_db w)))
    (mkSession (Some (next_user_id (users (w_db w))))
               (Some (default "" (head (w_urandom w))))
               (s_flashes (w_session w)))
    (w_shell w) (w_now w) (tail (w_urandom w))
    (w_log w ++ session_queries w
       ++ [SelUserExists account_name; InsUser account_name passhash]).

(** The world after a successful login of [u]. *)
Definition logged_in_as (w : World) (account_name : string) (u : User)
    : World :=
  mkWorld (w_db w)
    (mkSession (Some (u_id u)) (Some (default "" (head (w_urandom w))))
               (s_flashes (w_session w)))
    (w_shell w) (w_now w) (tail (w_urandom w))
    (w_log w ++ session_queries w ++ [SelUserByAccountActive account_name]).

(** The world after a registration refused because the name is taken. *)
Definition name_taken (w : World) (account_name : string) : World :=
  mkWorld (w_db w)
    (mkSession (s_user (w_session w)) (s_csrf_token (w_session w))
               (s_flashes (w_session w) ++ [MSG_ACCOUNT_TAKEN]))
    (w_shell w) (w_now w) (w_urandom w)
    (w_log w ++ session_queries w ++ [SelUserExists account_name]).

(** The table [users] after the ban statements for [uids]. *)
Definition banned_users (uids : list Z) (us : list User) : list User :=
  (λ u, if decide (u_id u ∈ uids) then set_del_flg 1 u else u) <$> us.

(** The [del_flg] every user has after [db_initialize]. *)
Definition initial_del_flg (u : User) : Z :=
  if decide (Z.rem (u_id u) 50 = 0) then 1 else 0.

(** The store after [db_initialize]. *)
Definition initialized (db : DB) : DB :=
  mkDB ((λ u, set_del_flg (initial_del_flg u) u)
          <$> filter (λ u, u_id u ≤ 1000) (users db))
       (filter (λ p, p_id p ≤ 10000) (posts db))
       (filter (λ c, c_id c ≤ 100000) (comments db)).

(** The number a list of decimal digits denotes. *)
Definition decimal (l : list ascii) : Z :=
  foldl (λ acc a, 10 * acc + digit_value a) 0 l.

(** The row [post_index] adds for an upload by [me]. *)
Definition new_post (w : World) (me : User) (file : FileStorage)
    (body : string) : Post :=
  mkPost (next_post_id (posts (w_db w))) (u_id me) (fs_mimetype file)
         (fs_content file) body (w_now w).

(** The world after an upload that goes through. *)
Definition uploaded (w : World) (me : User) (file : FileStorage)
    (body : string) : World :=
  mkWorld
    (mkDB (users (w_db w)) (posts (w_db w) ++ [new_post w me file body])
          (comments (w_db w)))
    (w_session w) (w_shell w) (w_now w) (w_urandom w)
    (w_log w ++ session_queries w).

(** The row [post_comment] adds for a comment by [me] on [post_id]. *)
Definition new_comment (w : World) (me : User) (post_id : Z)
    (comment : string) : Comment :=
  mkComment (next_comment_id (comments (w_db w))) post_id (u_id me) comment
            (w_now w).

(** The world after a comment that goes through. *)
Definition commented (w : World) (me : User) (post_id : Z)
    (comment : string) : World :=
  mkWorld
    (mkDB (users (w_db w)) (posts (w_db w))
          (comments (w_db w) ++ [new_comment w me post_id comment]))
    (w_session w) (w_shell w) (w_now w) (w_urandom w)
    (w_log w ++ session_queries w).

(** A string of the ASCII range, where [py_int] and [_parse_iso8601]
    follow [int] and the pattern of the source. *)
Definition ascii_only (s : string) : Prop :=
  Forall (λ a, (nat_of_ascii a < 128)%nat) (list_ascii_of_string s).

(** A character [int] accepts nowhere in its argument: of the ASCII
    range, and neither a digit, an underscore, a sign nor white space. *)
Definition never_in_int (a : ascii) : Prop :=
  (nat_of_ascii a < 128)%nat
  ∧ is_digit a = false ∧ is_space a = false
  ∧ nat_of_ascii a ≠ 95%nat ∧ nat_of_ascii a ≠ 45%nat
  ∧ nat_of_ascii a ≠ 43%nat.

(** An upload used to instantiate the theorems. *)
Definition demo_file : FileStorage := mkFile "cat.png" "image/png" "PNGDATA".

Definition demo_token : string := "0011223344556677".

(** A stored post of [demo_db]. *)
Definition demo_post : Post := mkPost 3 3 "image/gif" "" "third" 210.

(** A character of a digest as [openssl] prints it. *)
Definition is_hex_digit (a : ascii) : bool :=
  let n := nat_of_ascii a in
  ((48 <=? n) && (n <=? 57) || (97 <=? n) && (n <=? 102))%nat.

(** The line [openssl dgst] prints for a digest, with the label some
    versions put in front of it or without. *)
Definition openssl_line (label : option string) (hex : string) : string :=
  match label with
  | Some l => l +:+ "= " +:+ hex +:+ String newline ""
  | None => hex +:+ String newline ""
  end.

(** A shell whose [openssl] prints a labelled digest. *)
Definition labelling_shell : Shell :=
  mkShell printf_s
          (λ _, mkProc 0 (openssl_line (Some "SHA2-512(stdin)") "0a1b"))
          sed_strip_label.

(** A computation that only sends statements that do not write: it
    leaves every world as it found it, up to the log. *)
Definition read_only {A} (m : M A) : Prop :=
  ∀ w, ∃ qs, exec m w = logged qs w.

(** Two decimal digits of a number below 100, as [%02d] prints it. *)
Definition digit_char (n : Z) : ascii := Ascii.ascii_of_nat (Z.to_nat (48 + n)).

Definition two_digits (n : Z) : list ascii :=
  [digit_char (n / 10); digit_char (n mod 10)].

Definition four_digits (n : Z) : list ascii :=
  two_digits (n / 100) ++ two_digits (n mod 100).

(** [d.isoformat(sep)] of a [datetime] without microseconds. *)
Definition isoformat (d : datetime) (sep : ascii) : string :=
  string_of_list_ascii
    (four_digits (dt_year d) ++ [Ascii.ascii_of_nat 45]
     ++ two_digits (dt_month d) ++ [Ascii.ascii_of_nat 45]
     ++ two_digits (dt_day d) ++ [sep]
     ++ two_digits (dt_hour d) ++ [Ascii.ascii_of_nat 58]
     ++ two_digits (dt_minute d) ++ [Ascii.ascii_of_nat 58]
     ++ two_digits (dt_second d)).

(** A date and a time that exist. *)
Definition valid_datetime (d : datetime) : Prop :=
  1 ≤ dt_year d ≤ 9999
  ∧ 1 ≤ dt_month d ≤ 12
  ∧ 1 ≤ dt_day d ≤ days_in_month (dt_year d) (dt_month d)
  ∧ 0 ≤ dt_hour d ≤ 23
  ∧ 0 ≤ dt_minute d ≤ 59
  ∧ 0 ≤ dt_second d ≤ 59.

(** An environment that sets the port and an empty password. *)
Definition demo_environ : gmap string string :=
  {[ "ISUCONP_DB_PORT" := "3307"; "ISUCONP_DB_PASSWORD" := "" ]}.

(** * Properties *)

(** ** Sorting *)

Section OrderByFacts.
Context {A : Type} (le : A → A → bool).
Hypothesis le_total : ∀ a b, le a b = true ∨ le b a = true.
Hypothesis le_trans : ∀ a b c, le a b = true → le b c = true → le a c = true.

Lemma insert_sorted_perm x l : insert_sorted le x l ≡ₚ x :: l.
Proof.
  induction l as [|y l IH]; simpl; [done|].
  destruct (le x y); [done|]. rewrite IH. apply Permutation_swap.
Qed.

Lemma order_by_perm l : order_by le l ≡ₚ l.
Proof.
  induction l as [|x l IH]; simpl; [done|].
  by rewrite insert_sorted_perm, IH.
Qed.

Lemma elem_of_order_by x l : x ∈ order_by le l ↔ x ∈ l.
Proof. by rewrite order_by_perm. Qed.

Lemma length_order_by l : length (order_by le l) = length l.
Proof. by rewrite order_by_perm. Qed.

Lemma insert_sorted_sorted x l :
  StronglySorted (λ a b, le a b = true) l →
  StronglySorted (λ a b, le a b = true) (insert_sorted le x l).
Proof.
  induction 1 as [|y l Hs IH Hall]; simpl.
  - repeat constructor.
  - destruct (le x y) eqn:Hxy.
    + constructor; [by constructor|].
      constructor; [done|].
      eapply Forall_impl; [exact Hall|]. intros z Hz. by eapply le_trans.
    + constructor; [done|].
      rewrite insert_sorted_perm. constructor; [|done].
      destruct (le_total x y); congruence.
Qed.

Lemma order_by_sorted l :
  StronglySorted (λ a b, le a b = true) (order_by le l).
Proof.
  induction l; simpl; [constructor|]. by apply insert_sorted_sorted.
Qed.
End OrderByFacts.

Lemma StronglySorted_filter {A} (R : relation A) (P : A → Prop)
    `{∀ x, Decision (P x)} (l : list A) :
  StronglySorted R l → StronglySorted R (filter P l).
Proof.
  induction 1 as [|x l Hs IH Hall]; [constructor|].
  rewrite filter_cons. destruct (decide (P x)); [|done].
  constructor; [done|].
  apply Forall_forall. intros y [_ Hy]%list_elem_of_filter.
  rewrite Forall_forall in Hall. by apply Hall.
Qed.

Lemma StronglySorted_reverse {A} (R : relation A) (l : list A) :
  StronglySorted R l → StronglySorted (flip R) (reverse l).
Proof.
  induction 1 as [|x l Hs IH Hall]; [constructor|].
  rewrite reverse_cons. apply StronglySorted_app_2.
  - intros y z Hy Hz. apply list_elem_of_singleton in Hz as ->.
    rewrite elem_of_reverse in Hy. rewrite Forall_forall in Hall.
    unfold flip. by apply Hall.
  - done.
  - repeat constructor.
Qed.

(** ** The assembly loop *)

Section AssembleFacts.
Context (ud : gmap Z User) (cc : gmap Z Z) (cud : gmap Z User).

Lemma replay_rows l : hc_row <$> replay cud l = reverse (hc_row <$> l).
Proof.
  unfold replay. rewrite fmap_reverse, <- list_fmap_compose.
  f_equal.
Qed.

Lemma hydrate_spec post user cbp :
  let step := hydrate cc cud post user cbp in
  po_row step.1 = post ∧ po_user step.1 = user
  ∧ po_comment_count step.1 = default 0 (cc !! r_id post)
  ∧ po_comments step.1 =
      (if cbp !! r_id post is Some _ then Shared (r_id post) else Fresh [])
  ∧ (∀ p, p ≠ r_id post → step.2 !! p = cbp !! p)
  ∧ step.2 !! r_id post = replay cud <$> cbp !! r_id post.
Proof.
  unfold hydrate. destruct (cbp !! r_id post) as [l|] eqn:Hl; simpl.
  - repeat split.
    + intros p Hp. by rewrite !lookup_alter_ne.
    + by rewrite !lookup_alter_eq, Hl.
  - by repeat split.
Qed.

Lemma assemble_cons r rs posts cbp :
  assemble ud cc cud (r :: rs) posts cbp =
    if author_dropped (ud !! r_user_id r) then assemble ud cc cud rs posts cbp
    else
      let step := hydrate cc cud r (ud !! r_user_id r) cbp in
      if (POSTS_PER_PAGE <=? length (posts ++ [step.1]))%nat
      then (posts ++ [step.1], step.2)
      else assemble ud cc cud rs (posts ++ [step.1]) step.2.
Proof. reflexivity. Qed.

Lemma assemble_rows rs : ∀ posts cbp,
  (length posts < POSTS_PER_PAGE)%nat →
  ∃ new,
    (assemble ud cc cud rs posts cbp).1 = posts ++ new
    ∧ po_row <$> new =
        take (POSTS_PER_PAGE - length posts) (filter (kept_by ud) rs)
    ∧ Forall (λ po, po_user po = ud !! r_user_id (po_row po)
                    ∧ po_comment_count po = default 0 (cc !! r_id (po_row po)))
             new.
Proof.
  induction rs as [|r rs IH]; intros posts cbp Hlen.
  - exists []. rewrite app_nil_r, filter_nil, take_nil. by repeat split.
  - rewrite assemble_cons, filter_cons.
    destruct (decide (kept_by ud r)) as [Hk|Hk]; unfold kept_by in Hk.
    + rewrite Hk. cbv zeta.
      pose proof (hydrate_spec r (ud !! r_user_id r) cbp) as (Hr & Hu & Hc & _).
      set (step := hydrate cc cud r (ud !! r_user_id r) cbp) in *.
      rewrite length_app. cbn [length].
      destruct (POSTS_PER_PAGE - length posts)%nat as [|n] eqn:Hn; [lia|].
      destruct (Nat.leb_spec POSTS_PER_PAGE (length posts + 1)).
      * exists [step.1]. assert (n = 0)%nat as -> by lia.
        cbn [take fmap list_fmap fst]. rewrite take_0, Hr. repeat split.
        repeat constructor; congruence.
      * destruct (IH (posts ++ [step.1]) step.2) as (new & -> & Hrows & Hall).
        { rewrite length_app. cbn [length]. lia. }
        exists (step.1 :: new). rewrite <- app_assoc.
        rewrite length_app in Hrows. cbn [length] in Hrows.
        replace (POSTS_PER_PAGE - (length posts + 1))%nat with n in Hrows by lia.
        rewrite fmap_cons, Hrows, Hr. repeat split. constructor; [|done].
        split; congruence.
    + destruct (author_dropped (ud !! r_user_id r)); [|done]. by apply IH.
Qed.

Lemma same_groups_refl cbp : same_groups cbp cbp.
Proof. intros p. destruct (cbp !! p); by constructor. Qed.

Lemma same_groups_trans c1 c2 c3 :
  same_groups c1 c2 → same_groups c2 c3 → same_groups c1 c3.
Proof.
  intros H12 H23 p. specialize (H12 p). specialize (H23 p).
  destruct H12 as [l1 l2 Hl|]; inversion H23; subst; constructor.
  by etrans.
Qed.

Lemma hydrate_same_groups post user cbp :
  same_groups cbp (hydrate cc cud post user cbp).2.
Proof.
  pose proof (hydrate_spec post user cbp) as (_ & _ & _ & _ & Hne & Heq).
  intros p. destruct (decide (p = r_id post)) as [->|Hp].
  - rewrite Heq. destruct (cbp !! r_id post); constructor.
    by rewrite replay_rows, reverse_Permutation.
  - rewrite Hne by done. apply same_groups_refl.
Qed.

Lemma assemble_same_groups rs : ∀ posts cbp,
  same_groups cbp (assemble ud cc cud rs posts cbp).2.
Proof.
  induction rs as [|r rs IH]; intros posts cbp.
  - apply same_groups_refl.
  - rewrite assemble_cons.
    destruct (author_dropped (ud !! r_user_id r)); [apply IH|].
    cbv zeta. destruct (_ <=? _)%nat.
    + apply hydrate_same_groups.
    + eapply same_groups_trans; [apply hydrate_same_groups|apply IH].
Qed.

Lemma deref_comments_perm cbp cbp' po :
  same_groups cbp cbp' →
  po_comments po =
    (if cbp !! r_id (po_row po) is Some _ then Shared (r_id (po_row po))
     else Fresh []) →
  hc_row <$> pv_comments (deref cbp' po)
    ≡ₚ hc_row <$> default [] (cbp !! r_id (po_row po)).
Proof.
  intros Hs Href. unfold deref. cbn [pv_comments]. rewrite Href.
  specialize (Hs (r_id (po_row po))).
  destruct (cbp !! r_id (po_row po)) as [l|];
    inversion Hs as [l1 l2 Hl H1 H2|]; subst; [|done].
  simpl. by symmetry.
Qed.

Lemma assemble_comments_perm rs : ∀ posts cbp,
  ∃ new,
    (assemble ud cc cud rs posts cbp).1 = posts ++ new
    ∧ Forall (λ po,
        hc_row <$> pv_comments (deref (assemble ud cc cud rs posts cbp).2 po)
          ≡ₚ hc_row <$> default [] (cbp !! r_id (po_row po))) new.
Proof.
  induction rs as [|r rs IH]; intros posts cbp.
  - exists []. by rewrite app_nil_r.
  - rewrite assemble_cons.
    destruct (author_dropped (ud !! r_user_id r)); [apply IH|].
    cbv zeta.
    pose proof (hydrate_spec r (ud !! r_user_id r) cbp)
      as (Hr & _ & _ & Href & Hne & Heq).
    pose proof (hydrate_same_groups r (ud !! r_user_id r) cbp) as Hs.
    set (step := hydrate cc cud r (ud !! r_user_id r) cbp) in *.
    assert (Href' : po_comments step.1 =
              (if cbp !! r_id (po_row step.1) is Some _
               then Shared (r_id (po_row step.1)) else Fresh []))
      by (by rewrite Hr).
    destruct (_ <=? _)%nat.
    + exists [step.1]. split; [done|]. constructor; [|done].
      by apply deref_comments_perm.
    + destruct (IH (posts ++ [step.1]) step.2) as (new & Hout & Hall).
      exists (step.1 :: new). rewrite Hout, <- app_assoc. split; [done|].
      constructor.
      * apply deref_comments_perm; [|done].
        eapply same_groups_trans; [exact Hs|apply assemble_same_groups].
      * eapply Forall_impl; [exact Hall|]. intros po Hpo. cbv beta in Hpo.
        rewrite Hpo. specialize (Hs (r_id (po_row po))).
        destruct Hs as [l l' Hl|]; [|done]. by symmetry.
Qed.

Lemma assemble_untouched rs : ∀ posts cbp p,
  p ∉ r_id <$> rs →
  (assemble ud cc cud rs posts cbp).2 !! p = cbp !! p.
Proof.
  induction rs as [|r rs IH]; intros posts cbp p Hp; [done|].
  rewrite fmap_cons, not_elem_of_cons in Hp. destruct Hp as [Hne Hp].
  rewrite assemble_cons.
  destruct (author_dropped (ud !! r_user_id r)); [by apply IH|].
  cbv zeta.
  pose proof (hydrate_spec r (ud !! r_user_id r) cbp)
    as (_ & _ & _ & _ & Hother & _).
  destruct (_ <=? _)%nat; [by apply Hother|].
  rewrite IH by done. by apply Hother.
Qed.

Lemma assemble_comments_once rs : ∀ posts cbp,
  NoDup (r_id <$> rs) →
  ∃ new,
    (assemble ud cc cud rs posts cbp).1 = posts ++ new
    ∧ Forall (λ po,
        po_row po ∈ rs
        ∧ pv_comments (deref (assemble ud cc cud rs posts cbp).2 po)
          = replay cud (default [] (cbp !! r_id (po_row po)))) new.
Proof.
  induction rs as [|r rs IH]; intros posts cbp Hnd.
  - exists []. by rewrite app_nil_r.
  - rewrite fmap_cons in Hnd. apply NoDup_cons in Hnd as [Hr_fresh Hnd].
    rewrite assemble_cons.
    destruct (author_dropped (ud !! r_user_id r)).
    { destruct (IH posts cbp Hnd) as (new & Hout & Hall).
      exists new. split; [done|].
      eapply Forall_impl; [exact Hall|]. intros po [Hin Hpo].
      split; [by apply elem_of_cons; right|done]. }
    cbv zeta.
    pose proof (hydrate_spec r (ud !! r_user_id r) cbp)
      as (Hr & _ & _ & Href & Hne & Heq).
    set (step := hydrate cc cud r (ud !! r_user_id r) cbp) in *.
    assert (Hfirst : ∀ cbp', cbp' !! r_id r = step.2 !! r_id r →
              pv_comments (deref cbp' step.1)
              = replay cud (default [] (cbp !! r_id (po_row step.1)))).
    { intros cbp' Hcbp'. unfold deref. cbn [pv_comments].
      rewrite Href, Hr. destruct (cbp !! r_id r) as [l|] eqn:Hl.
      - by rewrite Hcbp', Heq.
      - done. }
    destruct (_ <=? _)%nat.
    + exists [step.1]. split; [done|]. constructor; [|done].
      split; [rewrite Hr; by apply elem_of_cons; left|by apply Hfirst].
    + destruct (IH (posts ++ [step.1]) step.2 Hnd) as (new & Hout & Hall).
      exists (step.1 :: new). rewrite Hout, <- app_assoc. split; [done|].
      constructor.
      * split; [rewrite Hr; by apply elem_of_cons; left|].
        apply Hfirst. by apply assemble_untouched.
      * eapply Forall_impl; [exact Hall|]. intros po [Hin Hpo].
        split; [by apply elem_of_cons; right|].
        rewrite Hpo, Hne; [done|].
        intros Heq'. apply Hr_fresh. rewrite <- Heq'.
        by apply list_elem_of_fmap_2.
Qed.
End AssembleFacts.

(** ** Running computations *)

Lemma run_bind {A B} (m : M A) (k : A → M B) w :
  (m ≫= k) w =
    match m w with
    | (Ok a, w') => k a w'
    | (Raise e, w') => (Raise e, w')
    end.
Proof. reflexivity. Qed.

Lemma run_ret {A} (a : A) w : (mret a : M A) w = (Ok a, w).
Proof. reflexivity. Qed.

Lemma run_execute q w :
  execute q w =
    (Ok (sql_result (w_db w) q),
     mkWorld (sql_effect (w_now w) (w_db w) q) (w_session w) (w_shell w)
             (w_now w) (w_urandom w) (w_log w ++ [q])).
Proof. reflexivity. Qed.

Ltac run_step :=
  rewrite ?run_bind, ?run_execute, ?run_ret; cbn [sql_effect w_db w_session
    w_shell w_now w_urandom w_log].

Lemma make_posts_nil all_comments w :
  make_posts [] all_comments w = (Ok [], w).
Proof. reflexivity. Qed.

Lemma make_posts_run results all_comments w :
  results ≠ [] →
  make_posts results all_comments w =
    (Ok (views (w_db w) results all_comments),
     logged (issued (w_db w) results all_comments) w).
Proof.
  intros Hne. unfold make_posts. destruct (decide (results = [])); [done|].
  unfold views, assembled, issued, comment_authors, comment_authors_query,
    post_authors, logged, fetch_comments, comments_query.
  destruct w as [db se sh now ur log].
  destruct all_comments; repeat run_step;
    destruct (decide _); repeat run_step;
    rewrite <- ?app_assoc; reflexivity.
Qed.

(** ** The dictionaries [make_posts] builds *)

Lemma filter_ext_in {A} (P Q : A → Prop) `{∀ x, Decision (P x)}
    `{∀ x, Decision (Q x)} (l : list A) :
  (∀ x, x ∈ l → P x ↔ Q x) → filter P l = filter Q l.
Proof.
  induction l as [|x l IH]; intros Hext; [done|].
  rewrite !filter_cons.
  assert (Hx : P x ↔ Q x) by (apply Hext; by left).
  rewrite IH by (intros y Hy; apply Hext; by right).
  destruct (decide (P x)), (decide (Q x)); tauto.
Qed.

Lemma users_by_id_lookup us k :
  users_by_id us !! k = last (filter (λ u, u_id u = k) us).
Proof.
  unfold users_by_id. induction us as [|u us IH] using rev_ind; [done|].
  rewrite foldl_snoc, filter_app, last_app, filter_cons, filter_nil.
  destruct (decide (u_id u = k)) as [<-|Hne]; simpl.
  - by rewrite lookup_insert_eq.
  - by rewrite lookup_insert_ne.
Qed.

Lemma elem_of_post_user_ids results uid :
  uid ∈ post_user_ids results ↔ uid ∈ r_user_id <$> results.
Proof.
  unfold post_user_ids. by rewrite elem_of_elements, elem_of_list_to_set.
Qed.

Lemma post_authors_lookup db results r :
  r ∈ results →
  post_authors db results !! r_user_id r = author db (r_user_id r).
Proof.
  intros Hr. unfold post_authors, author. rewrite users_by_id_lookup.
  cbn [sql_result]. f_equal. apply list_filter_filter_l.
  intros u ->. apply elem_of_post_user_ids. by apply list_elem_of_fmap_2.
Qed.

Lemma filter_kept_by db results :
  filter (kept_by (post_authors db results)) results = filter (kept db) results.
Proof.
  apply filter_ext_in. intros r Hr. unfold kept_by, kept.
  by rewrite post_authors_lookup.
Qed.

Lemma deref_row cbp po : pv_row (deref cbp po) = po_row po.
Proof. done. Qed.

Lemma deref_user cbp po : pv_user (deref cbp po) = po_user po.
Proof. done. Qed.

Lemma views_rows db results all_comments :
  pv_row <$> views db results all_comments
  = take POSTS_PER_PAGE (filter (kept db) results).
Proof.
  unfold views, assembled.
  edestruct (assemble_rows (post_authors db results)) as (new & -> & Hrows & _);
    [cbn; unfold POSTS_PER_PAGE; lia|].
  rewrite app_nil_l, <- list_fmap_compose.
  rewrite <- filter_kept_by. cbn [length] in Hrows.
  rewrite Nat.sub_0_r in Hrows. rewrite <- Hrows. done.
Qed.

Lemma views_users db results all_comments :
  Forall (λ v, pv_row v ∈ results
               ∧ pv_user v = author db (r_user_id (pv_row v))
               ∧ kept db (pv_row v))
         (views db results all_comments).
Proof.
  assert (Hin : ∀ v, v ∈ views db results all_comments
                → pv_row v ∈ filter (kept db) results).
  { intros v Hv. apply (subseteq_take POSTS_PER_PAGE).
    rewrite <- (views_rows db results all_comments).
    by apply list_elem_of_fmap_2. }
  apply Forall_forall. intros v Hv. specialize (Hin v Hv).
  apply list_elem_of_filter in Hin as [Hk Hr].
  cut (pv_row v ∈ results ∧ pv_user v = author db (r_user_id (pv_row v)));
    [tauto|].
  revert Hv. unfold views, assembled.
  edestruct (assemble_rows (post_authors db results)) as (new & -> & _ & Hall);
    [cbn; unfold POSTS_PER_PAGE; lia|].
  rewrite app_nil_l. intros (po & -> & Hpo)%list_elem_of_fmap.
  rewrite Forall_forall in Hall. destruct (Hall po Hpo) as [Hu _].
  rewrite deref_row in Hr. split; [by rewrite deref_row|].
  rewrite deref_user, deref_row, Hu. by apply post_authors_lookup.
Qed.

Lemma group_comments_ids fetched :
  (group_comments fetched).2 = list_to_set (c_user_id <$> fetched).
Proof.
  unfold group_comments. induction fetched as [|c cs IH] using rev_ind; [done|].
  rewrite foldl_snoc, fmap_app, list_to_set_app_L. cbn [group_step snd].
  rewrite IH. cbn [fmap list_fmap list_to_set]. by rewrite (right_id_L ∅ (∪)).
Qed.

Lemma group_comments_ids_empty fetched :
  (group_comments fetched).2 = ∅ ↔ fetched = [].
Proof.
  rewrite group_comments_ids. split; [|by intros ->].
  destruct fetched as [|c cs]; [done|]. rewrite fmap_cons, list_to_set_cons.
  intros Hempty. assert (c_user_id c ∈ (∅ : gset Z)); [|set_solver].
  rewrite <- Hempty. set_solver.
Qed.

Lemma group_comments_lookup fetched p :
  default [] ((group_comments fetched).1 !! p)
  = (λ c, mkHComment c None) <$> filter (λ c, c_post_id c = p) fetched.
Proof.
  unfold group_comments. induction fetched as [|c cs IH] using rev_ind; [done|].
  rewrite foldl_snoc, filter_app, fmap_app, <- IH, filter_cons, filter_nil.
  set (acc := foldl group_step (∅, ∅) cs). cbn [group_step fst].
  destruct (decide (c_post_id c = p)) as [<-|Hne].
  - rewrite lookup_alter_eq. destruct (acc.1 !! c_post_id c) as [l|] eqn:Hl.
    + by rewrite Hl.
    + by rewrite lookup_insert_eq.
  - rewrite lookup_alter_ne by done. rewrite app_nil_r.
    destruct (acc.1 !! c_post_id c); [done|]. by rewrite lookup_insert_ne.
Qed.

(** ** The comment queries *)

Lemma comment_created_desc_total a b :
  comment_created_desc a b = true ∨ comment_created_desc b a = true.
Proof. unfold comment_created_desc. lia. Qed.

Lemma comment_created_desc_trans a b c :
  comment_created_desc a b = true → comment_created_desc b c = true →
  comment_created_desc a c = true.
Proof. unfold comment_created_desc. lia. Qed.

Lemma comment_post_created_total a b :
  comment_post_created a b = true ∨ comment_post_created b a = true.
Proof. unfold comment_post_created. lia. Qed.

Lemma comment_post_created_trans a b c :
  comment_post_created a b = true → comment_post_created b c = true →
  comment_post_created a c = true.
Proof. unfold comment_post_created. lia. Qed.

Lemma post_created_desc_total a b :
  post_created_desc a b = true ∨ post_created_desc b a = true.
Proof. unfold post_created_desc. lia. Qed.

Lemma post_created_desc_trans a b c :
  post_created_desc a b = true → post_created_desc b c = true →
  post_created_desc a c = true.
Proof. unfold post_created_desc. lia. Qed.

(** In a result ordered by [post_id, created_at DESC] the rows of one
    post are newest first. *)
Lemma group_newest_first l p :
  StronglySorted (λ a b, comment_post_created a b = true) l →
  StronglySorted (λ a b, c_created_at b ≤ c_created_at a) (group_of l p).
Proof.
  unfold group_of. induction 1 as [|x l Hs IH Hall]; [constructor|].
  rewrite filter_cons. destruct (decide (c_post_id x = p)) as [Hx|]; [|done].
  constructor; [done|]. apply Forall_forall.
  intros y [Hy Hin]%list_elem_of_filter. rewrite Forall_forall in Hall.
  specialize (Hall y Hin). unfold comment_post_created in Hall. lia.
Qed.

Lemma fetch_comments_sorted db ids all_comments :
  StronglySorted (λ a b, comment_post_created a b = true)
                 (fetch_comments db ids all_comments).
Proof.
  unfold fetch_comments, sel_comments_all, sel_comments_top3.
  destruct all_comments;
    (apply order_by_sorted;
     [apply comment_post_created_total|apply comment_post_created_trans]).
Qed.

Lemma newest_first_sorted cs p :
  StronglySorted (λ a b, c_created_at b ≤ c_created_at a) (newest_first cs p).
Proof.
  unfold newest_first.
  pose proof (order_by_sorted comment_created_desc
    comment_created_desc_total comment_created_desc_trans
    (filter (λ c, c_post_id c = p) cs)) as Hs.
  induction Hs as [|x l Hs IH Hall]; constructor; [done|].
  eapply Forall_impl; [exact Hall|]. intros y. unfold comment_created_desc. lia.
Qed.

(** ** The ranked top-3 query *)

Lemma list_bind_assoc {A B C} (f : A → list B) (g : B → list C) (l : list A) :
  (l ≫= f) ≫= g = l ≫= (λ x, f x ≫= g).
Proof.
  induction l as [|x l IH]; [done|]. by rewrite !bind_cons, bind_app, IH.
Qed.

Lemma list_bind_ext_in {A B} (f g : A → list B) (l : list A) :
  (∀ x, x ∈ l → f x = g x) → l ≫= f = l ≫= g.
Proof.
  intros Hext. apply Forall_bind_ext, Forall_forall. exact Hext.
Qed.

Lemma filter_bind {A B} (P : B → Prop) `{∀ x, Decision (P x)}
    (f : A → list B) (l : list A) :
  filter P (l ≫= f) = l ≫= (λ x, filter P (f x)).
Proof.
  induction l as [|x l IH]; [done|]. by rewrite !bind_cons, filter_app, IH.
Qed.

Lemma filter_all {A} (P : A → Prop) `{∀ x, Decision (P x)} (l : list A) :
  (∀ x, x ∈ l → P x) → filter P l = l.
Proof.
  induction l as [|x l IH]; intros Hall; [done|].
  rewrite filter_cons_True by (apply Hall; by left).
  rewrite IH; [done|]. intros y Hy. apply Hall. by right.
Qed.

Lemma filter_none {A} (P : A → Prop) `{∀ x, Decision (P x)} (l : list A) :
  (∀ x, x ∈ l → ¬ P x) → filter P l = [].
Proof.
  induction l as [|x l IH]; intros Hall; [done|].
  rewrite filter_cons_False by (apply Hall; by left).
  apply IH. intros y Hy. apply Hall. by right.
Qed.

Lemma numbered_cons k x l :
  numbered k (x :: l)
  = mkRanked (c_post_id x) (c_id x) (S k) :: numbered (S k) l.
Proof.
  unfold numbered. rewrite imap_cons, Nat.add_0_r. f_equal.
  apply imap_ext. intros i c _. cbn. f_equal. lia.
Qed.

(** Joining one comment with a numbered partition on [id], keeping
    [rn <= 3], is joining it with the first rows of the partition. *)
Lemma numbered_join c l : ∀ k,
  numbered k l ≫=
    (λ r, if decide (c_id c = rk_id r ∧ (rk_rn r ≤ 3)%nat) then [c] else [])
  = take (3 - k) l ≫= (λ c', if decide (c_id c = c_id c') then [c] else []).
Proof.
  induction l as [|x l IH]; intros k.
  - by rewrite take_nil.
  - rewrite numbered_cons, bind_cons, IH. cbn [rk_id rk_rn].
    destruct (decide (k < 3)%nat) as [Hk|Hk].
    + replace (3 - k)%nat with (S (3 - S k)) by lia.
      cbn [take]. rewrite bind_cons. f_equal.
      destruct (decide (c_id c = c_id x)), (decide (_ ∧ _)); tauto || lia.
    + replace (3 - k)%nat with 0%nat by lia.
      replace (3 - S k)%nat with 0%nat by lia.
      rewrite !take_0. cbn [mbind list_bind]. rewrite app_nil_r.
      destruct (decide (_ ∧ _)); [lia|done].
Qed.

Lemma ranked_join cs ids c :
  ranked cs ids ≫=
    (λ r, if decide (c_id c = rk_id r ∧ (rk_rn r ≤ 3)%nat) then [c] else [])
  = top_rows cs ids ≫= (λ c', if decide (c_id c = c_id c') then [c] else []).
Proof.
  unfold ranked, top_rows. rewrite !list_bind_assoc.
  apply list_bind_ext. 2: done. intros p.
  change (number_partition ?l) with (numbered 0 l).
  by rewrite numbered_join.
Qed.

Lemma top_rows_subseteq cs ids c :
  c ∈ top_rows cs ids → c ∈ cs ∧ c_post_id c ∈ ids.
Proof.
  unfold top_rows. intros (p & Hc & _)%list_elem_of_bind.
  apply (subseteq_take 3) in Hc. unfold newest_first in Hc.
  rewrite elem_of_order_by in Hc.
  apply list_elem_of_filter in Hc as [_ Hc].
  apply list_elem_of_filter in Hc as [? ?]. done.
Qed.

(** Selecting from a duplicate-free list the elements that occur in a
    sub-multiset of it gives that sub-multiset back. *)
Lemma pick_members {A} `{EqDecision A} (l picked : list A) :
  NoDup l → (∀ x, x ∈ picked → x ∈ l) →
  l ≫= (λ x, picked ≫= (λ y, if decide (x = y) then [x] else [])) ≡ₚ picked.
Proof.
  intros Hnd. revert picked.
  induction Hnd as [|a l Ha Hnd IH]; intros picked Hsub.
  - destruct picked as [|y ?]; [done|].
    specialize (Hsub y ltac:(by left)). by apply elem_of_nil in Hsub.
  - rewrite bind_cons.
    assert (Hhead : picked ≫= (λ y, if decide (a = y) then [a] else [])
                    = filter (λ y, a = y) picked).
    { clear. induction picked as [|y picked IH]; [done|].
      rewrite bind_cons, filter_cons, IH.
      by destruct (decide (a = y)) as [->|]. }
    assert (Htail : l ≫= (λ x, picked ≫= (λ y, if decide (x = y) then [x] else []))
                  = l ≫= (λ x, filter (λ y, a ≠ y) picked
                                 ≫= (λ y, if decide (x = y) then [x] else []))).
    { apply list_bind_ext_in. intros x Hx.
      clear -Hx Ha. induction picked as [|y picked IH]; [done|].
      rewrite bind_cons, filter_cons, IH.
      destruct (decide (a ≠ y)) as [|Hay]; [by rewrite bind_cons|].
      apply dec_stable in Hay as <-.
      destruct (decide (x = a)) as [->|]; done. }
    rewrite Hhead, Htail, IH.
    + apply filter_app_complement.
    + intros x [Hx Hin]%list_elem_of_filter.
      specialize (Hsub x Hin). apply elem_of_cons in Hsub as [->|]; done.
Qed.

Lemma NoDup_fmap_inj_on {A B} (f : A → B) (l : list A) x y :
  NoDup (f <$> l) → x ∈ l → y ∈ l → f x = f y → x = y.
Proof.
  induction l as [|a l IH]; intros Hnd Hx Hy Hxy; [by apply elem_of_nil in Hx|].
  rewrite fmap_cons in Hnd. apply NoDup_cons in Hnd as [Ha Hnd].
  apply elem_of_cons in Hx as [->|Hx], Hy as [->|Hy]; [done| | |by apply IH].
  - destruct Ha. rewrite Hxy. by apply list_elem_of_fmap_2.
  - destruct Ha. rewrite <- Hxy. by apply list_elem_of_fmap_2.
Qed.

Lemma join_top3_perm cs ids :
  NoDup (c_id <$> cs) → join_top3 cs (ranked cs ids) ≡ₚ top_rows cs ids.
Proof.
  intros Hnd. unfold join_top3.
  rewrite (list_bind_ext_in _
    (λ c, top_rows cs ids ≫= (λ c', if decide (c = c') then [c] else []))).
  - apply pick_members; [by eapply NoDup_fmap_1|].
    intros c Hc. by apply top_rows_subseteq in Hc as [? _].
  - intros c Hc. rewrite ranked_join. apply list_bind_ext_in. intros c' Hc'.
    apply top_rows_subseteq in Hc' as [Hc' _].
    destruct (decide (c_id c = c_id c')) as [Hid|Hid], (decide (c = c'))
      as [Heq|Hne]; try done.
    + destruct Hne. by eapply NoDup_fmap_inj_on.
    + by subst.
Qed.

Lemma newest_first_post cs p c : c ∈ newest_first cs p → c_post_id c = p.
Proof.
  unfold newest_first. rewrite elem_of_order_by.
  by intros [? _]%list_elem_of_filter.
Qed.

Lemma newest_first_perm cs p :
  newest_first cs p ≡ₚ filter (λ c, c_post_id c = p) cs.
Proof. apply order_by_perm. Qed.

Lemma top_rows_group cs ids p :
  p ∈ ids → group_of (top_rows cs ids) p = take 3 (newest_first cs p).
Proof.
  intros Hp. unfold group_of, top_rows. rewrite filter_bind.
  set (sel := filter (λ c, c_post_id c ∈ ids) cs).
  assert (Hsel : newest_first sel p = newest_first cs p).
  { unfold newest_first, sel. f_equal. apply list_filter_filter_l.
    by intros c ->. }
  assert (Hparts : ∀ ps, NoDup ps →
    ps ≫= (λ q, filter (λ c, c_post_id c = p) (take 3 (newest_first sel q)))
    = if decide (p ∈ ps) then take 3 (newest_first sel p) else []).
  { induction 1 as [|q ps Hq Hnd IH]; [done|].
    rewrite bind_cons, IH. destruct (decide (q = p)) as [->|Hne].
    - rewrite filter_all.
      + rewrite (decide_False (P := p ∈ ps)) by done.
        rewrite decide_True by (by left). by rewrite app_nil_r.
      + intros c Hc. apply (subseteq_take 3) in Hc.
        by eapply newest_first_post.
    - rewrite filter_none.
      + destruct (decide (p ∈ ps)).
        * rewrite decide_True by (by right). done.
        * rewrite decide_False; [done|].
          intros [?|?]%elem_of_cons; congruence.
      + intros c Hc. apply (subseteq_take 3) in Hc.
        apply newest_first_post in Hc. congruence. }
  rewrite Hparts by apply NoDup_remove_dups. rewrite <- Hsel.
  destruct (decide _) as [|Hnot]; [done|].
  rewrite elem_of_remove_dups in Hnot.
  assert (Hempty : newest_first sel p = []).
  { apply Permutation_nil_r. rewrite newest_first_perm.
    rewrite filter_none; [done|]. intros c Hc Hcp. apply Hnot.
    rewrite <- Hcp. by apply list_elem_of_fmap_2. }
  by rewrite Hempty.
Qed.

Lemma top3_group cs ids p :
  NoDup (c_id <$> cs) → p ∈ ids →
  group_of (sel_comments_top3 cs ids) p ≡ₚ take 3 (newest_first cs p).
Proof.
  intros Hnd Hp. rewrite <- (top_rows_group cs ids p Hp).
  unfold group_of, sel_comments_top3.
  by rewrite order_by_perm, join_top3_perm.
Qed.

Lemma all_group cs ids p :
  p ∈ ids →
  group_of (sel_comments_all cs ids) p ≡ₚ filter (λ c, c_post_id c = p) cs.
Proof.
  intros Hp. unfold group_of, sel_comments_all. rewrite order_by_perm.
  rewrite list_filter_filter_l; [done|]. by intros c ->.
Qed.

Lemma most_recent_perm n total attached attached' :
  attached ≡ₚ attached' →
  most_recent n total attached → most_recent n total attached'.
Proof.
  intros Hp (Hlen & older & Hperm & Hle). split; [by rewrite <- Hp|].
  exists older. split; [by rewrite <- Hp|].
  intros c c' Hc. apply Hle. by rewrite Hp.
Qed.

Lemma most_recent_take cs p :
  most_recent 3 (filter (λ c, c_post_id c = p) cs) (take 3 (newest_first cs p)).
Proof.
  split.
  - by rewrite length_take, <- newest_first_perm.
  - exists (drop 3 (newest_first cs p)). rewrite take_drop.
    split; [apply newest_first_perm|].
    intros c c' Hc Hc'. pose proof (newest_first_sorted cs p) as Hs.
    rewrite <- (take_drop 3) in Hs.
    by apply (StronglySorted_app_1_elem_of _ _ _ c c') in Hs.
Qed.

(** ** Comments of the views *)

Lemma group_rows fetched p :
  hc_row <$> default [] ((group_comments fetched).1 !! p) = group_of fetched p.
Proof.
  rewrite group_comments_lookup, <- list_fmap_compose.
  unfold group_of. apply list_fmap_id.
Qed.

Lemma views_comments_perm db results all_comments :
  Forall (λ v,
      hc_row <$> pv_comments v
      ≡ₚ group_of (fetch_comments db (r_id <$> results) all_comments)
                  (r_id (pv_row v)))
    (views db results all_comments).
Proof.
  unfold views, assembled.
  set (fetched := fetch_comments db (r_id <$> results) all_comments).
  edestruct (assemble_comments_perm (post_authors db results)) as (new & Hout & Hall).
  rewrite Hout, app_nil_l. apply Forall_fmap.
  eapply Forall_impl; [exact Hall|]. intros po Hpo. unfold compose.
  cbv beta in *. by rewrite Hpo, group_rows.
Qed.

Lemma views_comments_once db results all_comments :
  NoDup (r_id <$> results) →
  Forall (λ v,
      hc_row <$> pv_comments v
      = reverse (group_of (fetch_comments db (r_id <$> results) all_comments)
                          (r_id (pv_row v))))
    (views db results all_comments).
Proof.
  intros Hnd. unfold views, assembled.
  set (fetched := fetch_comments db (r_id <$> results) all_comments).
  edestruct (assemble_comments_once (post_authors db results))
    as (new & Hout & Hall); [exact Hnd|].
  rewrite Hout, app_nil_l. apply Forall_fmap.
  eapply Forall_impl; [exact Hall|]. intros po [_ Hpo]. unfold compose.
  cbv beta in *. by rewrite Hpo, replay_rows, group_rows.
Qed.

(** ** Running the endpoints *)

Lemma execute_read q w :
  (∀ now db, sql_effect now db q = db) →
  execute q w = (Ok (sql_result (w_db w) q), logged [q] w).
Proof. intros Hread. unfold execute, logged. by rewrite Hread. Qed.

Lemma w_db_logged qs w : w_db (logged qs w) = w_db w.
Proof. reflexivity. Qed.

Lemma logged_nil w : logged [] w = w.
Proof. destruct w. unfold logged. cbn. by rewrite app_nil_r. Qed.

Lemma logged_logged qs qs' w : logged qs' (logged qs w) = logged (qs ++ qs') w.
Proof. unfold logged. cbn. by rewrite app_assoc. Qed.

Lemma get_session_user_run w :
  get_session_user w = (Ok (session_user_row w), logged (session_queries w) w).
Proof.
  unfold get_session_user, session_user_row, session_queries.
  rewrite run_bind. unfold session_user at 1.
  destruct (s_user (w_session w)) as [uid|].
  - rewrite run_bind, execute_read by done. by rewrite run_ret.
  - by rewrite run_ret, logged_nil.
Qed.

Lemma make_posts_eval results all_comments w :
  ∃ qs, make_posts results all_comments w
        = (Ok (views (w_db w) results all_comments), logged qs w).
Proof.
  destruct (decide (results = [])) as [->|Hne].
  - exists []. by rewrite make_posts_nil, logged_nil.
  - eexists. by apply make_posts_run.
Qed.

(** ** The post queries *)

Lemma order_by_created_desc_rows f l :
  (∀ p, r_created_at (f p) = p_created_at p) →
  StronglySorted newest_first_rows (f <$> order_by post_created_desc l).
Proof.
  intros Hf. eapply StronglySorted_fmap;
    [|apply order_by_sorted;
      [apply post_created_desc_total|apply post_created_desc_trans]].
  intros a b. unfold post_created_desc, newest_first_rows.
  rewrite !Hf. lia.
Qed.

Lemma StronglySorted_take {A} (R : relation A) n l :
  StronglySorted R l → StronglySorted R (take n l).
Proof.
  intros Hs. rewrite <- (take_drop n l) in Hs.
  by apply StronglySorted_app_1_l in Hs.
Qed.

Lemma unique_id_at_most_one (ps : list Post) id :
  NoDup (p_id <$> ps) → (length (filter (λ p, p_id p = id) ps) ≤ 1)%nat.
Proof.
  induction ps as [|p ps IH]; intros Hnd; [cbn; lia|].
  rewrite fmap_cons in Hnd. apply NoDup_cons in Hnd as [Hp Hnd].
  rewrite filter_cons. destruct (decide (p_id p = id)) as [<-|]; [|by apply IH].
  rewrite filter_none; [cbn; lia|].
  intros q Hq Heq. apply Hp. rewrite <- Heq. by apply list_elem_of_fmap_2.
Qed.

(** With [id] the key of [posts], every post query returns rows with
    distinct ids: the rows [make_posts] is given never share a comment
    group. *)
Lemma post_rows_distinct_ids db :
  NoDup (p_id <$> posts db) →
  (∀ limit, NoDup (r_id <$> (sql_result db (SelPostsFeed limit) : list PostRow)))
  ∧ (∀ uid, NoDup (r_id <$> (sql_result db (SelPostsByUser uid) : list PostRow)))
  ∧ (∀ t, NoDup (r_id <$> (sql_result db (SelPostsUpTo t) : list PostRow)))
  ∧ NoDup (r_id <$> (sql_result db SelPostsAll : list PostRow))
  ∧ (∀ id, NoDup (r_id <$> (sql_result db (SelPostById id) : list PostRow))).
Proof.
  intros Hnd. cbn [sql_result].
  assert (Hsub : ∀ l, l ⊆+ posts db → NoDup (p_id <$> l)).
  { intros l Hl. apply (fmap_submseteq p_id) in Hl.
    apply submseteq_sublist_r in Hl as (k & -> & Hk).
    by eapply sublist_NoDup. }
  assert (Hord : ∀ l, order_by post_created_desc l ⊆+ l).
  { intros l. apply Permutation_submseteq, order_by_perm. }
  repeat split; intros; rewrite <- list_fmap_compose;
    (change (r_id ∘ base_columns) with p_id
     || change (r_id ∘ all_columns) with p_id); apply Hsub.
  - etrans; [apply sublist_submseteq, sublist_take|]. apply Hord.
  - etrans; [apply Hord|]. apply sublist_submseteq, sublist_filter.
  - etrans; [apply Hord|]. apply sublist_submseteq, sublist_filter.
  - apply Hord.
  - apply sublist_submseteq, sublist_filter.
Qed.

(** ** Running the credential functions *)

Lemma digest_run src w : digest src w = (digest_value (w_shell w) src, w).
Proof.
  unfold digest, digest_value. rewrite run_bind. unfold shell at 1.
  by destruct (decide _).
Qed.

Lemma calculate_passhash_run account_name password w :
  calculate_passhash account_name password w
  = (passhash_value (w_shell w) account_name password, w).
Proof.
  unfold calculate_passhash, calculate_salt, passhash_value.
  rewrite run_bind, digest_run.
  destruct (digest_value (w_shell w) account_name); [|done].
  by rewrite digest_run.
Qed.

Lemma try_login_run account_name password w :
  try_login account_name password w
  = (login_value (w_shell w) (w_db w) account_name password,
     logged [SelUserByAccountActive account_name] w).
Proof.
  unfold try_login, login_value, active_account.
  rewrite run_bind, execute_read by done.
  destruct (fetchone _) as [user|]; [|done].
  rewrite run_bind, calculate_passhash_run. cbn [w_shell logged].
  destruct (passhash_value _ _ _); [|done].
  by destruct (decide _).
Qed.

Lemma active_account_name db account_name u :
  active_account db account_name = Some u →
  u_account_name u = account_name ∧ u_del_flg u = 0 ∧ u ∈ users db.
Proof.
  unfold active_account, fetchone. cbn [sql_result]. intros Hu.
  apply head_Some_elem_of in Hu.
  apply list_elem_of_filter in Hu as [[? ?] ?]. done.
Qed.

(** ** Scenarios *)

(** Post 1 of [demo_db] has five comments, post 2 a deleted author.  The
    feed shows posts 4, 3 and 1; post 1 carries its three most recent
    comments, oldest first. *)
Example feed_scenario :
  eval_views (make_posts demo_rows false) demo_world
  = [(4, [6]); (3, []); (1, [3; 4; 5])].
Proof. by vm_compute. Qed.

(** In all-comments mode post 1 carries its five comments, oldest
    first. *)
Example detail_scenario :
  eval_views (make_posts (sql_result demo_db (SelPostById 1)) true) demo_world
  = [(1, [1; 2; 3; 4; 5])].
Proof. by vm_compute. Qed.

(** The post of a deleted author is answered with 404 by the detail
    view although its row exists. *)
Example deleted_author_detail :
  length (sql_result demo_db (SelPostById 2) : list PostRow) = 1%nat
  ∧ eval (get_posts_id 2) demo_world = Raise (HTTPException 404).
Proof. by vm_compute. Qed.

(** Two input rows with the same post id share the list stored under
    that id in [comments_by_post]: it is reversed once for each of
    them, and both posts end up with the comments newest first.  The
    post queries never return such rows ([post_rows_distinct_ids]). *)
Example shared_group_reversed_twice :
  eval_views
    (make_posts (sql_result demo_db (SelPostById 1)
                 ++ sql_result demo_db (SelPostById 1)) true)
    demo_world
  = [(1, [5; 4; 3; 2; 1]); (1, [5; 4; 3; 2; 1])].
Proof. by vm_compute. Qed.

(** Registration of ["dave"] with ["secret1"] stores
    [passhash("dave", "secret1")]; a later login with ["secret1"]
    succeeds and one with ["secret2"] fails. *)
Example register_then_login :
  let w := exec (post_register "dave" "secret1") demo_world in
  eval (calculate_passhash "dave" "secret1") demo_world = Ok "hsecret1:hdave"
  ∧ stored_hash (w_db w) "dave" = Some "hsecret1:hdave"
  ∧ (∃ u, eval (try_login "dave" "secret1") w = Ok (Some u) ∧ u_id u = 4)
  ∧ eval (try_login "dave" "secret2") w = Ok None.
Proof.
  repeat split; try by vm_compute.
  eexists. split; by vm_compute.
Qed.

(** ** C1: posts of deleted or missing authors *)

(** C1.  For every input row set and both comment modes, [make_posts]
    returns, in input order, exactly the first [POSTS_PER_PAGE] rows
    that pass the author test: a row whose author is absent from the
    author map ([users_dict]) or has [del_flg] set is not in the output
    and is not counted by the cap, and every post of the output carries
    the author the map holds for it, with [del_flg = 0]. *)
Theorem make_posts_drops_deleted_authors w results all_comments :
  ∃ vs,
    eval (make_posts results all_comments) w = Ok vs
    ∧ pv_row <$> vs
      = take POSTS_PER_PAGE
             (filter (kept_by (post_authors (w_db w) results)) results)
    ∧ Forall (λ v, ∃ u,
          pv_user v = Some u
          ∧ post_authors (w_db w) results !! r_user_id (pv_row v) = Some u
          ∧ u_del_flg u = 0) vs.
Proof.
  destruct (decide (results = [])) as [->|Hne].
  { exists []. by repeat split. }
  exists (views (w_db w) results all_comments).
  unfold eval. rewrite make_posts_run by done. split; [done|].
  rewrite filter_kept_by. split; [apply views_rows|].
  eapply Forall_impl; [apply views_users|].
  intros v (Hin & Hu & Hk). unfold kept in Hk. cbv beta.
  rewrite post_authors_lookup by done.
  destruct (author (w_db w) (r_user_id (pv_row v))) as [u|] eqn:Ha; [|done].
  exists u. do 2 (split; [done|]).
  cbn in Hk. unfold truthy in Hk. apply negb_false_iff in Hk. lia.
Qed.

(** ** C2: number of statements per run *)

(** C2.  For every non-empty input row set, one run of [make_posts]
    sends the post-author query, the comment-count query and the
    comment query of its mode, in that order, followed by the
    comment-author query exactly when the comment query returned a
    row: three or four statements, whatever the number of posts and
    comments, and the store is left as it was. *)
Theorem make_posts_at_most_four_queries w results all_comments :
  results ≠ [] →
  ∃ vs qs,
    make_posts results all_comments w = (Ok vs, logged qs w)
    ∧ (length qs ≤ 4)%nat
    ∧ qs =
        [SelUsersByIds (post_user_ids results);
         SelCommentCounts (r_id <$> results);
         comments_query (r_id <$> results) all_comments]
        ++ (if decide (fetch_comments (w_db w) (r_id <$> results) all_comments = [])
            then []
            else [SelUsersByIds
                    (elements (list_to_set
                       (c_user_id <$> fetch_comments (w_db w) (r_id <$> results)
                                                     all_comments) : gset Z))]).
Proof.
  intros Hne. eexists _, _. split; [by apply make_posts_run|].
  unfold issued, comment_authors_query.
  set (fetched := fetch_comments (w_db w) (r_id <$> results) all_comments).
  destruct (decide (fetched = [])) as [Hf|Hf].
  - rewrite decide_True by (by apply group_comments_ids_empty).
    split; [cbn; lia|done].
  - rewrite decide_False by (by rewrite group_comments_ids_empty).
    rewrite group_comments_ids. split; [cbn; lia|done].
Qed.

Lemma make_posts_at_most_four_queries_witness :
  demo_rows ≠ []
  ∧ ∃ vs qs,
      make_posts demo_rows false demo_world = (Ok vs, logged qs demo_world)
      ∧ (length qs ≤ 4)%nat
      ∧ qs =
          [SelUsersByIds (post_user_ids demo_rows);
           SelCommentCounts (r_id <$> demo_rows);
           comments_query (r_id <$> demo_rows) false]
          ++ (if decide (fetch_comments (w_db demo_world) (r_id <$> demo_rows) false = [])
              then []
              else [SelUsersByIds
                      (elements (list_to_set
                         (c_user_id <$> fetch_comments (w_db demo_world)
                                          (r_id <$> demo_rows) false) : gset Z))]).
Proof.
  split; [by vm_compute|].
  apply (make_posts_at_most_four_queries demo_world demo_rows false).
  by vm_compute.
Defined.

(** ** C4: the three most recent comments *)

(** C4 as stated fails: it speaks of every post of the input, and a
    post of the input whose author is deleted is not in the output, so
    nothing is attached to it.  Post 2 of [orphan_db] is in the input
    and has two comments, of a deleted author; the output holds post 1
    alone. *)
Lemma deleted_authors_post_gets_no_comments :
  let rows : list PostRow := sql_result orphan_db SelPostsAll in
  NoDup (c_id <$> comments orphan_db)
  ∧ r_id <$> rows = [2; 1]
  ∧ Nat.min 3 (length (filter (λ c, c_post_id c = 2) (comments orphan_db)))
    = 2%nat
  ∧ eval_views (make_posts rows false) orphan_world = [(1, [1])].
Proof.
  cbv zeta. split; [|by vm_compute].
  apply (bool_decide_unpack _). by vm_compute.
Qed.

(** C4, amended.  With comment ids unique, a run of [make_posts] in
    top-N mode on a non-empty row set sends one comment query, the
    ranked one over the whole set of post ids, and no query for all
    comments; for every post of the input the group that query returns
    for it is [min 3 total] of the post's comments, none left out more
    recent than one chosen.  The posts of the output are the first
    [POSTS_PER_PAGE] posts of the input whose author is there and not
    deleted, in input order, and each of them, and so each of those
    input posts, has [min 3 total] of its comments attached, none left
    out more recent than one attached. *)
Theorem make_posts_top3_comments w results :
  NoDup (c_id <$> comments (w_db w)) →
  results ≠ [] →
  let total (p : Z) := filter (λ c, c_post_id c = p) (comments (w_db w)) in
  let rendered := take POSTS_PER_PAGE (filter (kept (w_db w)) results) in
  ∃ vs qs,
    make_posts results false w = (Ok vs, logged qs w)
    ∧ qs =
        [SelUsersByIds (post_user_ids results);
         SelCommentCounts (r_id <$> results);
         SelCommentsTop3 (r_id <$> results)]
        ++ comment_authors_query
             (sel_comments_top3 (comments (w_db w)) (r_id <$> results))
    ∧ (∀ r, r ∈ results →
         most_recent 3 (total (r_id r))
           (group_of (sel_comments_top3 (comments (w_db w)) (r_id <$> results))
                     (r_id r)))
    ∧ pv_row <$> vs = rendered
    ∧ Forall (λ v,
         length (pv_comments v) = (3 `min` length (total (r_id (pv_row v))))%nat
         ∧ (length (pv_comments v) ≤ 3)%nat
         ∧ most_recent 3 (total (r_id (pv_row v))) (hc_row <$> pv_comments v))
        vs
    ∧ (∀ r, r ∈ rendered →
         ∃ v, v ∈ vs ∧ pv_row v = r
              ∧ length (pv_comments v) = (3 `min` length (total (r_id r)))%nat
              ∧ most_recent 3 (total (r_id r)) (hc_row <$> pv_comments v)).
Proof.
  intros Hnd Hne. cbv zeta. eexists _, _. split; [by apply make_posts_run|].
  split; [done|].
  assert (Hgroup : ∀ r, r ∈ results →
    most_recent 3
      (filter (λ c, c_post_id c = r_id r) (comments (w_db w)))
      (group_of (sel_comments_top3 (comments (w_db w)) (r_id <$> results))
                (r_id r))).
  { intros r Hr. eapply most_recent_perm; [|apply most_recent_take].
    symmetry. apply top3_group; [done|]. by apply list_elem_of_fmap_2. }
  split; [done|]. split; [apply views_rows|].
  pose proof (views_comments_perm (w_db w) results false) as Hperm.
  pose proof (views_users (w_db w) results false) as Husers.
  rewrite Forall_forall in Hperm, Husers.
  assert (Hviews : ∀ v, v ∈ views (w_db w) results false →
    length (pv_comments v)
    = (3 `min` length (filter (λ c, c_post_id c = r_id (pv_row v))
                              (comments (w_db w))))%nat
    ∧ (length (pv_comments v) ≤ 3)%nat
    ∧ most_recent 3
        (filter (λ c, c_post_id c = r_id (pv_row v)) (comments (w_db w)))
        (hc_row <$> pv_comments v)).
  { intros v Hv. destruct (Husers v Hv) as (Hin & _).
    assert (Hm : most_recent 3
      (filter (λ c, c_post_id c = r_id (pv_row v)) (comments (w_db w)))
      (hc_row <$> pv_comments v)).
    { eapply most_recent_perm; [symmetry; by apply Hperm|]. by apply Hgroup. }
    pose proof Hm as [Hlen _]. rewrite length_fmap in Hlen.
    split; [done|]. split; [lia|done]. }
  split; [by apply Forall_forall|].
  intros r Hr. rewrite <- (views_rows (w_db w) results false) in Hr.
  apply list_elem_of_fmap in Hr as (v & -> & Hv).
  exists v. destruct (Hviews v Hv) as (Hlen & _ & Hm). done.
Qed.

Lemma make_posts_top3_comments_witness :
  NoDup (c_id <$> comments (w_db demo_world))
  ∧ demo_rows ≠ []
  ∧ let total (p : Z) :=
      filter (λ c, c_post_id c = p) (comments (w_db demo_world)) in
    let rendered :=
      take POSTS_PER_PAGE (filter (kept (w_db demo_world)) demo_rows) in
    ∃ vs qs,
      make_posts demo_rows false demo_world = (Ok vs, logged qs demo_world)
      ∧ qs =
          [SelUsersByIds (post_user_ids demo_rows);
           SelCommentCounts (r_id <$> demo_rows);
           SelCommentsTop3 (r_id <$> demo_rows)]
          ++ comment_authors_query
               (sel_comments_top3 (comments (w_db demo_world))
                                  (r_id <$> demo_rows))
      ∧ (∀ r, r ∈ demo_rows →
           most_recent 3 (total (r_id r))
             (group_of (sel_comments_top3 (comments (w_db demo_world))
                                          (r_id <$> demo_rows))
                       (r_id r)))
      ∧ pv_row <$> vs = rendered
      ∧ Forall (λ v,
           length (pv_comments v)
           = (3 `min` length (total (r_id (pv_row v))))%nat
           ∧ (length (pv_comments v) ≤ 3)%nat
           ∧ most_recent 3 (total (r_id (pv_row v)))
               (hc_row <$> pv_comments v)) vs
      ∧ (∀ r, r ∈ rendered →
           ∃ v, v ∈ vs ∧ pv_row v = r
                ∧ length (pv_comments v)
                  = (3 `min` length (total (r_id r)))%nat
                ∧ most_recent 3 (total (r_id r)) (hc_row <$> pv_comments v)).
Proof.
  assert (Hnd : NoDup (c_id <$> comments (w_db demo_world))).
  { apply (bool_decide_unpack _). by vm_compute. }
  assert (Hne : demo_rows ≠ []) by (by vm_compute).
  split; [exact Hnd|]. split; [exact Hne|].
  exact (make_posts_top3_comments demo_world demo_rows Hnd Hne).
Defined.

(** ** C5: attached comments are oldest first *)

(** C5.  In both modes, on input rows with distinct post ids, the
    comments attached to a post of the output are the post's group of
    the comment query, which is newest first, in reverse order: they
    are in non-decreasing [created_at] order. *)
Theorem make_posts_comments_oldest_first w results all_comments :
  NoDup (r_id <$> results) →
  ∃ vs,
    eval (make_posts results all_comments) w = Ok vs
    ∧ Forall (λ v,
        StronglySorted (λ a b, c_created_at b ≤ c_created_at a)
          (group_of (fetch_comments (w_db w) (r_id <$> results) all_comments)
                    (r_id (pv_row v)))
        ∧ hc_row <$> pv_comments v
          = reverse (group_of (fetch_comments (w_db w) (r_id <$> results)
                                              all_comments)
                              (r_id (pv_row v)))
        ∧ StronglySorted (λ a b, c_created_at a ≤ c_created_at b)
            (hc_row <$> pv_comments v)) vs.
Proof.
  intros Hnd. destruct (decide (results = [])) as [->|Hne].
  { exists []. by split. }
  exists (views (w_db w) results all_comments).
  unfold eval. rewrite make_posts_run by done. split; [done|].
  eapply Forall_impl; [by apply views_comments_once|].
  intros v Hv. cbv beta in *.
  pose proof (group_newest_first _ (r_id (pv_row v))
    (fetch_comments_sorted (w_db w) (r_id <$> results) all_comments)) as Hs.
  split; [done|]. split; [done|]. rewrite Hv.
  by apply (StronglySorted_reverse _ _ Hs).
Qed.

Lemma make_posts_comments_oldest_first_witness :
  NoDup (r_id <$> demo_rows)
  ∧ ∃ vs,
      eval (make_posts demo_rows true) demo_world = Ok vs
      ∧ Forall (λ v,
          StronglySorted (λ a b, c_created_at b ≤ c_created_at a)
            (group_of (fetch_comments (w_db demo_world) (r_id <$> demo_rows) true)
                      (r_id (pv_row v)))
          ∧ hc_row <$> pv_comments v
            = reverse (group_of (fetch_comments (w_db demo_world)
                                   (r_id <$> demo_rows) true)
                                (r_id (pv_row v)))
          ∧ StronglySorted (λ a b, c_created_at a ≤ c_created_at b)
              (hc_row <$> pv_comments v)) vs.
Proof.
  assert (Hnd : NoDup (r_id <$> demo_rows)).
  { apply (bool_decide_unpack _). by vm_compute. }
  split; [exact Hnd|].
  exact (make_posts_comments_oldest_first demo_world demo_rows true Hnd).
Defined.

(** ** C3: where the page-size cap applies *)

(** C3 as stated fails: [get_user_list] passes its rows to [make_posts]
    like the feed does, and the cap is part of [make_posts].  With 21
    posts of one non-deleted author, the author view is given 21 rows,
    all of which pass the author filter, and renders 20. *)
Lemma author_view_is_capped :
  length (filter (kept busy_db)
            (sql_result busy_db (SelPostsByUser 1) : list PostRow)) = 21%nat
  ∧ ∃ vs pc cc cdc,
      eval (get_user_list "alice") busy_world
        = Ok (RenderUser vs alice pc cc cdc None)
      ∧ length vs = 20%nat
      ∧ pv_row <$> vs
        ≠ filter (kept busy_db)
            (sql_result busy_db (SelPostsByUser 1) : list PostRow).
Proof.
  split; [by vm_compute|].
  eexists _, _, _, _. split; [by vm_compute|].
  split; [by vm_compute|].
  intros Heq. apply (f_equal length) in Heq. by vm_compute in Heq.
Qed.

(** C3, amended.  The cap belongs to [make_posts] and so to every view:
    the feed, the author view and the cursor view each render the first
    [POSTS_PER_PAGE] rows of their query that pass the author filter.
    The single-post view is given at most one row when post ids are
    unique, so it renders the row it was given if the row passes the
    filter, and answers 404 otherwise. *)
Theorem cap_in_every_view w :
  NoDup (p_id <$> posts (w_db w)) →
  let db := w_db w in
  (∃ vs, eval get_index w = Ok (RenderIndex vs (session_user_row w))
     ∧ pv_row <$> vs
       = take POSTS_PER_PAGE
              (filter (kept db)
                 (sql_result db (SelPostsFeed (POSTS_PER_PAGE * 2))
                  : list PostRow)))
  ∧ (∀ account_name,
       match active_account db account_name with
       | None =>
           eval (get_user_list account_name) w = Raise (HTTPException 404)
       | Some user =>
           ∃ vs pc cc cdc,
             eval (get_user_list account_name) w
               = Ok (RenderUser vs user pc cc cdc (session_user_row w))
             ∧ pv_row <$> vs
               = take POSTS_PER_PAGE
                      (filter (kept db)
                         (sql_result db (SelPostsByUser (u_id user))
                          : list PostRow))
       end)
  ∧ (∀ max_created_at,
       ∃ vs, eval (get_posts max_created_at) w = Ok (RenderPosts vs)
         ∧ pv_row <$> vs
           = take POSTS_PER_PAGE
                  (filter (kept db)
                     match max_created_at return list PostRow with
                     | Some t => sql_result db (SelPostsUpTo t)
                     | None => sql_result db SelPostsAll
                     end))
  ∧ (∀ id,
       match filter (kept db)
                    (sql_result db (SelPostById id) : list PostRow) with
       | [] => eval (get_posts_id id) w = Raise (HTTPException 404)
       | r :: rest =>
           rest = []
           ∧ ∃ v, eval (get_posts_id id) w
                    = Ok (RenderPost v (session_user_row w))
               ∧ pv_row v = r
       end).
Proof.
  intros Hnd db. subst db. repeat split.
  - unfold get_index, eval. rewrite run_bind, get_session_user_run.
    rewrite run_bind, execute_read by done.
    rewrite run_bind, w_db_logged.
    edestruct (make_posts_eval (sql_result (w_db w)
      (SelPostsFeed (POSTS_PER_PAGE * 2))) false) as [qs ->].
    rewrite run_ret, w_db_logged. eexists. split; [done|]. apply views_rows.
  - intros account_name. unfold get_user_list, eval, active_account.
    rewrite run_bind, execute_read by done.
    destruct (fetchone _) as [user|]; [|done].
    rewrite run_bind, execute_read by done. rewrite run_bind, w_db_logged.
    edestruct (make_posts_eval (sql_result (w_db w)
      (SelPostsByUser (u_id user))) false) as [qs ->].
    rewrite run_bind, execute_read by done.
    destruct (sql_result _ (SelUserStats (u_id user))) as [[cc pc] cdc] eqn:Hst.
    rewrite run_bind, get_session_user_run, run_ret, !w_db_logged.
    eexists _, _, _, _. split; [done|]. apply views_rows.
  - intros max_created_at. unfold get_posts, eval. rewrite run_bind.
    destruct max_created_at as [t|]; rewrite execute_read by done;
      rewrite run_bind;
      [edestruct (make_posts_eval (sql_result (w_db w) (SelPostsUpTo t)) false)
         as [qs ->]
      |edestruct (make_posts_eval (sql_result (w_db w) SelPostsAll) false)
         as [qs ->]];
      rewrite run_ret, w_db_logged; (eexists; split; [done|apply views_rows]).
  - intros id. unfold get_posts_id, eval.
    rewrite run_bind, execute_read by done. rewrite run_bind.
    edestruct (make_posts_eval (sql_result (w_db w) (SelPostById id)) true)
      as [qs ->].
    rewrite !w_db_logged.
    pose proof (views_rows (w_db w) (sql_result (w_db w) (SelPostById id)) true)
      as Hrows.
    pose proof (length_filter (kept (w_db w))
      (sql_result (w_db w) (SelPostById id))) as Hlen.
    pose proof (unique_id_at_most_one (posts (w_db w)) id Hnd) as Hone.
    cbn [sql_result result] in *. rewrite length_fmap in Hlen.
    destruct (filter (kept (w_db w)) _) as [|r rest] eqn:Hk.
    + rewrite take_nil in Hrows. apply fmap_nil_inv in Hrows. by rewrite Hrows.
    + destruct rest; [|cbn in Hlen; lia]. split; [done|].
      cbn in Hrows.
      destruct (views (w_db w) _ true) as [|v vs]; [done|].
      rewrite run_bind, get_session_user_run, run_ret.
      exists v. split; [reflexivity|by inversion Hrows].
Qed.

Lemma cap_in_every_view_witness :
  NoDup (p_id <$> posts (w_db busy_world))
  ∧ let db := w_db busy_world in
    (∃ vs, eval get_index busy_world
           = Ok (RenderIndex vs (session_user_row busy_world))
       ∧ pv_row <$> vs
         = take POSTS_PER_PAGE
                (filter (kept db)
                   (sql_result db (SelPostsFeed (POSTS_PER_PAGE * 2))
                    : list PostRow)))
    ∧ (∀ account_name,
         match active_account db account_name with
         | None =>
             eval (get_user_list account_name) busy_world
             = Raise (HTTPException 404)
         | Some user =>
             ∃ vs pc cc cdc,
               eval (get_user_list account_name) busy_world
                 = Ok (RenderUser vs user pc cc cdc
                                (session_user_row busy_world))
               ∧ pv_row <$> vs
                 = take POSTS_PER_PAGE
                        (filter (kept db)
                           (sql_result db (SelPostsByUser (u_id user))
                            : list PostRow))
         end)
    ∧ (∀ max_created_at,
         ∃ vs, eval (get_posts max_created_at) busy_world
                 = Ok (RenderPosts vs)
           ∧ pv_row <$> vs
             = take POSTS_PER_PAGE
                    (filter (kept db)
                       match max_created_at return list PostRow with
                       | Some t => sql_result db (SelPostsUpTo t)
                       | None => sql_result db SelPostsAll
                       end))
    ∧ (∀ id,
         match filter (kept db)
                      (sql_result db (SelPostById id) : list PostRow) with
         | [] => eval (get_posts_id id) busy_world
                 = Raise (HTTPException 404)
         | r :: rest =>
             rest = []
             ∧ ∃ v, eval (get_posts_id id) busy_world
                      = Ok (RenderPost v (session_user_row busy_world))
                 ∧ pv_row v = r
         end).
Proof.
  assert (Hnd : NoDup (p_id <$> posts (w_db busy_world))).
  { apply (bool_decide_unpack _). by vm_compute. }
  split; [exact Hnd|]. exact (cap_in_every_view busy_world Hnd).
Defined.

(** ** C8: order of the post queries *)

(** C8 as stated fails: the post queries order by [created_at] only.
    On [demo_db], where posts 2 and 3 have the same [created_at], the
    rows 4, 2, 3, 1 answer the feed query, and they are what the store
    of this development returns; post 2 comes before post 3, which has
    the larger id. *)
Lemma feed_ties_not_by_descending_id :
  r_id <$> (sql_result demo_db (SelPostsFeed (POSTS_PER_PAGE * 2))
            : list PostRow) = [4; 2; 3; 1]
  ∧ answers_feed_query demo_db (POSTS_PER_PAGE * 2)
      (sql_result demo_db (SelPostsFeed (POSTS_PER_PAGE * 2)))
  ∧ ¬ StronglySorted newest_then_largest_id
        (sql_result demo_db (SelPostsFeed (POSTS_PER_PAGE * 2))).
Proof.
  split; [by vm_compute|]. split.
  - exists (order_by post_created_desc (posts demo_db)).
    split; [apply order_by_perm|]. split; [|done].
    pose proof (order_by_sorted post_created_desc post_created_desc_total
      post_created_desc_trans (posts demo_db)) as Hs.
    induction Hs as [|x l Hs IH Hall]; constructor; [done|].
    eapply Forall_impl; [exact Hall|]. intros y. unfold post_created_desc. lia.
  - intros Hs. apply (bool_decide_pack _) in Hs. by vm_compute in Hs.
Qed.

(** C8, amended.  The feed page, by-author, time-cursor and unfiltered
    queries return post rows in [created_at] descending order (nothing
    is said about rows with equal [created_at]); the by-id query has no
    [ORDER BY] and returns at most one row when post ids are unique. *)
Theorem post_queries_newest_first db :
  NoDup (p_id <$> posts db) →
  (∀ limit, StronglySorted newest_first_rows (sql_result db (SelPostsFeed limit)))
  ∧ (∀ uid, StronglySorted newest_first_rows (sql_result db (SelPostsByUser uid)))
  ∧ (∀ t, StronglySorted newest_first_rows (sql_result db (SelPostsUpTo t)))
  ∧ StronglySorted newest_first_rows (sql_result db SelPostsAll)
  ∧ (∀ id, (length (sql_result db (SelPostById id)) ≤ 1)%nat).
Proof.
  intros Hnd. cbn [sql_result]. repeat split; intros.
  - rewrite fmap_take. apply StronglySorted_take.
    by apply order_by_created_desc_rows.
  - by apply order_by_created_desc_rows.
  - by apply order_by_created_desc_rows.
  - by apply order_by_created_desc_rows.
  - rewrite length_fmap. by apply unique_id_at_most_one.
Qed.

Lemma post_queries_newest_first_witness :
  NoDup (p_id <$> posts demo_db)
  ∧ (∀ limit, StronglySorted newest_first_rows
                (sql_result demo_db (SelPostsFeed limit)))
  ∧ (∀ uid, StronglySorted newest_first_rows
              (sql_result demo_db (SelPostsByUser uid)))
  ∧ (∀ t, StronglySorted newest_first_rows (sql_result demo_db (SelPostsUpTo t)))
  ∧ StronglySorted newest_first_rows (sql_result demo_db SelPostsAll)
  ∧ (∀ id, (length (sql_result demo_db (SelPostById id)) ≤ 1)%nat).
Proof.
  assert (Hnd : NoDup (p_id <$> posts demo_db)).
  { apply (bool_decide_unpack _). by vm_compute. }
  split; [exact Hnd|]. exact (post_queries_newest_first demo_db Hnd).
Defined.

(** ** C6: when login succeeds *)

(** C6 as stated fails: the account lookup of [try_login] has the
    condition [del_flg = 0].  [bob] is deleted; the store holds his
    hash, it equals [passhash("bob", "hunter22")], and login fails. *)
Lemma login_refuses_deleted_account :
  stored_hash demo_db "bob" = Some "hhunter22:hbob"
  ∧ eval (calculate_passhash "bob" "hunter22") demo_world = Ok "hhunter22:hbob"
  ∧ eval (try_login "bob" "hunter22") demo_world = Ok None.
Proof. by vm_compute. Qed.

(** C6, amended.  Login succeeds with user [u] if and only if [u] is the
    row the store returns for the account name among the rows with
    [del_flg = 0] and its stored hash equals
    [passhash(account_name, password)].  When there is no such row, and
    when the hashes differ, [try_login] returns [None] and [post_login]
    (for a visitor without a session user) answers with the same
    redirect, the same flashed message and the same statements: the
    two causes cannot be told apart. *)
Theorem login_succeeds_iff w account_name password :
  session_user_row w = None →
  (∀ u, eval (try_login account_name password) w = Ok (Some u)
        ↔ active_account (w_db w) account_name = Some u
          ∧ eval (calculate_passhash account_name password) w
            = Ok (u_passhash u))
  ∧ ((active_account (w_db w) account_name = None
      ∨ ∃ u h, active_account (w_db w) account_name = Some u
               ∧ eval (calculate_passhash account_name password) w = Ok h
               ∧ h ≠ u_passhash u)
     → eval (try_login account_name password) w = Ok None
       ∧ post_login account_name password w
         = (Ok (Redirect "/login"), login_failed account_name w)).
Proof.
  intros Hsession. unfold eval.
  rewrite try_login_run, calculate_passhash_run. cbn [fst].
  unfold login_value. split.
  - intros u. destruct (active_account (w_db w) account_name) as [user|] eqn:Hu.
    + apply active_account_name in Hu as (-> & _ & _).
      destruct (passhash_value _ _ _) as [h|e].
      * destruct (decide (h = u_passhash user)) as [->|Hne];
          split; intros H; try (by inversion H).
        -- by destruct H as [[= ->] _].
        -- destruct H as [[= ->] [= ->]]. done.
      * split; intros H; [done|]. by destruct H as [_ ?].
    + split; intros H; [done|]. by destruct H as [? _].
  - intros Hcause.
    assert (Hlogin : login_value (w_shell w) (w_db w) account_name password
                     = Ok None).
    { unfold login_value. destruct Hcause as [->|(u & h & Hu & Hh & Hne)]; [done|].
      rewrite Hu. apply active_account_name in Hu as (-> & _ & _).
      rewrite Hh. by rewrite decide_False. }
    split; [exact Hlogin|].
    unfold post_login. rewrite run_bind, get_session_user_run, Hsession.
    rewrite run_bind, try_login_run. cbn [w_shell w_db logged].
    rewrite Hlogin, logged_logged. unfold login_failed, logged.
    rewrite run_bind. reflexivity.
Qed.

Lemma login_succeeds_iff_witness :
  session_user_row demo_world = None
  ∧ (∀ u, eval (try_login "alice" "letmein") demo_world = Ok (Some u)
          ↔ active_account (w_db demo_world) "alice" = Some u
            ∧ eval (calculate_passhash "alice" "letmein") demo_world
              = Ok (u_passhash u))
  ∧ eval (try_login "alice" "letmein") demo_world = Ok None
  ∧ post_login "alice" "letmein" demo_world
    = (Ok (Redirect "/login"), login_failed "alice" demo_world).
Proof.
  split; [reflexivity|].
  destruct (login_succeeds_iff demo_world "alice" "letmein" eq_refl)
    as [Hiff Hfail].
  split; [exact Hiff|]. apply Hfail. right.
  exists alice, "hletmein:halice". by vm_compute.
Defined.

(** ** C7: failure of the digest program *)

(** C7.  [check_output] raises on the status of the shell, and the
    status of a pipeline is that of its last command, [sed]: a failure
    of [openssl] does not reach it.  When [openssl] exits with status 1
    and prints nothing, [digest] returns the empty string, and so does
    [calculate_passhash]; a registration then stores the empty string
    as the hash of the password, and a login with any other password
    succeeds.  When [openssl] prints a message that is not a digest,
    the message is returned as the hash. *)
Lemma digest_masks_openssl_failure :
  let w := with_shell broken_shell demo_world in
  let w' := exec (post_register "dave" "secret1") w in
  exit_status (sh_openssl broken_shell "secret1") = 1
  ∧ eval (digest "secret1") w = Ok ""
  ∧ eval (calculate_passhash "alice" "secret1") w = Ok ""
  ∧ stored_hash (w_db w') "dave" = Some ""
  ∧ eval (try_login "dave" "not-the-password") w'
    = Ok (Some (mkUser 4 "dave" "" 0 0 1000))
  ∧ eval (digest "secret1") (with_shell garbled_shell demo_world)
    = Ok "dgst: Unrecognized flag sha512".
Proof. by vm_compute. Qed.

(** ** C9: validation before the registration statements *)

Lemma span_prefix cls l : ∀ n,
  (n ≤ span cls l)%nat
  ↔ (n ≤ length l)%nat ∧ Forall (λ a, cls a = true) (take n l).
Proof.
  induction l as [|a l IH]; intros [|n]; cbn [span take length].
  - split; [by split|lia].
  - split; [lia|intros [? _]; lia].
  - split; [split; [lia|done]|lia].
  - destruct (cls a) eqn:Ha.
    + rewrite <- Nat.succ_le_mono, IH, Forall_cons. split.
      * intros [? ?]. split; [lia|done].
      * intros [? [_ ?]]. split; [lia|done].
    + split; [lia|]. intros [_ [Hbad _]%Forall_cons]. congruence.
Qed.

Lemma re_match_prefix_rule cls n s :
  re_match_at_least cls n s = true ↔ prefix_rule cls n s.
Proof.
  unfold re_match_at_least, prefix_rule.
  by rewrite Nat.leb_le, span_prefix.
Qed.

Lemma validate_user_prefix_rule account_name password :
  validate_user account_name password = true
  ↔ prefix_rule is_alnum 3 account_name ∧ prefix_rule is_word 6 password.
Proof.
  unfold validate_user. rewrite <- !re_match_prefix_rule.
  destruct (re_match_at_least is_alnum 3 account_name),
    (re_match_at_least is_word 6 password); cbn; intuition congruence.
Qed.

(** A string that satisfies the rule of the specification satisfies the
    rule of [validate_user]; a string that is too short satisfies
    neither. *)
Lemma rule_prefix_rule cls n s : rule cls n s → prefix_rule cls n s.
Proof.
  intros [Hlen Hall]. split; [done|].
  apply Forall_forall. intros a Ha%(subseteq_take n).
  rewrite Forall_forall in Hall. by apply Hall.
Qed.

Lemma short_fails_prefix_rule cls n s :
  (length (list_ascii_of_string s) < n)%nat → ¬ prefix_rule cls n s.
Proof. intros Hlen [? _]. lia. Qed.

(** C9 as stated fails in two ways.  The patterns of [validate_user] are
    matched at the start of the string only: the name ["abc!"] is not
    alphanumeric, passes validation and is inserted.  And the handler
    resolves the session before it validates: with a session that names
    user 99, who is not in the store, the name ["ab"] is rejected after
    a statement has been sent. *)
Lemma register_accepts_bad_suffix_and_reads_session :
  (¬ rule is_alnum 3 "abc!"
   ∧ eval (post_register "abc!" "secret1") demo_world = Ok (Redirect "/")
   ∧ w_log (exec (post_register "abc!" "secret1") demo_world)
     = [SelUserExists "abc!"; InsUser "abc!" "hsecret1:habc!"])
  ∧ (¬ rule is_alnum 3 "ab"
     ∧ eval (post_register "ab" "secret1") (logged_in 99 demo_world)
       = Ok (Redirect "/register")
     ∧ w_log (exec (post_register "ab" "secret1") (logged_in 99 demo_world))
       = [SelUserById 99]).
Proof.
  split; (split; [|by vm_compute]);
    intros Hr; apply (bool_decide_pack _) in Hr; by vm_compute in Hr.
Qed.

(** C9, amended.  A registration whose account name does not start with
    three alphanumeric characters, or whose password does not start
    with six characters of [0-9a-zA-Z_], sends none of the registration
    statements (the name lookup and the insert) and changes nothing in
    the store: the only statement that can precede the rejection is the
    session lookup, sent when the session names a user.  A visitor
    without a session user is redirected to the form with the
    validation message. *)
Theorem register_rejects_before_registration_statements
    w account_name password :
  ¬ (prefix_rule is_alnum 3 account_name ∧ prefix_rule is_word 6 password) →
  w_log (exec (post_register account_name password) w)
    = w_log w ++ session_queries w
  ∧ w_db (exec (post_register account_name password) w) = w_db w
  ∧ match session_user_row w with
    | Some _ => post_register account_name password w
                = (Ok (Redirect "/"), logged (session_queries w) w)
    | None => post_register account_name password w
              = (Ok (Redirect "/register"), register_rejected w)
    end.
Proof.
  intros Hinvalid. rewrite <- validate_user_prefix_rule in Hinvalid.
  apply not_true_is_false in Hinvalid.
  unfold exec, post_register. rewrite run_bind, get_session_user_run.
  destruct (session_user_row w) as [me|].
  - by rewrite run_ret.
  - rewrite Hinvalid. cbn [negb]. rewrite run_bind. by repeat split.
Qed.

Lemma register_rejects_before_registration_statements_witness :
  ¬ (prefix_rule is_alnum 3 "ab" ∧ prefix_rule is_word 6 "secret1")
  ∧ w_log (exec (post_register "ab" "secret1") demo_world)
    = w_log demo_world ++ session_queries demo_world
  ∧ w_db (exec (post_register "ab" "secret1") demo_world) = w_db demo_world
  ∧ match session_user_row demo_world with
    | Some _ => post_register "ab" "secret1" demo_world
                = (Ok (Redirect "/"),
                   logged (session_queries demo_world) demo_world)
    | None => post_register "ab" "secret1" demo_world
              = (Ok (Redirect "/register"), register_rejected demo_world)
    end.
Proof.
  assert (Hinvalid : ¬ (prefix_rule is_alnum 3 "ab"
                        ∧ prefix_rule is_word 6 "secret1")).
  { intros [[Hlen _] _]. vm_compute in Hlen. lia. }
  split; [exact Hinvalid|].
  exact (register_rejects_before_registration_statements
           demo_world "ab" "secret1" Hinvalid).
Defined.

(** ** C10: a deleted user keeps the session *)

Lemma ban_all_one_run uid w :
  ban_all [uid] w
  = (Ok (),
     mkWorld (sql_effect (w_now w) (w_db w) (UpdDelFlg 1 uid)) (w_session w)
             (w_shell w) (w_now w) (w_urandom w)
             (w_log w ++ [UpdDelFlg 1 uid])).
Proof. reflexivity. Qed.

Lemma filter_fmap_update uid (f : User → User) (us : list User) :
  (∀ u, u_id (f u) = u_id u) →
  filter (λ u, u_id u = uid)
         ((λ u, if decide (u_id u = uid) then f u else u) <$> us)
  = f <$> filter (λ u, u_id u = uid) us.
Proof.
  intros Hf. induction us as [|u us IH]; [done|].
  rewrite fmap_cons, !filter_cons, IH.
  destruct (decide (u_id u = uid)) as [Hu|Hu].
  - rewrite decide_True by (by rewrite Hf). done.
  - rewrite decide_False by done. done.
Qed.

(** C10.  When the user id of the session resolves to a row, session
    resolution returns that row whatever its [del_flg], so also when it
    is set; after the ban statement for that user has run
    ([UPDATE users SET del_flg = 1]), the same session still resolves,
    to the row with [del_flg = 1].  Login does look at the flag: a user
    [try_login] returns has [del_flg = 0]. *)
Theorem deleted_user_keeps_session w uid u :
  s_user (w_session w) = Some uid →
  fetchone (sql_result (w_db w) (SelUserById uid) : list User) = Some u →
  eval get_session_user w = Ok (Some u)
  ∧ eval get_session_user (exec (ban_all [uid]) w) = Ok (Some (set_del_flg 1 u))
  ∧ u_del_flg (set_del_flg 1 u) = 1
  ∧ ∀ account_name password u',
      eval (try_login account_name password) w = Ok (Some u') →
      u_del_flg u' = 0.
Proof.
  intros Hsession Hrow. unfold eval, exec.
  rewrite !get_session_user_run, ban_all_one_run. cbn [fst snd].
  unfold session_user_row. cbn [w_session w_db]. rewrite Hsession.
  split; [by rewrite Hrow|]. split; [|split; [done|]].
  - cbn [sql_result sql_effect users] in *.
    rewrite filter_fmap_update by done.
    unfold fetchone in *. destruct (filter _ (users (w_db w))); [done|].
    cbn in *. congruence.
  - intros account_name password u'. rewrite try_login_run. cbn [fst].
    unfold login_value.
    destruct (active_account _ _) as [user|] eqn:Hu; [|done].
    apply active_account_name in Hu as (_ & Hdel & _).
    destruct (passhash_value _ _ _); [|done].
    destruct (decide _); [|done]. by intros [= <-].
Qed.

Lemma deleted_user_keeps_session_witness :
  s_user (w_session (logged_in 2 demo_world)) = Some 2
  ∧ fetchone (sql_result (w_db (logged_in 2 demo_world)) (SelUserById 2)
              : list User) = Some bob
  ∧ truthy (u_del_flg bob) = true
  ∧ eval get_session_user (logged_in 2 demo_world) = Ok (Some bob)
  ∧ eval get_session_user (exec (ban_all [2]) (logged_in 2 demo_world))
    = Ok (Some (set_del_flg 1 bob))
  ∧ u_del_flg (set_del_flg 1 bob) = 1
  ∧ ∀ account_name password u',
      eval (try_login account_name password) (logged_in 2 demo_world)
        = Ok (Some u') →
      u_del_flg u' = 0.
Proof.
  do 3 (split; [reflexivity|]).
  exact (deleted_user_keeps_session (logged_in 2 demo_world) 2 bob
           eq_refl eq_refl).
Defined.

(** * Further properties of the code *)

(** ** The comment count of a view *)

Lemma counts_by_post_lookup (g : Z → Z) (keys : list Z) p :
  counts_by_post ((λ k, (k, g k)) <$> keys) !! p
  = if decide (p ∈ keys) then Some (g p) else None.
Proof.
  unfold counts_by_post. induction keys as [|k keys IH] using rev_ind.
  - cbn. rewrite lookup_empty. by rewrite decide_False by apply not_elem_of_nil.
  - rewrite fmap_app, foldl_app. cbn [fmap list_fmap foldl fst snd].
    destruct (decide (k = p)) as [->|Hne].
    + rewrite lookup_insert_eq, decide_True; [done|].
      apply elem_of_app. right. by left.
    + rewrite lookup_insert_ne, IH by done.
      destruct (decide (p ∈ keys)) as [Hin|Hin].
      * rewrite decide_True; [done|]. apply elem_of_app. by left.
      * rewrite decide_False; [done|].
        intros [?|Hp%list_elem_of_singleton]%elem_of_app; congruence.
Qed.

Lemma comment_count_lookup cs ids p :
  p ∈ ids →
  default 0 (counts_by_post (sel_comment_counts cs ids) !! p)
  = Z.of_nat (length (filter (λ c, c_post_id c = p) cs)).
Proof.
  intros Hp. unfold sel_comment_counts. rewrite counts_by_post_lookup.
  assert (Hsel : filter (λ c, c_post_id c = p)
                        (filter (λ c, c_post_id c ∈ ids) cs)
                 = filter (λ c, c_post_id c = p) cs).
  { apply list_filter_filter_l. by intros c ->. }
  destruct (decide _) as [Hin|Hnot]; cbn [default from_option].
  - unfold count_where. by rewrite Hsel.
  - rewrite elem_of_remove_dups in Hnot. rewrite <- Hsel.
    rewrite filter_none; [done|]. intros c Hc Hcp. apply Hnot.
    rewrite <- Hcp. by apply list_elem_of_fmap_2.
Qed.

Lemma views_counts db results all_comments :
  Forall (λ v,
      pv_comment_count v
      = default 0 (counts_by_post
                     (sql_result db (SelCommentCounts (r_id <$> results)))
                   !! r_id (pv_row v)))
    (views db results all_comments).
Proof.
  unfold views, assembled.
  edestruct (assemble_rows (post_authors db results)) as (new & -> & _ & Hall);
    [cbn; unfold POSTS_PER_PAGE; lia|].
  rewrite app_nil_l. apply Forall_fmap.
  eapply Forall_impl; [exact Hall|]. by intros po [_ Hc].
Qed.

(** X1.  In both modes the comment count of every post of the output is
    the number of comments the store holds for the post, whatever the
    number of comments attached to it. *)
Theorem make_posts_comment_count_is_total w results all_comments :
  ∃ vs,
    eval (make_posts results all_comments) w = Ok vs
    ∧ Forall (λ v,
        pv_comment_count v
        = Z.of_nat (length (filter (λ c, c_post_id c = r_id (pv_row v))
                                   (comments (w_db w))))) vs.
Proof.
  destruct (decide (results = [])) as [->|Hne].
  { exists []. by split. }
  exists (views (w_db w) results all_comments).
  unfold eval. rewrite make_posts_run by done. split; [done|].
  pose proof (views_counts (w_db w) results all_comments) as Hc.
  pose proof (views_users (w_db w) results all_comments) as Hu.
  rewrite Forall_forall in Hc, Hu. apply Forall_forall. intros v Hv.
  rewrite (Hc v Hv). destruct (Hu v Hv) as (Hin & _).
  cbn [sql_result]. apply comment_count_lookup. by apply list_elem_of_fmap_2.
Qed.

(** ** The authors of the attached comments *)

Section AuthoredFacts.
Context (ud : gmap Z User) (cc : gmap Z Z) (cud : gmap Z User).

Lemma replay_authored l : authored cud (replay cud l).
Proof.
unfold authored, replay. apply Forall_reverse, Forall_fmap, Forall_forall.
by intros c _.
Qed.

Lemma hydrate_authored post user cbp p l :
(∀ l', cbp !! p = Some l' → authored cud l') →
(hydrate cc cud post user cbp).2 !! p = Some l → authored cud l.
Proof.
pose proof (hydrate_spec cc cud post user cbp) as (_ & _ & _ & _ & Hne & Heq).
intros Hold. destruct (decide (p = r_id post)) as [->|Hp].
- rewrite Heq. destruct (cbp !! r_id post); [|done].
  intros [= <-]. apply replay_authored.
- rewrite Hne by done. apply Hold.
Qed.

Lemma assemble_keeps_authored rs : ∀ posts cbp p,
(∀ l, cbp !! p = Some l → authored cud l) →
∀ l, (assemble ud cc cud rs posts cbp).2 !! p = Some l → authored cud l.
Proof.
induction rs as [|r rs IH]; intros posts cbp p Hold; [done|].
rewrite assemble_cons.
destruct (author_dropped (ud !! r_user_id r)); [by apply IH|].
cbv zeta. destruct (_ <=? _)%nat.
- intros l. by apply hydrate_authored.
- apply IH. intros l. by apply hydrate_authored.
Qed.

Lemma deref_authored cbp po :
(∀ l, cbp !! r_id (po_row po) = Some l → authored cud l) →
po_comments po = Shared (r_id (po_row po)) ∨ po_comments po = Fresh [] →
authored cud (pv_comments (deref cbp po)).
Proof.
intros Hkey [Href|Href]; unfold deref; cbn [pv_comments]; rewrite Href.
- destruct (cbp !! r_id (po_row po)) as [l|]; [by apply Hkey|constructor].
- constructor.
Qed.

Lemma assemble_authored rs : ∀ posts cbp,
∃ new,
  (assemble ud cc cud rs posts cbp).1 = posts ++ new
  ∧ Forall (λ po,
      authored cud
        (pv_comments (deref (assemble ud cc cud rs posts cbp).2 po))) new.
Proof.
induction rs as [|r rs IH]; intros posts cbp.
- exists []. by rewrite app_nil_r.
- rewrite assemble_cons.
  destruct (author_dropped (ud !! r_user_id r)); [apply IH|].
  cbv zeta.
  pose proof (hydrate_spec cc cud r (ud !! r_user_id r) cbp)
    as (Hr & _ & _ & Href & _ & Heq).
  set (step := hydrate cc cud r (ud !! r_user_id r) cbp) in *.
  assert (Href' : po_comments step.1 = Shared (r_id (po_row step.1))
                  ∨ po_comments step.1 = Fresh []).
  { rewrite Href, Hr. destruct (cbp !! r_id r); [by left|by right]. }
  assert (Hkey : ∀ l, step.2 !! r_id (po_row step.1) = Some l
                      → authored cud l).
  { intros l. rewrite Hr, Heq. destruct (cbp !! r_id r); [|done].
    intros [= <-]. apply replay_authored. }
  destruct (_ <=? _)%nat.
  + exists [step.1]. split; [done|]. constructor; [|done].
    by apply deref_authored.
  + destruct (IH (posts ++ [step.1]) step.2) as (new & Hout & Hall).
    exists (step.1 :: new). rewrite Hout, <- app_assoc. split; [done|].
    constructor; [|done]. apply deref_authored; [|done].
    by apply assemble_keeps_authored.
Qed.
End AuthoredFacts.

Lemma comment_authors_lookup db fetched c :
  c ∈ fetched →
  comment_authors db fetched !! c_user_id c = author db (c_user_id c).
Proof.
  intros Hc. unfold comment_authors, author.
  destruct (decide _) as [Hempty|Hne].
  { apply group_comments_ids_empty in Hempty. subst.
    by apply elem_of_nil in Hc. }
  rewrite users_by_id_lookup. cbn [sql_result]. f_equal.
  apply list_filter_filter_l. intros u ->.
  rewrite elem_of_elements, group_comments_ids, elem_of_list_to_set.
  by apply list_elem_of_fmap_2.
Qed.

Lemma views_authored db results all_comments :
  Forall (λ v,
      authored
        (comment_authors db
           (fetch_comments db (r_id <$> results) all_comments))
        (pv_comments v))
    (views db results all_comments).
Proof.
  unfold views, assembled.
  edestruct (assemble_authored (post_authors db results)) as (new & Hout & Hall).
  rewrite Hout, app_nil_l. apply Forall_fmap. exact Hall.
Qed.

(** X2.  Every comment attached to a post of the output carries the
    user row of its [user_id] (the last row of [users] with that id),
    or nothing when there is no such row.  The row is attached whatever
    its [del_flg]: comments of deleted users stay, with their author. *)
Theorem make_posts_comment_authors w results all_comments :
  ∃ vs,
    eval (make_posts results all_comments) w = Ok vs
    ∧ Forall (λ v,
        Forall (λ c, c_post_id (hc_row c) = r_id (pv_row v)
                     ∧ hc_row c ∈ comments (w_db w)
                     ∧ hc_user c = author (w_db w) (c_user_id (hc_row c)))
               (pv_comments v)) vs.
Proof.
  destruct (decide (results = [])) as [->|Hne].
  { exists []. by split. }
  exists (views (w_db w) results all_comments).
  unfold eval. rewrite make_posts_run by done. split; [done|].
  pose proof (views_authored (w_db w) results all_comments) as Ha.
  pose proof (views_comments_perm (w_db w) results all_comments) as Hp.
  rewrite Forall_forall in Ha, Hp. apply Forall_forall. intros v Hv.
  specialize (Ha v Hv). specialize (Hp v Hv). unfold authored in Ha.
  rewrite Forall_forall in Ha. apply Forall_forall. intros c Hc.
  assert (Hrow : hc_row c ∈ group_of
            (fetch_comments (w_db w) (r_id <$> results) all_comments)
            (r_id (pv_row v))).
  { rewrite <- Hp. by apply list_elem_of_fmap_2. }
  apply list_elem_of_filter in Hrow as [Hpost Hfetched].
  split; [done|]. split.
  - revert Hfetched. unfold fetch_comments, sel_comments_all, sel_comments_top3.
    destruct all_comments; rewrite elem_of_order_by.
    + by intros [_ ?]%list_elem_of_filter.
    + unfold join_top3. intros (c' & Hin & Hc')%list_elem_of_bind.
      apply list_elem_of_bind in Hin as (r & Hin & _).
      destruct (decide _); [|by apply elem_of_nil in Hin].
      by apply list_elem_of_singleton in Hin as ->.
  - rewrite (Ha c Hc). by apply comment_authors_lookup.
Qed.

(** X3.  In all-comments mode every comment the store holds for a post of
    the output is attached to it, once. *)
Theorem make_posts_all_comments_attached w results :
  ∃ vs,
    eval (make_posts results true) w = Ok vs
    ∧ Forall (λ v,
        hc_row <$> pv_comments v
        ≡ₚ filter (λ c, c_post_id c = r_id (pv_row v)) (comments (w_db w))) vs.
Proof.
  destruct (decide (results = [])) as [->|Hne].
  { exists []. by split. }
  exists (views (w_db w) results true).
  unfold eval. rewrite make_posts_run by done. split; [done|].
  pose proof (views_comments_perm (w_db w) results true) as Hp.
  pose proof (views_users (w_db w) results true) as Hu.
  rewrite Forall_forall in Hp, Hu. apply Forall_forall. intros v Hv.
  rewrite (Hp v Hv). destruct (Hu v Hv) as (Hin & _).
  apply all_group. by apply list_elem_of_fmap_2.
Qed.

(** ** Registration and login *)

Lemma next_user_id_fresh us u : u ∈ us → u_id u < next_user_id us.
Proof.
  unfold next_user_id. induction us as [|x us IH]; intros Hu.
  - by apply elem_of_nil in Hu.
  - cbn [fmap list_fmap foldr].
    apply elem_of_cons in Hu as [->|Hu]; [lia|]. specialize (IH Hu). lia.
Qed.

Lemma filter_snoc_fresh {A} (P : A → Prop) `{∀ x, Decision (P x)} l x :
  (∀ y, y ∈ l → ¬ P y) → P x → filter P (l ++ [x]) = [x].
Proof.
  intros Hl Hx. rewrite filter_app, filter_none by done.
  by rewrite filter_cons_True by done.
Qed.

Lemma post_register_run w account_name password h :
  session_user_row w = None →
  validate_user account_name password = true →
  (∀ u, u ∈ users (w_db w) → u_account_name u ≠ account_name) →
  eval (calculate_passhash account_name password) w = Ok h →
  post_register account_name password w
  = (Ok (Redirect "/"), registered w account_name h).
Proof.
  intros Hsession Hvalid Hfree Hhash.
  unfold eval in Hhash. rewrite calculate_passhash_run in Hhash.
  cbn [fst] in Hhash.
  unfold post_register. rewrite run_bind, get_session_user_run, Hsession.
  rewrite Hvalid. cbn [negb].
  rewrite run_bind, execute_read by done. cbn [sql_result w_db logged].
  rewrite filter_none by (intros u Hu; by apply Hfree).
  cbn [fmap list_fmap fetchone head].
  rewrite run_bind, calculate_passhash_run. cbn [w_shell logged].
  rewrite Hhash. unfold registered, new_user.
  destruct w as [db se sh now ur log].
  cbv [mbind M_bind mret M_ret execute session_set_user urandom_hex
       session_set_csrf_token with_session logged].
  cbn. by rewrite <- !app_assoc.
Qed.

(** X4.  A registration by a visitor without a session user, with a
    name and password that pass validation, a name no row of [users]
    has, and a digest that does not fail, adds exactly one row to
    [users]: a fresh id, the name, [passhash(name, password)],
    [authority = 0] and [del_flg = 0].  Nothing else in the store
    changes, and the session then resolves to that row. *)
Theorem register_adds_user_and_session w account_name password h :
  session_user_row w = None →
  validate_user account_name password = true →
  (∀ u, u ∈ users (w_db w) → u_account_name u ≠ account_name) →
  eval (calculate_passhash account_name password) w = Ok h →
  let w' := exec (post_register account_name password) w in
  let u := mkUser (next_user_id (users (w_db w))) account_name h 0 0 (w_now w) in
  eval (post_register account_name password) w = Ok (Redirect "/")
  ∧ users (w_db w') = users (w_db w) ++ [u]
  ∧ posts (w_db w') = posts (w_db w)
  ∧ comments (w_db w') = comments (w_db w)
  ∧ (∀ old, old ∈ users (w_db w) → u_id old ≠ u_id u)
  ∧ eval get_session_user w' = Ok (Some u).
Proof.
  intros Hsession Hvalid Hfree Hhash. cbv zeta. unfold eval, exec.
  rewrite (post_register_run w account_name password h) by done.
  cbn [fst snd]. do 4 (split; [done|]). split.
  - intros old Hold. cbn [u_id]. apply next_user_id_fresh in Hold. lia.
  - rewrite get_session_user_run. cbn [fst]. unfold session_user_row, registered.
    cbn [w_session s_user w_db sql_result users new_user].
    rewrite filter_snoc_fresh; [done| |done].
    intros old Hold. apply next_user_id_fresh in Hold. lia.
Qed.

Lemma register_adds_user_and_session_witness :
  session_user_row demo_world = None
  ∧ validate_user "dave" "secret1" = true
  ∧ (∀ u, u ∈ users (w_db demo_world) → u_account_name u ≠ "dave")
  ∧ eval (calculate_passhash "dave" "secret1") demo_world = Ok "hsecret1:hdave"
  ∧ let w' := exec (post_register "dave" "secret1") demo_world in
    let u := mkUser (next_user_id (users (w_db demo_world))) "dave"
                    "hsecret1:hdave" 0 0 (w_now demo_world) in
    eval (post_register "dave" "secret1") demo_world = Ok (Redirect "/")
    ∧ users (w_db w') = users (w_db demo_world) ++ [u]
    ∧ posts (w_db w') = posts (w_db demo_world)
    ∧ comments (w_db w') = comments (w_db demo_world)
    ∧ (∀ old, old ∈ users (w_db demo_world) → u_id old ≠ u_id u)
    ∧ eval get_session_user w' = Ok (Some u).
Proof.
  assert (Hfree : ∀ u, u ∈ users (w_db demo_world) → u_account_name u ≠ "dave").
  { intros u Hu. cbn in Hu. set_unfold in Hu.
    destruct Hu as [->|[->|[->|[]]]]; by vm_compute. }
  split; [reflexivity|]. split; [reflexivity|]. split; [exact Hfree|].
  split; [reflexivity|].
  exact (register_adds_user_and_session demo_world "dave" "secret1"
           "hsecret1:hdave" eq_refl eq_refl Hfree eq_refl).
Defined.

(** X5.  After a registration that goes through, a login with the same
    name and password succeeds with the new user, and a login with a
    password whose hash differs fails. *)
Theorem register_then_login_succeeds w account_name password h :
  session_user_row w = None →
  validate_user account_name password = true →
  (∀ u, u ∈ users (w_db w) → u_account_name u ≠ account_name) →
  eval (calculate_passhash account_name password) w = Ok h →
  let w' := exec (post_register account_name password) w in
  eval (try_login account_name password) w'
  = Ok (Some (mkUser (next_user_id (users (w_db w))) account_name h 0 0
                     (w_now w)))
  ∧ ∀ other h',
      eval (calculate_passhash account_name other) w = Ok h' → h' ≠ h →
      eval (try_login account_name other) w' = Ok None.
Proof.
  intros Hsession Hvalid Hfree Hhash. cbv zeta. unfold eval, exec in *.
  rewrite (post_register_run w account_name password h) by done.
  cbn [snd]. rewrite calculate_passhash_run in Hhash. cbn [fst] in Hhash.
  assert (Hactive : active_account (w_db (registered w account_name h))
                      account_name
                    = Some (new_user w account_name h)).
  { unfold active_account, registered. cbn [w_db sql_result users].
    rewrite filter_snoc_fresh; [done| |done].
    intros u Hu [Hname _]. by apply (Hfree u). }
  split.
  - rewrite try_login_run. cbn [fst]. unfold login_value.
    rewrite Hactive. cbn [new_user u_account_name u_passhash].
    change (w_shell (registered w account_name h)) with (w_shell w).
    rewrite Hhash. by rewrite decide_True.
  - intros other h' Hother Hne. rewrite calculate_passhash_run in Hother.
    cbn [fst] in Hother. rewrite try_login_run. cbn [fst].
    unfold login_value. rewrite Hactive.
    cbn [new_user u_account_name u_passhash].
    change (w_shell (registered w account_name h)) with (w_shell w).
    rewrite Hother. by rewrite decide_False.
Qed.

Lemma register_then_login_succeeds_witness :
  session_user_row demo_world = None
  ∧ validate_user "dave" "secret1" = true
  ∧ (∀ u, u ∈ users (w_db demo_world) → u_account_name u ≠ "dave")
  ∧ eval (calculate_passhash "dave" "secret1") demo_world = Ok "hsecret1:hdave"
  ∧ let w' := exec (post_register "dave" "secret1") demo_world in
    eval (try_login "dave" "secret1") w'
    = Ok (Some (mkUser (next_user_id (users (w_db demo_world))) "dave"
                       "hsecret1:hdave" 0 0 (w_now demo_world)))
    ∧ ∀ other h',
        eval (calculate_passhash "dave" other) demo_world = Ok h' →
        h' ≠ "hsecret1:hdave" →
        eval (try_login "dave" other) w' = Ok None.
Proof.
  assert (Hfree : ∀ u, u ∈ users (w_db demo_world) → u_account_name u ≠ "dave").
  { intros u Hu. cbn in Hu. set_unfold in Hu.
    destruct Hu as [->|[->|[->|[]]]]; by vm_compute. }
  split; [reflexivity|]. split; [reflexivity|]. split; [exact Hfree|].
  split; [reflexivity|].
  exact (register_then_login_succeeds demo_world "dave" "secret1"
           "hsecret1:hdave" eq_refl eq_refl Hfree eq_refl).
Defined.

(** X6.  A registration with a valid name and password whose name some
    row of [users] has, deleted or not, is refused: the visitor is sent
    back to the form with the name-taken message and the store is left
    as it was. *)
Theorem register_refuses_taken_name w account_name password holder :
  session_user_row w = None →
  validate_user account_name password = true →
  holder ∈ users (w_db w) →
  u_account_name holder = account_name →
  post_register account_name password w
  = (Ok (Redirect "/register"), name_taken w account_name).
Proof.
  intros Hsession Hvalid Hin Hname.
  unfold post_register. rewrite run_bind, get_session_user_run, Hsession.
  rewrite Hvalid. cbn [negb].
  rewrite run_bind, execute_read by done. cbn [sql_result w_db logged].
  destruct (filter _ (users (w_db w))) as [|u us] eqn:Hf.
  { by destruct (filter_nil_not_elem_of _ _ holder Hf Hname). }
  cbn [fmap list_fmap fetchone head].
  destruct w as [db se sh now ur log].
  cbv [mbind M_bind mret M_ret flash with_session logged name_taken].
  cbn. by rewrite <- !app_assoc.
Qed.

Lemma register_refuses_taken_name_witness :
  session_user_row demo_world = None
  ∧ validate_user "bob" "secret1" = true
  ∧ bob ∈ users (w_db demo_world)
  ∧ u_account_name bob = "bob"
  ∧ truthy (u_del_flg bob) = true
  ∧ post_register "bob" "secret1" demo_world
    = (Ok (Redirect "/register"), name_taken demo_world "bob").
Proof.
  assert (Hin : bob ∈ users (w_db demo_world)).
  { cbn. set_solver. }
  do 2 (split; [reflexivity|]). split; [exact Hin|].
  do 2 (split; [reflexivity|]).
  exact (register_refuses_taken_name demo_world "bob" "secret1" bob
           eq_refl eq_refl Hin eq_refl).
Defined.

(** X7.  When [try_login] accepts the credentials of a visitor without a
    session user, [post_login] stores the id of the user and a fresh
    anti-forgery token in the session, redirects to the feed and leaves
    the store as it was; with user ids unique, the session then
    resolves to the user who logged in. *)
Theorem login_sets_session w account_name password u :
  session_user_row w = None →
  NoDup (u_id <$> users (w_db w)) →
  eval (try_login account_name password) w = Ok (Some u) →
  post_login account_name password w
  = (Ok (Redirect "/"), logged_in_as w account_name u)
  ∧ eval get_session_user (logged_in_as w account_name u) = Ok (Some u).
Proof.
  intros Hsession Hnd Hlogin. unfold eval in Hlogin.
  rewrite try_login_run in Hlogin. cbn [fst] in Hlogin. split.
  - unfold post_login. rewrite run_bind, get_session_user_run, Hsession.
    rewrite run_bind, try_login_run. cbn [w_shell w_db logged]. rewrite Hlogin.
    destruct w as [db se sh now ur log].
    cbv [mbind M_bind mret M_ret session_set_user urandom_hex
         session_set_csrf_token with_session logged logged_in_as].
    cbn. by rewrite <- !app_assoc.
  - unfold login_value in Hlogin.
    destruct (active_account (w_db w) account_name) as [user|] eqn:Hu;
      [|done].
    assert (user = u) as ->.
    { destruct (passhash_value _ _ _); [|done].
      destruct (decide _); by inversion Hlogin. }
    apply active_account_name in Hu as (_ & _ & Hin).
    unfold eval. rewrite get_session_user_run. cbn [fst].
    unfold session_user_row, logged_in_as. cbn [w_session s_user w_db sql_result].
    destruct (filter (λ u0, u_id u0 = u_id u) (users (w_db w)))
      as [|first rest] eqn:Hf.
    { by destruct (filter_nil_not_elem_of _ _ u Hf eq_refl). }
    cbn [fetchone head]. do 2 f_equal.
    assert (Hfirst : first ∈ filter (λ u0, u_id u0 = u_id u) (users (w_db w)))
      by (rewrite Hf; by left).
    apply list_elem_of_filter in Hfirst as [Hid Hfirst].
    by eapply NoDup_fmap_inj_on.
Qed.

Lemma login_sets_session_witness :
  session_user_row demo_world = None
  ∧ NoDup (u_id <$> users (w_db demo_world))
  ∧ eval (try_login "alice" "secret1") demo_world = Ok (Some alice)
  ∧ post_login "alice" "secret1" demo_world
    = (Ok (Redirect "/"), logged_in_as demo_world "alice" alice)
  ∧ eval get_session_user (logged_in_as demo_world "alice" alice)
    = Ok (Some alice).
Proof.
  assert (Hnd : NoDup (u_id <$> users (w_db demo_world))).
  { apply (bool_decide_unpack _). by vm_compute. }
  split; [reflexivity|]. split; [exact Hnd|]. split; [reflexivity|].
  exact (login_sets_session demo_world "alice" "secret1" alice
           eq_refl Hnd eq_refl).
Defined.

(** ** Banning *)

Lemma ban_all_run uids : ∀ w,
  eval (ban_all uids) w = Ok ()
  ∧ w_db (exec (ban_all uids) w)
    = mkDB (banned_users uids (users (w_db w))) (posts (w_db w))
           (comments (w_db w))
  ∧ w_session (exec (ban_all uids) w) = w_session w.
Proof.
  unfold eval, exec.
  induction uids as [|id uids IH]; intros w.
  - cbn. unfold banned_users. split; [done|]. split; [|done].
    destruct (w_db w). cbn. f_equal.
    rewrite <- (list_fmap_id users0) at 1. apply list_fmap_ext.
    intros _ u _. by rewrite decide_False by apply not_elem_of_nil.
  - cbn [ban_all]. rewrite run_bind, run_execute.
    set (w1 := mkWorld _ _ _ _ _ _).
    destruct (IH w1) as (Hv & Hdb & Hs). split; [exact Hv|].
    rewrite Hdb, Hs. split; [|done]. subst w1. cbn. f_equal.
    unfold banned_users. rewrite <- list_fmap_compose.
    apply list_fmap_ext. intros _ u _. cbn.
    destruct (decide (u_id u = id)) as [Hid|Hid].
    + rewrite (decide_True (P := u_id u ∈ id :: uids)) by (subst; by left).
      cbn. by destruct (decide _).
    + destruct (decide (u_id u ∈ uids)) as [Hin|Hin].
      * by rewrite decide_True by (by right).
      * rewrite decide_False; [done|].
        intros [?|?]%elem_of_cons; congruence.
Qed.

Lemma post_banned_run w csrf_token uids me :
  session_user_row w = Some me →
  u_authority me ≠ 0 →
  s_csrf_token (w_session w) = Some csrf_token →
  post_banned csrf_token uids w
  = (Ok (Redirect "/admin/banned"),
     exec (ban_all uids) (logged (session_queries w) w)).
Proof.
  intros Hme Hadmin Htoken. unfold post_banned.
  rewrite run_bind, get_session_user_run, Hme.
  rewrite decide_False by done.
  rewrite run_bind. unfold session_csrf_token.
  cbn [w_session logged]. rewrite Htoken.
  rewrite decide_False by (by intros []).
  rewrite run_bind.
  destruct (ban_all_run uids (logged (session_queries w) w)) as (Hv & _).
  unfold eval, exec in *.
  destruct (ban_all uids (logged (session_queries w) w)) as [o w1].
  cbn [fst snd] in *. by subst o.
Qed.

(** X8.  When a privileged user whose session token equals the submitted
    one posts a list of user ids, every row of [users] with one of those
    ids gets [del_flg = 1], every other row and the tables [posts] and
    [comments] stay as they were, and the session is untouched. *)
Theorem post_banned_sets_del_flg w csrf_token uids me :
  session_user_row w = Some me →
  u_authority me ≠ 0 →
  s_csrf_token (w_session w) = Some csrf_token →
  let w' := exec (post_banned csrf_token uids) w in
  eval (post_banned csrf_token uids) w = Ok (Redirect "/admin/banned")
  ∧ users (w_db w')
    = (λ u, if decide (u_id u ∈ uids) then set_del_flg 1 u else u)
        <$> users (w_db w)
  ∧ posts (w_db w') = posts (w_db w)
  ∧ comments (w_db w') = comments (w_db w)
  ∧ w_session w' = w_session w.
Proof.
  intros Hme Hadmin Htoken. cbv zeta. unfold eval, exec.
  rewrite (post_banned_run w csrf_token uids me) by done. cbn [fst snd].
  destruct (ban_all_run uids (logged (session_queries w) w))
    as (_ & Hdb & Hs).
  rewrite Hdb, Hs. by repeat split.
Qed.

Lemma post_banned_sets_del_flg_witness :
  session_user_row (logged_in 3 demo_world) = Some carol
  ∧ u_authority carol ≠ 0
  ∧ s_csrf_token (w_session (logged_in 3 demo_world)) = Some "0011223344556677"
  ∧ let w' := exec (post_banned "0011223344556677" [1]) (logged_in 3 demo_world) in
    eval (post_banned "0011223344556677" [1]) (logged_in 3 demo_world)
    = Ok (Redirect "/admin/banned")
    ∧ users (w_db w')
      = (λ u, if decide (u_id u ∈ [1]) then set_del_flg 1 u else u)
          <$> users (w_db (logged_in 3 demo_world))
    ∧ posts (w_db w') = posts (w_db (logged_in 3 demo_world))
    ∧ comments (w_db w') = comments (w_db (logged_in 3 demo_world))
    ∧ w_session w' = w_session (logged_in 3 demo_world).
Proof.
  assert (Hadmin : u_authority carol ≠ 0) by (by vm_compute).
  split; [reflexivity|]. split; [exact Hadmin|]. split; [reflexivity|].
  exact (post_banned_sets_del_flg (logged_in 3 demo_world)
           "0011223344556677" [1] carol eq_refl Hadmin eq_refl).
Defined.

(** X9.  [post_banned] changes the store only for a privileged user who
    submits the token of the session: a request that leaves the store
    different comes from a session that resolves to a user with
    [authority <> 0] and holds the submitted token. *)
Theorem post_banned_guards w csrf_token uids :
  w_db (exec (post_banned csrf_token uids) w) ≠ w_db w →
  ∃ me, session_user_row w = Some me
        ∧ u_authority me ≠ 0
        ∧ s_csrf_token (w_session w) = Some csrf_token.
Proof.
  unfold exec, post_banned. rewrite run_bind, get_session_user_run.
  destruct (session_user_row w) as [me|]; [|by rewrite run_ret].
  destruct (decide (u_authority me = 0)) as [|Hadmin]; [done|].
  rewrite run_bind. unfold session_csrf_token at 1. cbn [w_session logged].
  destruct (s_csrf_token (w_session w)) as [t|]; [|done].
  destruct (decide (csrf_token ≠ t)) as [|Heq]; [done|].
  apply dec_stable in Heq as ->. intros _. by exists me.
Qed.

Lemma post_banned_guards_witness :
  w_db (exec (post_banned "0011223344556677" [1]) (logged_in 3 demo_world))
    ≠ w_db (logged_in 3 demo_world)
  ∧ ∃ me, session_user_row (logged_in 3 demo_world) = Some me
          ∧ u_authority me ≠ 0
          ∧ s_csrf_token (w_session (logged_in 3 demo_world))
            = Some "0011223344556677".
Proof.
  assert (Hchanged :
    w_db (exec (post_banned "0011223344556677" [1]) (logged_in 3 demo_world))
      ≠ w_db (logged_in 3 demo_world)).
  { intros Heq. apply (f_equal (λ db, u_del_flg <$> users db)) in Heq.
    by vm_compute in Heq. }
  split; [exact Hchanged|].
  exact (post_banned_guards (logged_in 3 demo_world) "0011223344556677" [1]
           Hchanged).
Defined.

Lemma author_banned uids db uid :
  uid ∈ uids →
  author (mkDB (banned_users uids (users db)) (posts db) (comments db)) uid
  = set_del_flg 1 <$> author db uid.
Proof.
  intros Hin. unfold author, banned_users. cbn [users].
  induction (users db) as [|u us IH] using rev_ind; [done|].
  rewrite fmap_app, !filter_app, !last_app, IH.
  cbn [fmap list_fmap]. rewrite !filter_cons, !filter_nil.
  destruct (decide (u_id u ∈ uids)) as [Hu|Hu]; cbn [set_del_flg u_id];
    destruct (decide (u_id u = uid)) as [Hid|Hid]; cbn;
    try done; try (by destruct (last (filter _ us))).
  congruence.
Qed.

(** X10.  Once the ban statements for a list of user ids have run, no
    post of a user with one of those ids is in the output of
    [make_posts], in either mode and whatever rows it is given. *)
Theorem banned_authors_leave_the_feed w uids results all_comments :
  ∃ vs,
    eval (make_posts results all_comments) (exec (ban_all uids) w) = Ok vs
    ∧ Forall (λ v, r_user_id (pv_row v) ∉ uids) vs.
Proof.
  destruct (ban_all_run uids w) as (_ & Hdb & _).
  set (w' := exec (ban_all uids) w) in *.
  destruct (decide (results = [])) as [->|Hne].
  { exists []. by split. }
  exists (views (w_db w') results all_comments).
  unfold eval. rewrite make_posts_run by done. split; [done|].
  eapply Forall_impl; [apply views_users|].
  intros v (_ & _ & Hk) Hin. unfold kept in Hk.
  rewrite Hdb, author_banned in Hk by done.
  by destruct (author (w_db w) (r_user_id (pv_row v))).
Qed.

(** ** Initialisation *)

Lemma db_initialize_run w :
  get_initialize w
  = (Ok (Body ""),
     mkWorld (initialized (w_db w)) (w_session w) (w_shell w) (w_now w)
             (w_urandom w) (w_log w)).
Proof.
  destruct w as [db se sh now ur log].
  cbv [get_initialize db_initialize mbind M_bind mret M_ret execute2].
  cbn. unfold initialized. do 2 f_equal. f_equal.
  - rewrite <- list_fmap_compose.
    erewrite (filter_ext_in (λ u, ¬ 1000 < u_id u) (λ u, u_id u ≤ 1000));
      [|intros; lia].
    apply list_fmap_ext. intros _ u _. cbn. unfold initial_del_flg.
    by destruct (decide _).
  - apply filter_ext_in. intros; lia.
  - apply filter_ext_in. intros; lia.
Qed.

Lemma filter_fmap_same {A} (P : A → Prop) `{∀ x, Decision (P x)}
    (f : A → A) (l : list A) :
  (∀ x, P (f x) ↔ P x) → filter P (f <$> l) = f <$> filter P l.
Proof.
  intros Hf. induction l as [|x l IH]; [done|].
  rewrite fmap_cons, !filter_cons, IH.
  specialize (Hf x).
  destruct (decide (P x)), (decide (P (f x))); by try tauto.
Qed.

(** X11.  After [/initialize] the store holds the users with id at most
    1000, the posts with id at most 10000 and the comments with id at
    most 100000 of the store before, and nothing else; posts and
    comments are as they were, and a user has [del_flg = 1] exactly
    when the id is a multiple of 50, whatever the flag was.  The
    session is untouched. *)
Theorem initialize_resets_store w :
  let w' := exec get_initialize w in
  eval get_initialize w = Ok (Body "")
  ∧ users (w_db w')
    = (λ u, set_del_flg (if decide (Z.rem (u_id u) 50 = 0) then 1 else 0) u)
        <$> filter (λ u, u_id u ≤ 1000) (users (w_db w))
  ∧ posts (w_db w') = filter (λ p, p_id p ≤ 10000) (posts (w_db w))
  ∧ comments (w_db w') = filter (λ c, c_id c ≤ 100000) (comments (w_db w))
  ∧ Forall (λ u, u_id u ≤ 1000
                 ∧ (u_del_flg u = 1 ↔ Z.rem (u_id u) 50 = 0)
                 ∧ (u_del_flg u = 0 ↔ Z.rem (u_id u) 50 ≠ 0))
           (users (w_db w'))
  ∧ w_session w' = w_session w.
Proof.
  cbv zeta. unfold eval, exec. rewrite db_initialize_run. cbn [fst snd w_db
    w_session initialized users posts comments].
  do 4 (split; [done|]). split; [|done].
  apply Forall_fmap, Forall_forall. intros u [Hid _]%list_elem_of_filter.
  cbn [set_del_flg u_id u_del_flg initial_del_flg]. unfold initial_del_flg.
  split; [done|]. destruct (decide _); split; split; (done || lia).
Qed.

(** X12.  [/initialize] is idempotent on the store: running it a second
    time changes nothing. *)
Theorem initialize_idempotent w :
  w_db (exec get_initialize (exec get_initialize w))
  = w_db (exec get_initialize w).
Proof.
  unfold exec. rewrite !db_initialize_run. cbn [snd w_db].
  unfold initialized. cbn [users posts comments]. f_equal.
  - rewrite (filter_fmap_same (λ u, u_id u ≤ 1000)) by done.
    rewrite list_filter_filter_l by done.
    rewrite <- list_fmap_compose. apply list_fmap_ext. intros _ u _.
    cbn. unfold initial_del_flg. cbn [u_id set_del_flg].
    by destruct (decide _).
  - by apply list_filter_filter_l.
  - by apply list_filter_filter_l.
Qed.

(** X13.  A session that names a user with an id above 1000 survives
    [/initialize], but the user row does not: the session then
    resolves to no user, and the visitor is treated as logged out. *)
Theorem initialize_orphans_session w uid :
  s_user (w_session w) = Some uid →
  1000 < uid →
  let w' := exec get_initialize w in
  s_user (w_session w') = Some uid
  ∧ eval get_session_user w' = Ok None
  ∧ eval get_login w' = Ok RenderLogin.
Proof.
  intros Hsession Hid. cbv zeta. unfold exec. rewrite db_initialize_run.
  cbn [snd]. split; [done|].
  assert (Hnone : session_user_row
            (mkWorld (initialized (w_db w)) (w_session w) (w_shell w)
                     (w_now w) (w_urandom w) (w_log w)) = None).
  { unfold session_user_row. cbn [w_session w_db]. rewrite Hsession.
    cbn [sql_result initialized users]. rewrite filter_none; [done|].
    intros u (u0 & -> & [Hle _]%list_elem_of_filter)%list_elem_of_fmap.
    cbn [set_del_flg u_id]. lia. }
  unfold eval, get_login.
  rewrite run_bind, !get_session_user_run, Hnone. by split.
Qed.

Lemma initialize_orphans_session_witness :
  s_user (w_session (logged_in 1001 demo_world)) = Some 1001
  ∧ 1000 < 1001
  ∧ let w' := exec get_initialize (logged_in 1001 demo_world) in
    s_user (w_session w') = Some 1001
    ∧ eval get_session_user w' = Ok None
    ∧ eval get_login w' = Ok RenderLogin.
Proof.
  assert (Hid : 1000 < 1001) by lia.
  split; [reflexivity|]. split; [exact Hid|].
  exact (initialize_orphans_session (logged_in 1001 demo_world) 1001
           eq_refl Hid).
Defined.

(** ** Integers and their decimal form *)

Lemma digit_not_space a : is_digit a = true → is_space a = false.
Proof. by destruct a as [[] [] [] [] [] [] [] []]. Qed.

Lemma digit_not_sign a :
  is_digit a = true →
  (nat_of_ascii a =? 45)%nat = false ∧ (nat_of_ascii a =? 43)%nat = false.
Proof. by destruct a as [[] [] [] [] [] [] [] []]. Qed.

Lemma lstrip_id a l : is_space a = false → lstrip (a :: l) = a :: l.
Proof. intros Ha. cbn. by rewrite Ha. Qed.

Lemma strip_id s a l z :
  list_ascii_of_string s = a :: l →
  last (a :: l) = Some z →
  is_space a = false → is_space z = false →
  strip s = s.
Proof.
  intros Hs Hlast Ha Hz. unfold strip. rewrite Hs, lstrip_id by done.
  destruct (reverse (a :: l)) as [|z' l'] eqn:Hrev.
  { apply (f_equal length) in Hrev. rewrite length_reverse in Hrev. done. }
  assert (z' = z) as ->.
  { rewrite <- (reverse_involutive (a :: l)), Hrev, reverse_cons, last_snoc
      in Hlast. congruence. }
  rewrite lstrip_id, <- Hrev, reverse_involutive, <- Hs by done.
  apply String.string_of_list_ascii_of_string.
Qed.

Lemma int_digits_digits l : ∀ acc after_digit,
  Forall (λ a, is_digit a = true) l →
  int_digits l acc after_digit
  = if decide (l = []) then (if after_digit then Some acc else None)
    else Some (foldl (λ acc a, 10 * acc + digit_value a) acc l).
Proof.
  induction l as [|a l IH]; intros acc b Hall; [done|].
  apply Forall_cons in Hall as [Ha Hall]. cbn [int_digits foldl].
  rewrite Ha, IH by done. by destruct (decide (l = [])) as [->|].
Qed.

Lemma py_int_digits s :
  list_ascii_of_string s ≠ [] →
  Forall (λ a, is_digit a = true) (list_ascii_of_string s) →
  py_int s = Some (decimal (list_ascii_of_string s)).
Proof.
  intros Hne Hall. unfold py_int.
  destruct (list_ascii_of_string s) as [|a l] eqn:Hs; [done|].
  destruct (last (a :: l)) as [z|] eqn:Hlast.
  2: { by apply last_None in Hlast. }
  assert (Hz : is_digit z = true).
  { rewrite Forall_forall in Hall. apply Hall. by apply last_Some_elem_of. }
  assert (Ha : is_digit a = true) by (by apply Forall_cons in Hall as [? _]).
  rewrite (strip_id s a l z), Hs by auto using digit_not_space.
  destruct (digit_not_sign a Ha) as [-> ->].
  rewrite int_digits_digits by done. by rewrite decide_False.
Qed.

Lemma pretty_N_char_digit x :
  (x < 10)%N →
  is_digit (pretty_N_char x) = true
  ∧ digit_value (pretty_N_char x) = Z.of_N x.
Proof.
  intros Hx.
  assert (x = 0 ∨ x = 1 ∨ x = 2 ∨ x = 3 ∨ x = 4 ∨ x = 5 ∨ x = 6 ∨ x = 7
          ∨ x = 8 ∨ x = 9)%N as Hcases by lia.
  repeat destruct Hcases as [->|Hcases]; try subst x; by vm_compute.
Qed.

Lemma pretty_N_go_digits x : ∀ s,
  ∃ ds,
    list_ascii_of_string (pretty_N_go x s) = ds ++ list_ascii_of_string s
    ∧ Forall (λ a, is_digit a = true) ds
    ∧ ((0 < x)%N → ds ≠ [])
    ∧ ∀ acc, foldl (λ acc a, 10 * acc + digit_value a) acc ds
             = acc * 10 ^ Z.of_nat (length ds) + Z.of_N x.
Proof.
  induction (N.lt_wf_0 x) as [x _ IH]. intros s.
  destruct (decide (0 < x)%N) as [Hpos|Hzero].
  - rewrite pretty_N_go_step by done.
    destruct (IH (x `div` 10)%N (N.div_lt x 10 Hpos eq_refl)
                 (String (pretty_N_char (x `mod` 10)) s))
      as (ds & Hds & Hall & _ & Hval).
    destruct (pretty_N_char_digit (x `mod` 10)%N) as [Hdigit Hvalue].
    { by apply N.mod_lt. }
    exists (ds ++ [pretty_N_char (x `mod` 10)%N]).
    rewrite Hds, <- app_assoc. split; [done|]. split.
    { apply Forall_app. split; [done|]. by constructor. }
    split. { intros _. by destruct ds. }
    intros acc. rewrite foldl_app, Hval. cbn [foldl].
    rewrite Hvalue, length_app. cbn [length].
    rewrite Nat2Z.inj_add, Z.pow_add_r by lia.
    pose proof (N.div_mod x 10 ltac:(done)) as Hdm.
    apply (f_equal Z.of_N) in Hdm. rewrite N2Z.inj_add, N2Z.inj_mul in Hdm.
    change (Z.of_N 10) with 10 in Hdm. change (10 ^ Z.of_nat 1) with 10. lia.
  - assert (x = 0)%N as -> by lia. exists []. rewrite pretty_N_go_0.
    repeat split; [done|lia|]. intros acc. cbn. lia.
Qed.

(** The decimal form of a non-negative integer reads back as the
    integer. *)
Lemma py_int_pretty n : 0 ≤ n → py_int (pretty n) = Some n.
Proof.
  intros Hn. destruct n as [|p|p]; [done| |lia].
  change (pretty (Z.pos p)) with (pretty_N_go (N.pos p) "").
  destruct (pretty_N_go_digits (N.pos p) "") as (ds & Hds & Hall & Hne & Hval).
  rewrite app_nil_r in Hds. rewrite py_int_digits.
  - unfold decimal. rewrite Hds, Hval. f_equal; lia.
  - rewrite Hds. by apply Hne.
  - by rewrite Hds.
Qed.

(** ** Uploads and images *)

Lemma next_post_id_fresh ps p : p ∈ ps → p_id p < next_post_id ps.
Proof.
  unfold next_post_id. induction ps as [|x ps IH]; intros Hp.
  - by apply elem_of_nil in Hp.
  - cbn [fmap list_fmap foldr].
    apply elem_of_cons in Hp as [->|Hp]; [lia|]. specialize (IH Hp). lia.
Qed.

Lemma next_post_id_pos ps : 0 < next_post_id ps.
Proof.
  unfold next_post_id. induction ps as [|x ps IH]; cbn [fmap list_fmap foldr];
    lia.
Qed.

Lemma post_index_run w csrf_token me file body :
  session_user_row w = Some me →
  s_csrf_token (w_session w) = Some csrf_token →
  fs_filename file ≠ "" →
  fs_mimetype file ∈ ["image/jpeg"; "image/png"; "image/gif"] →
  Z.of_nat (String.length (fs_content file)) ≤ UPLOAD_LIMIT →
  post_index csrf_token (Some file) body w
  = (Ok (Page (Redirect ("/posts/" +:+ pretty (next_post_id (posts (w_db w)))))),
     uploaded w me file body).
Proof.
  intros Hme Htoken Hname Hmime Hsize. unfold post_index.
  rewrite run_bind, get_session_user_run, Hme.
  rewrite run_bind. unfold session_csrf_token.
  cbn [w_session logged]. rewrite Htoken.
  rewrite decide_False by (by intros []).
  rewrite decide_False by done.
  rewrite decide_False by (by intros []).
  destruct (Z.ltb_spec UPLOAD_LIMIT
              (Z.of_nat (String.length (fs_content file)))); [lia|].
  destruct w as [db se sh now ur log].
  cbv [mbind M_bind mret M_ret execute2 logged uploaded new_post].
  reflexivity.
Qed.

(** X14.  An upload by a logged-in user who submits the token of the
    session, with a named file of type jpeg, png or gif and at most
    [UPLOAD_LIMIT] bytes, adds exactly one row to [posts]: a fresh id,
    the user, the type, the bytes and the caption.  Users and comments
    are unchanged and the reply redirects to the page of the new
    post. *)
Theorem post_index_stores_upload w csrf_token me file body :
  session_user_row w = Some me →
  s_csrf_token (w_session w) = Some csrf_token →
  fs_filename file ≠ "" →
  fs_mimetype file ∈ ["image/jpeg"; "image/png"; "image/gif"] →
  Z.of_nat (String.length (fs_content file)) ≤ UPLOAD_LIMIT →
  let w' := exec (post_index csrf_token (Some file) body) w in
  let pid := next_post_id (posts (w_db w)) in
  eval (post_index csrf_token (Some file) body) w
  = Ok (Page (Redirect ("/posts/" +:+ pretty pid)))
  ∧ posts (w_db w')
    = posts (w_db w)
      ++ [mkPost pid (u_id me) (fs_mimetype file) (fs_content file) body
                 (w_now w)]
  ∧ (∀ p, p ∈ posts (w_db w) → p_id p ≠ pid)
  ∧ users (w_db w') = users (w_db w)
  ∧ comments (w_db w') = comments (w_db w).
Proof.
  intros Hme Htoken Hname Hmime Hsize. cbv zeta. unfold eval, exec.
  rewrite (post_index_run w csrf_token me file body) by done.
  cbn [fst snd]. do 2 (split; [done|]). split; [|done].
  intros p Hp%next_post_id_fresh. lia.
Qed.

Lemma post_index_stores_upload_witness :
  session_user_row (logged_in 1 demo_world) = Some alice
  ∧ s_csrf_token (w_session (logged_in 1 demo_world)) = Some demo_token
  ∧ fs_filename demo_file ≠ ""
  ∧ fs_mimetype demo_file ∈ ["image/jpeg"; "image/png"; "image/gif"]
  ∧ Z.of_nat (String.length (fs_content demo_file)) ≤ UPLOAD_LIMIT
  ∧ let w' := exec (post_index demo_token (Some demo_file) "my cat")
                   (logged_in 1 demo_world) in
    let pid := next_post_id (posts (w_db (logged_in 1 demo_world))) in
    eval (post_index demo_token (Some demo_file) "my cat")
         (logged_in 1 demo_world)
    = Ok (Page (Redirect ("/posts/" +:+ pretty pid)))
    ∧ posts (w_db w')
      = posts (w_db (logged_in 1 demo_world))
        ++ [mkPost pid (u_id alice) (fs_mimetype demo_file)
                   (fs_content demo_file) "my cat"
                   (w_now (logged_in 1 demo_world))]
    ∧ (∀ p, p ∈ posts (w_db (logged_in 1 demo_world)) → p_id p ≠ pid)
    ∧ users (w_db w') = users (w_db (logged_in 1 demo_world))
    ∧ comments (w_db w') = comments (w_db (logged_in 1 demo_world)).
Proof.
  assert (Hname : fs_filename demo_file ≠ "") by (by vm_compute).
  assert (Hmime : fs_mimetype demo_file
                  ∈ ["image/jpeg"; "image/png"; "image/gif"]).
  { apply (bool_decide_unpack _). by vm_compute. }
  assert (Hsize : Z.of_nat (String.length (fs_content demo_file))
                  ≤ UPLOAD_LIMIT) by (by vm_compute).
  do 2 (split; [reflexivity|]). split; [exact Hname|].
  split; [exact Hmime|]. split; [exact Hsize|].
  exact (post_index_stores_upload (logged_in 1 demo_world) demo_token alice
           demo_file "my cat" eq_refl eq_refl Hname Hmime Hsize).
Defined.

(** X15.  [post_index] changes the store only when the upload is
    accepted: a request that leaves the store different comes from a
    session that resolves to a user and holds the submitted token, and
    carries a named file of type jpeg, png or gif of at most
    [UPLOAD_LIMIT] bytes. *)
Theorem post_index_guards w csrf_token file body :
  w_db (exec (post_index csrf_token file body) w) ≠ w_db w →
  ∃ me f,
    session_user_row w = Some me
    ∧ s_csrf_token (w_session w) = Some csrf_token
    ∧ file = Some f
    ∧ fs_filename f ≠ ""
    ∧ fs_mimetype f ∈ ["image/jpeg"; "image/png"; "image/gif"]
    ∧ Z.of_nat (String.length (fs_content f)) ≤ UPLOAD_LIMIT.
Proof.
  unfold exec, post_index. rewrite run_bind, get_session_user_run.
  destruct (session_user_row w) as [me|]; [|by rewrite run_ret].
  rewrite run_bind. unfold session_csrf_token. cbn [w_session logged].
  destruct (s_csrf_token (w_session w)) as [t|]; [|done].
  destruct (decide (csrf_token ≠ t)) as [|Heq]; [done|].
  apply dec_stable in Heq as ->.
  destruct file as [f|]; [|done].
  destruct (decide (fs_filename f = "")); [done|].
  destruct (decide (fs_mimetype f ∉ _)) as [|Hmime]; [done|].
  apply dec_stable in Hmime.
  destruct (Z.ltb_spec UPLOAD_LIMIT (Z.of_nat (String.length (fs_content f))));
    [done|].
  intros _. by exists me, f.
Qed.

Lemma post_index_guards_witness :
  w_db (exec (post_index demo_token (Some demo_file) "my cat")
             (logged_in 1 demo_world))
    ≠ w_db (logged_in 1 demo_world)
  ∧ ∃ me f,
      session_user_row (logged_in 1 demo_world) = Some me
      ∧ s_csrf_token (w_session (logged_in 1 demo_world)) = Some demo_token
      ∧ Some demo_file = Some f
      ∧ fs_filename f ≠ ""
      ∧ fs_mimetype f ∈ ["image/jpeg"; "image/png"; "image/gif"]
      ∧ Z.of_nat (String.length (fs_content f)) ≤ UPLOAD_LIMIT.
Proof.
  assert (Hchanged :
    w_db (exec (post_index demo_token (Some demo_file) "my cat")
               (logged_in 1 demo_world))
      ≠ w_db (logged_in 1 demo_world)).
  { intros Heq. apply (f_equal (λ db, length (posts db))) in Heq.
    by vm_compute in Heq. }
  split; [exact Hchanged|].
  exact (post_index_guards (logged_in 1 demo_world) demo_token
           (Some demo_file) "my cat" Hchanged).
Defined.

Lemma pretty_nonempty n : 0 ≤ n → pretty n ≠ "".
Proof.
  intros Hn Hempty. pose proof (py_int_pretty n Hn) as Hint.
  rewrite Hempty in Hint. discriminate.
Qed.

Lemma get_image_run w s ext n :
  s ≠ "" → py_int s = Some n → n ≠ 0 →
  get_image s ext w
  = match fetchone (sql_result (w_db w) (SelPostById n) : list PostRow) with
    | None => (Ok (Uncaught TypeError), logged [SelPostById n] w)
    | Some post =>
        if decide (ext = "jpg" ∧ r_mime post = "image/jpeg"
                   ∨ ext = "png" ∧ r_mime post = "image/png"
                   ∨ ext = "gif" ∧ r_mime post = "image/gif")
        then (Ok (ImageData (default "" (r_imgdata post)) (r_mime post)),
              logged [SelPostById n] w)
        else (Raise (HTTPException 404), logged [SelPostById n] w)
    end.
Proof.
  intros Hs Hint Hn. unfold get_image.
  rewrite decide_False, Hint, decide_False by done.
  rewrite run_bind, execute_read by done.
  destruct (fetchone _) as [post|]; [|done]. by destruct (decide _).
Qed.

Lemma unique_post_lookup db p :
  NoDup (p_id <$> posts db) → p ∈ posts db →
  fetchone (sql_result db (SelPostById (p_id p)) : list PostRow)
  = Some (all_columns p).
Proof.
  intros Hnd Hp. cbn [sql_result].
  destruct (filter (λ q, p_id q = p_id p) (posts db)) as [|q qs] eqn:Hf.
  { by destruct (filter_nil_not_elem_of _ _ p Hf eq_refl). }
  assert (Hq : q ∈ filter (λ q, p_id q = p_id p) (posts db))
    by (rewrite Hf; by left).
  apply list_elem_of_filter in Hq as [Hid Hq].
  cbn. do 2 f_equal. by eapply NoDup_fmap_inj_on.
Qed.

(** X16.  For a stored post with a positive id that is unique, the path
    [image_url] builds is "/image/", the id in decimal and the
    extension of the type.  [get_image] called with that id and that
    extension returns the bytes of the post with its type; when the
    type is not jpeg, png or gif, [image_url] adds no extension and
    [get_image] answers 404 for every extension. *)
Theorem image_url_is_served w p :
  NoDup (p_id <$> posts (w_db w)) →
  p ∈ posts (w_db w) →
  0 < p_id p →
  image_url (all_columns p)
  = "/image/" +:+ pretty (p_id p) +:+ image_ext (p_mime p)
  ∧ (∀ ext, image_ext (p_mime p) = "." +:+ ext →
       eval (get_image (pretty (p_id p)) ext) w
       = Ok (ImageData (p_imgdata p) (p_mime p)))
  ∧ (image_ext (p_mime p) = "" →
       ∀ ext, eval (get_image (pretty (p_id p)) ext) w
              = Raise (HTTPException 404)).
Proof.
  intros Hnd Hp Hid. split; [done|].
  assert (Hrun : ∀ ext, get_image (pretty (p_id p)) ext w
    = if decide (ext = "jpg" ∧ p_mime p = "image/jpeg"
                 ∨ ext = "png" ∧ p_mime p = "image/png"
                 ∨ ext = "gif" ∧ p_mime p = "image/gif")
      then (Ok (ImageData (p_imgdata p) (p_mime p)),
            logged [SelPostById (p_id p)] w)
      else (Raise (HTTPException 404), logged [SelPostById (p_id p)] w)).
  { intros ext.
    rewrite (get_image_run w _ ext (p_id p))
      by (try apply pretty_nonempty; try apply py_int_pretty; lia).
    by rewrite unique_post_lookup. }
  unfold eval, image_ext. split.
  - intros ext Hext. rewrite Hrun.
    cbv [String.append] in Hext.
    repeat destruct (decide (p_mime p = _)) as [Hm|?];
      try discriminate; injection Hext as <-;
      rewrite decide_True by (rewrite Hm; tauto); done.
  - intros Hnone ext. rewrite Hrun.
    repeat destruct (decide (p_mime p = _)); try discriminate.
    rewrite decide_False; [done|]. tauto.
Qed.

Lemma image_url_is_served_witness :
  NoDup (p_id <$> posts (w_db demo_world))
  ∧ demo_post ∈ posts (w_db demo_world)
  ∧ 0 < p_id demo_post
  ∧ image_url (all_columns demo_post)
    = "/image/" +:+ pretty (p_id demo_post) +:+ image_ext (p_mime demo_post)
  ∧ (∀ ext, image_ext (p_mime demo_post) = "." +:+ ext →
       eval (get_image (pretty (p_id demo_post)) ext) demo_world
       = Ok (ImageData (p_imgdata demo_post) (p_mime demo_post)))
  ∧ (image_ext (p_mime demo_post) = "" →
       ∀ ext, eval (get_image (pretty (p_id demo_post)) ext) demo_world
              = Raise (HTTPException 404)).
Proof.
  assert (Hnd : NoDup (p_id <$> posts (w_db demo_world))).
  { apply (bool_decide_unpack _). by vm_compute. }
  assert (Hin : demo_post ∈ posts (w_db demo_world)).
  { apply (bool_decide_unpack _). by vm_compute. }
  assert (Hid : 0 < p_id demo_post) by (by vm_compute).
  split; [exact Hnd|]. split; [exact Hin|]. split; [exact Hid|].
  exact (image_url_is_served demo_world demo_post Hnd Hin Hid).
Defined.

(** X17.  After an accepted upload, [get_image] called with the id of
    the new post and the extension of the uploaded type returns the
    uploaded bytes and that type. *)
Theorem uploaded_image_is_served w csrf_token me file body ext :
  session_user_row w = Some me →
  s_csrf_token (w_session w) = Some csrf_token →
  fs_filename file ≠ "" →
  fs_mimetype file ∈ ["image/jpeg"; "image/png"; "image/gif"] →
  Z.of_nat (String.length (fs_content file)) ≤ UPLOAD_LIMIT →
  image_ext (fs_mimetype file) = "." +:+ ext →
  let w' := exec (post_index csrf_token (Some file) body) w in
  eval (get_image (pretty (next_post_id (posts (w_db w)))) ext) w'
  = Ok (ImageData (fs_content file) (fs_mimetype file)).
Proof.
  intros Hme Htoken Hname Hmime Hsize Hext. cbv zeta. unfold eval, exec.
  rewrite (post_index_run w csrf_token me file body) by done. cbn [snd].
  pose proof (next_post_id_pos (posts (w_db w))) as Hpos.
  rewrite (get_image_run _ _ ext (next_post_id (posts (w_db w))))
    by (try apply pretty_nonempty; try apply py_int_pretty; lia).
  unfold uploaded. cbn [w_db sql_result posts].
  rewrite filter_snoc_fresh; [|intros p Hp%next_post_id_fresh; lia|done].
  cbn [fmap list_fmap fetchone head all_columns new_post r_mime r_imgdata
       p_mime p_imgdata default from_option].
  cbv [String.append] in Hext. unfold image_ext in Hext.
  repeat destruct (decide (fs_mimetype file = _)) as [Hm|?];
    try discriminate; injection Hext as <-;
    rewrite decide_True by (rewrite Hm; tauto); done.
Qed.

Lemma uploaded_image_is_served_witness :
  session_user_row (logged_in 1 demo_world) = Some alice
  ∧ s_csrf_token (w_session (logged_in 1 demo_world)) = Some demo_token
  ∧ fs_filename demo_file ≠ ""
  ∧ fs_mimetype demo_file ∈ ["image/jpeg"; "image/png"; "image/gif"]
  ∧ Z.of_nat (String.length (fs_content demo_file)) ≤ UPLOAD_LIMIT
  ∧ image_ext (fs_mimetype demo_file) = "." +:+ "png"
  ∧ let w' := exec (post_index demo_token (Some demo_file) "my cat")
                   (logged_in 1 demo_world) in
    eval (get_image
            (pretty (next_post_id (posts (w_db (logged_in 1 demo_world)))))
            "png") w'
    = Ok (ImageData (fs_content demo_file) (fs_mimetype demo_file)).
Proof.
  assert (Hname : fs_filename demo_file ≠ "") by (by vm_compute).
  assert (Hmime : fs_mimetype demo_file
                  ∈ ["image/jpeg"; "image/png"; "image/gif"]).
  { apply (bool_decide_unpack _). by vm_compute. }
  assert (Hsize : Z.of_nat (String.length (fs_content demo_file))
                  ≤ UPLOAD_LIMIT) by (by vm_compute).
  do 2 (split; [reflexivity|]). split; [exact Hname|].
  split; [exact Hmime|]. split; [exact Hsize|]. split; [reflexivity|].
  exact (uploaded_image_is_served (logged_in 1 demo_world) demo_token alice
           demo_file "my cat" "png" eq_refl eq_refl Hname Hmime Hsize eq_refl).
Defined.

(** X18.  What [get_image] serves is stored: when it answers with an
    image, the id it was given (of the ASCII range) denotes a non-zero
    integer, some post with that id has the bytes and the type of the
    answer, and the extension asked for is the one of that type. *)
Theorem get_image_serves_stored_images w id ext data mime :
  ascii_only id →
  eval (get_image id ext) w = Ok (ImageData data mime) →
  ∃ p, p ∈ posts (w_db w)
       ∧ py_int id = Some (p_id p)
       ∧ p_id p ≠ 0
       ∧ p_imgdata p = data
       ∧ p_mime p = mime
       ∧ (ext, mime) ∈ [("jpg", "image/jpeg"); ("png", "image/png");
                        ("gif", "image/gif")].
Proof.
  intros _. unfold eval, get_image.
  destruct (decide (id = "")) as [|Hid0]; [done|].
  destruct (py_int id) as [n|]; [|done].
  destruct (decide (n = 0)) as [|Hn0]; [done|].
  rewrite run_bind, execute_read by done. cbn [sql_result].
  destruct (filter (λ p, p_id p = n) (posts (w_db w))) as [|p ps] eqn:Hf;
    [done|].
  cbn [fmap list_fmap fetchone head all_columns r_mime r_imgdata].
  assert (Hp : p ∈ filter (λ p, p_id p = n) (posts (w_db w)))
    by (rewrite Hf; by left).
  apply list_elem_of_filter in Hp as [Hid Hp].
  destruct (decide _) as [Hmatch|]; [|done].
  cbn. intros [= <- <-]. exists p. subst n. do 5 (split; [done|]).
  destruct Hmatch as [[-> ->]|[[-> ->]|[-> ->]]]; set_solver.
Qed.

Lemma get_image_serves_stored_images_witness :
  ascii_only "3"
  ∧ eval (get_image "3" "gif") demo_world = Ok (ImageData "" "image/gif")
  ∧ ∃ p, p ∈ posts (w_db demo_world)
         ∧ py_int "3" = Some (p_id p)
         ∧ p_id p ≠ 0
         ∧ p_imgdata p = ""
         ∧ p_mime p = "image/gif"
         ∧ ("gif", "image/gif") ∈ [("jpg", "image/jpeg"); ("png", "image/png");
                                   ("gif", "image/gif")].
Proof.
  assert (Hascii : ascii_only "3").
  { apply (bool_decide_unpack _). by vm_compute. }
  split; [exact Hascii|]. split; [reflexivity|].
  exact (get_image_serves_stored_images demo_world "3" "gif" "" "image/gif"
           Hascii eq_refl).
Defined.

(** ** Comments *)


Lemma int_digits_nonneg l : ∀ acc after_digit z,
  0 ≤ acc → int_digits l acc after_digit = Some z → 0 ≤ z.
Proof.
  induction l as [|a l IH]; intros acc b z Hacc; cbn [int_digits].
  - destruct b; [|done]. by intros [= <-].
  - destruct (is_digit a) eqn:Ha.
    + apply IH. unfold digit_value.
      apply andb_true_iff in Ha as [Ha%Nat.leb_le _]. lia.
    + destruct (_ && _); [by apply IH|done].
Qed.

Lemma int_digits_chars l : ∀ acc after_digit z,
  int_digits l acc after_digit = Some z →
  Forall (λ a, is_digit a = true ∨ nat_of_ascii a = 95%nat) l.
Proof.
  induction l as [|a l IH]; intros acc b z; cbn [int_digits]; [done|].
  destruct (is_digit a) eqn:Ha.
  - intros H%IH. constructor; [by left|done].
  - destruct (nat_of_ascii a =? 95)%nat eqn:Hu; [|done].
    destruct b; [|done]. cbn [andb].
    intros H%IH. constructor; [|done]. right. by apply Nat.eqb_eq.
Qed.

Lemma elem_of_lstrip a l : a ∈ l → is_space a = false → a ∈ lstrip l.
Proof.
  intros Hin Ha. induction l as [|x l IH]; [done|]. cbn [lstrip].
  destruct (is_space x) eqn:Hx; [|done].
  apply elem_of_cons in Hin as [->|Hin]; [congruence|by apply IH].
Qed.

Lemma elem_of_strip a s :
  a ∈ list_ascii_of_string s → is_space a = false →
  a ∈ list_ascii_of_string (strip s).
Proof.
  intros Hin Ha. unfold strip. rewrite String.list_ascii_of_string_of_list_ascii.
  apply elem_of_reverse, elem_of_lstrip; [|done].
  by apply elem_of_reverse, elem_of_lstrip.
Qed.

(** [int] raises on a string that holds a character it accepts
    nowhere. *)
Lemma py_int_rejects s a :
  a ∈ list_ascii_of_string s → never_in_int a → py_int s = None.
Proof.
  intros Hin (_ & Hd & Hs & Hu & Hm & Hp).
  pose proof (elem_of_strip a s Hin Hs) as Hin'. unfold py_int.
  destruct (list_ascii_of_string (strip s)) as [|x l]; [done|].
  assert (Hbad : ∀ l' acc b, a ∈ l' → int_digits l' acc b = None).
  { intros l' acc b Hl'. destruct (int_digits l' acc b) as [z|] eqn:Hz; [|done].
    apply int_digits_chars in Hz. rewrite Forall_forall in Hz.
    destruct (Hz a Hl') as [?|?]; congruence. }
  destruct (nat_of_ascii x =? 45)%nat eqn:Hx45.
  { apply Nat.eqb_eq in Hx45.
    apply elem_of_cons in Hin' as [->|Hin']; [done|]. by rewrite Hbad. }
  destruct (nat_of_ascii x =? 43)%nat eqn:Hx43.
  { apply Nat.eqb_eq in Hx43.
    apply elem_of_cons in Hin' as [->|Hin']; [done|]. by rewrite Hbad. }
  by apply Hbad.
Qed.

Lemma lstrip_snoc l a :
  is_space a = false → ∃ l', lstrip (l ++ [a]) = l' ++ [a].
Proof.
  intros Ha. induction l as [|x l IH]; cbn [app lstrip].
  - rewrite Ha. by exists [].
  - destruct (is_space x); [done|]. by exists (x :: l).
Qed.

(** A string that starts with a digit denotes no negative number. *)
Lemma py_int_digit_first a r n :
  is_digit a = true → py_int (String a r) = Some n → 0 ≤ n.
Proof.
  intros Ha. unfold py_int, strip. cbn [list_ascii_of_string].
  rewrite lstrip_id, reverse_cons by auto using digit_not_space.
  destruct (lstrip_snoc (reverse (list_ascii_of_string r)) a) as [l' ->];
    [auto using digit_not_space|].
  rewrite reverse_snoc, String.list_ascii_of_string_of_list_ascii.
  destruct (digit_not_sign a Ha) as [-> ->].
  by apply int_digits_nonneg.
Qed.

Lemma post_comment_run w csrf_token me post_id comment n :
  session_user_row w = Some me →
  s_csrf_token (w_session w) = Some csrf_token →
  re_match_at_least is_digit 1 post_id = true →
  py_int post_id = Some n →
  post_comment csrf_token post_id comment w
  = (Ok (Page (Redirect ("/posts/" +:+ pretty n))), commented w me n comment).
Proof.
  intros Hme Htoken Hre Hint. unfold post_comment.
  rewrite run_bind, get_session_user_run, Hme.
  rewrite run_bind. unfold session_csrf_token.
  cbn [w_session logged]. rewrite Htoken.
  rewrite decide_False by (by intros []).
  rewrite Hre, Hint. cbn [negb].
  destruct w as [db se sh now ur log].
  cbv [mbind M_bind mret M_ret execute2 logged commented new_comment].
  reflexivity.
Qed.



(** X20.  The pattern of [post_comment] looks at the start of [post_id]
    only: a [post_id] that begins with a digit and holds, anywhere, a
    character [int] accepts nowhere ends the handler with the
    [ValueError] of [int], not with the message, and leaves the store
    as it was. *)
Theorem post_comment_checks_first_character_only
    w csrf_token me a rest bad comment :
  session_user_row w = Some me →
  s_csrf_token (w_session w) = Some csrf_token →
  is_digit a = true →
  bad ∈ list_ascii_of_string rest →
  never_in_int bad →
  eval (post_comment csrf_token (String a rest) comment) w
  = Ok (Uncaught ValueError)
  ∧ w_db (exec (post_comment csrf_token (String a rest) comment) w) = w_db w.
Proof.
  intros Hme Htoken Ha Hin Hbad. unfold eval, exec, post_comment.
  rewrite run_bind, get_session_user_run, Hme.
  rewrite run_bind. unfold session_csrf_token.
  cbn [w_session logged]. rewrite Htoken.
  rewrite decide_False by (by intros []).
  unfold re_match_at_least. cbn [list_ascii_of_string span]. rewrite Ha.
  cbn [Nat.leb negb].
  rewrite (py_int_rejects (String a rest) bad); [done| |done].
  cbn [list_ascii_of_string]. by right.
Qed.

Lemma post_comment_checks_first_character_only_witness :
  let one := Ascii.ascii_of_nat 49 in
  let x := Ascii.ascii_of_nat 120 in
  session_user_row (logged_in 1 demo_world) = Some alice
  ∧ s_csrf_token (w_session (logged_in 1 demo_world)) = Some demo_token
  ∧ is_digit one = true
  ∧ x ∈ list_ascii_of_string "2x"
  ∧ never_in_int x
  ∧ eval (post_comment demo_token "12x" "nice") (logged_in 1 demo_world)
    = Ok (Uncaught ValueError)
  ∧ w_db (exec (post_comment demo_token "12x" "nice") (logged_in 1 demo_world))
    = w_db (logged_in 1 demo_world).
Proof.
  cbv zeta.
  assert (Hin : Ascii.ascii_of_nat 120 ∈ list_ascii_of_string "2x").
  { apply (bool_decide_unpack _). by vm_compute. }
  assert (Hbad : never_in_int (Ascii.ascii_of_nat 120)).
  { unfold never_in_int. vm_compute. repeat split; (lia || done). }
  do 3 (split; [reflexivity|]). split; [exact Hin|]. split; [exact Hbad|].
  exact (post_comment_checks_first_character_only (logged_in 1 demo_world)
           demo_token alice (Ascii.ascii_of_nat 49) "2x"
           (Ascii.ascii_of_nat 120) "nice" eq_refl eq_refl eq_refl Hin Hbad).
Defined.

(** X21.  [post_comment] changes the store only by one comment of the
    session's user: a request, with a [post_id] of the ASCII range,
    that leaves the store different comes from a session that resolves
    to a user and holds the submitted token, its [post_id] begins with
    a digit and denotes a number that is not negative, and the store
    differs by the one row for that number. *)
Theorem post_comment_guards w csrf_token post_id comment :
  ascii_only post_id →
  w_db (exec (post_comment csrf_token post_id comment) w) ≠ w_db w →
  ∃ me a rest n,
    session_user_row w = Some me
    ∧ s_csrf_token (w_session w) = Some csrf_token
    ∧ post_id = String a rest ∧ is_digit a = true
    ∧ py_int post_id = Some n ∧ 0 ≤ n
    ∧ w_db (exec (post_comment csrf_token post_id comment) w)
      = mkDB (users (w_db w)) (posts (w_db w))
             (comments (w_db w) ++ [new_comment w me n comment]).
Proof.
  intros _ Hchanged.
  destruct (session_user_row w) as [me|] eqn:Hme.
  2: { exfalso. apply Hchanged. unfold exec, post_comment.
       by rewrite run_bind, get_session_user_run, Hme, run_ret. }
  destruct (s_csrf_token (w_session w)) as [t|] eqn:Htoken.
  2: { exfalso. apply Hchanged. unfold exec, post_comment.
       rewrite run_bind, get_session_user_run, Hme, run_bind.
       unfold session_csrf_token. cbn [w_session logged].
       by rewrite Htoken. }
  destruct (decide (csrf_token = t)) as [->|Hne].
  2: { exfalso. apply Hchanged. unfold exec, post_comment.
       rewrite run_bind, get_session_user_run, Hme, run_bind.
       unfold session_csrf_token. cbn [w_session logged].
       rewrite Htoken. by rewrite decide_True. }
  destruct (re_match_at_least is_digit 1 post_id) eqn:Hre.
  2: { exfalso. apply Hchanged. unfold exec, post_comment.
       rewrite run_bind, get_session_user_run, Hme, run_bind.
       unfold session_csrf_token. cbn [w_session logged].
       rewrite Htoken. rewrite decide_False by (by intros []).
       by rewrite Hre. }
  destruct (py_int post_id) as [n|] eqn:Hint.
  2: { exfalso. apply Hchanged. unfold exec, post_comment.
       rewrite run_bind, get_session_user_run, Hme, run_bind.
       unfold session_csrf_token. cbn [w_session logged].
       rewrite Htoken. rewrite decide_False by (by intros []).
       by rewrite Hre, Hint. }
  unfold re_match_at_least in Hre.
  destruct post_id as [|a rest]; [done|]. cbn [list_ascii_of_string span] in Hre.
  destruct (is_digit a) eqn:Ha; [|done].
  exists me, a, rest, n. do 5 (split; [done|]).
  split; [by eapply py_int_digit_first|].
  unfold exec.
  by rewrite (post_comment_run w t me (String a rest) comment n)
    by (done || (unfold re_match_at_least; cbn [list_ascii_of_string span];
                 by rewrite Ha)).
Qed.

Lemma post_comment_guards_witness :
  ascii_only "77"
  ∧ w_db (exec (post_comment demo_token "77" "nice") (logged_in 1 demo_world))
    ≠ w_db (logged_in 1 demo_world)
  ∧ ∃ me a rest n,
      session_user_row (logged_in 1 demo_world) = Some me
      ∧ s_csrf_token (w_session (logged_in 1 demo_world)) = Some demo_token
      ∧ "77" = String a rest ∧ is_digit a = true
      ∧ py_int "77" = Some n ∧ 0 ≤ n
      ∧ w_db (exec (post_comment demo_token "77" "nice")
                   (logged_in 1 demo_world))
        = mkDB (users (w_db (logged_in 1 demo_world)))
               (posts (w_db (logged_in 1 demo_world)))
               (comments (w_db (logged_in 1 demo_world))
                  ++ [new_comment (logged_in 1 demo_world) me n "nice"]).
Proof.
  assert (Hchanged :
    w_db (exec (post_comment demo_token "77" "nice") (logged_in 1 demo_world))
      ≠ w_db (logged_in 1 demo_world)).
  { intros Heq. apply (f_equal (λ db, length (comments db))) in Heq.
    by vm_compute in Heq. }
  assert (Hascii : ascii_only "77").
  { apply (bool_decide_unpack _). by vm_compute. }
  split; [exact Hascii|]. split; [exact Hchanged|].
  exact (post_comment_guards (logged_in 1 demo_world) demo_token "77" "nice"
           Hascii Hchanged).
Defined.

Lemma Forall2_same_image {A B} (f : A → B) (P Q : A → Prop) l l' :
  f <$> l' = f <$> l → Forall P l → Forall Q l' →
  Forall2 (λ a b, f b = f a ∧ P a ∧ Q b) l l'.
Proof.
  revert l'. induction l as [|a l IH]; intros [|b l'] Heq HP HQ; try done.
  injection Heq as Hab Heq.
  apply Forall_cons in HP as [? ?]. apply Forall_cons in HQ as [? ?].
  constructor; [done|by apply IH].
Qed.

(** X22.  A comment that goes through shows in the counts: in the
    output of [make_posts] for the same posts, before and after the
    comment, the posts are the same and the comment count of a post is
    one larger if the comment names it and the same otherwise. *)
Theorem comment_raises_the_count
    w csrf_token me post_id comment results all_comments :
  session_user_row w = Some me →
  s_csrf_token (w_session w) = Some csrf_token →
  list_ascii_of_string post_id ≠ [] →
  Forall (λ a, is_digit a = true) (list_ascii_of_string post_id) →
  let w' := exec (post_comment csrf_token post_id comment) w in
  let n := decimal (list_ascii_of_string post_id) in
  ∃ vs vs',
    eval (make_posts results all_comments) w = Ok vs
    ∧ eval (make_posts results all_comments) w' = Ok vs'
    ∧ Forall2 (λ v v',
        pv_row v' = pv_row v
        ∧ pv_comment_count v'
          = pv_comment_count v
            + (if decide (r_id (pv_row v) = n) then 1 else 0)) vs vs'.
Proof.
  intros Hme Htoken Hne Hall. cbv zeta.
  set (n := decimal (list_ascii_of_string post_id)).
  assert (Hre : re_match_at_least is_digit 1 post_id = true).
  { unfold re_match_at_least.
    destruct (list_ascii_of_string post_id) as [|a l]; [done|].
    apply Forall_cons in Hall as [Ha _]. cbn [span]. by rewrite Ha. }
  unfold exec at 1.
  rewrite (post_comment_run w csrf_token me post_id comment n)
    by (done || by apply py_int_digits).
  cbn [snd]. set (w' := commented w me n comment).
  destruct (make_posts_eval results all_comments w) as [qs Hrun].
  destruct (make_posts_eval results all_comments w') as [qs' Hrun'].
  exists (views (w_db w) results all_comments),
         (views (w_db w') results all_comments).
  unfold eval. rewrite Hrun, Hrun'. do 2 (split; [done|]).
  assert (Hrows : pv_row <$> views (w_db w') results all_comments
                  = pv_row <$> views (w_db w) results all_comments).
  { rewrite !views_rows. f_equal. }
  assert (Hboth : ∀ db, Forall (λ v,
      pv_comment_count v
      = default 0 (counts_by_post
                     (sql_result db (SelCommentCounts (r_id <$> results)))
                   !! r_id (pv_row v))
      ∧ pv_row v ∈ results) (views db results all_comments)).
  { intros db. apply Forall_and. split; [apply views_counts|].
    eapply Forall_impl; [apply views_users|]. by intros v [? _]. }
  pose proof (Forall2_same_image pv_row _ _ _ _ Hrows
                (Hboth (w_db w)) (Hboth (w_db w'))) as H2.
  eapply Forall2_impl; [exact H2|].
  intros v v' (Hrow & [Hc Hin] & [Hc' Hin']). split; [done|].
  rewrite Hc, Hc'. cbn [sql_result]. rewrite Hrow.
  rewrite !comment_count_lookup by (by apply list_elem_of_fmap_2).
  unfold w', commented. cbn [w_db comments].
  rewrite filter_app, length_app. cbn [new_comment].
  destruct (decide (r_id (pv_row v) = n)) as [Heq|Hneq].
  - rewrite filter_cons_True by done. cbn [filter list_filter length]. lia.
  - rewrite filter_cons_False by (cbn; congruence).
    cbn [filter list_filter length]. lia.
Qed.

Lemma comment_raises_the_count_witness :
  session_user_row (logged_in 1 demo_world) = Some alice
  ∧ s_csrf_token (w_session (logged_in 1 demo_world)) = Some demo_token
  ∧ list_ascii_of_string "4" ≠ []
  ∧ Forall (λ a, is_digit a = true) (list_ascii_of_string "4")
  ∧ let w' := exec (post_comment demo_token "4" "nice")
                   (logged_in 1 demo_world) in
    let n := decimal (list_ascii_of_string "4") in
    ∃ vs vs',
      eval (make_posts demo_rows false) (logged_in 1 demo_world) = Ok vs
      ∧ eval (make_posts demo_rows false) w' = Ok vs'
      ∧ Forall2 (λ v v',
          pv_row v' = pv_row v
          ∧ pv_comment_count v'
            = pv_comment_count v
              + (if decide (r_id (pv_row v) = n) then 1 else 0)) vs vs'.
Proof.
  assert (Hne : list_ascii_of_string "4" ≠ []) by (by vm_compute).
  assert (Hall : Forall (λ a, is_digit a = true) (list_ascii_of_string "4")).
  { by repeat constructor. }
  do 2 (split; [reflexivity|]). split; [exact Hne|]. split; [exact Hall|].
  exact (comment_raises_the_count (logged_in 1 demo_world) demo_token alice
           "4" "nice" demo_rows false eq_refl eq_refl Hne Hall).
Defined.

(** ** The ban page and logout *)

Lemma user_created_desc_total a b :
  user_created_desc a b = true ∨ user_created_desc b a = true.
Proof. unfold user_created_desc. lia. Qed.

Lemma user_created_desc_trans a b c :
  user_created_desc a b = true → user_created_desc b c = true →
  user_created_desc a c = true.
Proof. unfold user_created_desc. lia. Qed.

Lemma StronglySorted_weaken {A} (R R' : relation A) l :
  (∀ a b, R a b → R' a b) → StronglySorted R l → StronglySorted R' l.
Proof.
  intros HR. induction 1 as [|x l _ IH Hall]; constructor; [done|].
  eapply Forall_impl; [exact Hall|]. intros y. apply HR.
Qed.

Lemma elem_of_sel_bannable db u :
  u ∈ sel_bannable db
  ↔ u ∈ users db ∧ u_authority u = 0 ∧ u_del_flg u = 0.
Proof.
  unfold sel_bannable. rewrite elem_of_order_by, list_elem_of_filter. tauto.
Qed.

Lemma get_banned_run w me :
  session_user_row w = Some me →
  u_authority me ≠ 0 →
  get_banned w
  = (Ok (RenderBanned (sel_bannable (w_db w)) me),
     logged (session_queries w) w).
Proof.
  intros Hme Hadmin. unfold get_banned.
  rewrite run_bind, get_session_user_run, Hme.
  rewrite decide_False by done.
  rewrite run_bind. unfold execute_sel_bannable. by rewrite w_db_logged.
Qed.

(** X23.  For a privileged user [get_banned] renders the rows of
    [users] with [authority = 0] and [del_flg = 0], all of them and no
    other, newest first, and leaves the store as it was. *)
Theorem get_banned_lists_bannable w me :
  session_user_row w = Some me →
  u_authority me ≠ 0 →
  ∃ us,
    eval get_banned w = Ok (RenderBanned us me)
    ∧ (∀ u, u ∈ us
            ↔ u ∈ users (w_db w) ∧ u_authority u = 0 ∧ u_del_flg u = 0)
    ∧ us ≡ₚ filter (λ u, u_authority u = 0 ∧ u_del_flg u = 0) (users (w_db w))
    ∧ StronglySorted (λ a b, u_created_at b ≤ u_created_at a) us
    ∧ w_db (exec get_banned w) = w_db w.
Proof.
  intros Hme Hadmin. exists (sel_bannable (w_db w)). unfold eval, exec.
  rewrite (get_banned_run w me) by done. cbn [fst snd].
  split; [done|]. split; [apply elem_of_sel_bannable|].
  split; [apply order_by_perm|]. split; [|apply w_db_logged].
  eapply StronglySorted_weaken;
    [|apply (order_by_sorted user_created_desc user_created_desc_total
               user_created_desc_trans)].
  intros a b. unfold user_created_desc. lia.
Qed.

Lemma get_banned_lists_bannable_witness :
  session_user_row (logged_in 3 demo_world) = Some carol
  ∧ u_authority carol ≠ 0
  ∧ ∃ us,
      eval get_banned (logged_in 3 demo_world) = Ok (RenderBanned us carol)
      ∧ (∀ u, u ∈ us
              ↔ u ∈ users (w_db (logged_in 3 demo_world))
                ∧ u_authority u = 0 ∧ u_del_flg u = 0)
      ∧ us ≡ₚ filter (λ u, u_authority u = 0 ∧ u_del_flg u = 0)
                     (users (w_db (logged_in 3 demo_world)))
      ∧ StronglySorted (λ a b, u_created_at b ≤ u_created_at a) us
      ∧ w_db (exec get_banned (logged_in 3 demo_world))
        = w_db (logged_in 3 demo_world).
Proof.
  assert (Hadmin : u_authority carol ≠ 0) by (by vm_compute).
  split; [reflexivity|]. split; [exact Hadmin|].
  exact (get_banned_lists_bannable (logged_in 3 demo_world) carol eq_refl
           Hadmin).
Defined.

(** X24.  [get_banned] renders the list for nobody else: when it
    answers with the list, the session resolves to the user it renders
    for, that user is privileged, and no privileged user, so not that
    user either, is in the list. *)
Theorem get_banned_only_for_privileged w us me :
  eval get_banned w = Ok (RenderBanned us me) →
  session_user_row w = Some me
  ∧ u_authority me ≠ 0
  ∧ (∀ u, u ∈ us → u_authority u = 0)
  ∧ me ∉ us.
Proof.
  unfold eval, get_banned. rewrite run_bind, get_session_user_run.
  destruct (session_user_row w) as [me'|]; [|by rewrite run_ret].
  destruct (decide (u_authority me' = 0)) as [|Hadmin]; [done|].
  rewrite run_bind. unfold execute_sel_bannable. rewrite w_db_logged.
  cbn. intros [= <- <-]. do 2 (split; [done|]).
  assert (Hall : ∀ u, u ∈ sel_bannable (w_db w) → u_authority u = 0).
  { by intros u (_ & ? & _)%elem_of_sel_bannable. }
  split; [done|]. by intros ?%Hall.
Qed.

Lemma get_banned_only_for_privileged_witness :
  eval get_banned (logged_in 3 demo_world) = Ok (RenderBanned [alice] carol)
  ∧ session_user_row (logged_in 3 demo_world) = Some carol
  ∧ u_authority carol ≠ 0
  ∧ (∀ u, u ∈ [alice] → u_authority u = 0)
  ∧ carol ∉ [alice].
Proof.
  split; [reflexivity|].
  exact (get_banned_only_for_privileged (logged_in 3 demo_world) [alice] carol
           eq_refl).
Defined.

Lemma session_user_row_banned w w' uids me :
  w_session w' = w_session w →
  users (w_db w') = banned_users uids (users (w_db w)) →
  session_user_row w = Some me →
  ∃ me', session_user_row w' = Some me' ∧ u_authority me' = u_authority me.
Proof.
  unfold session_user_row. intros -> Hu.
  destruct (s_user (w_session w)) as [uid|]; [|done].
  cbn [sql_result]. rewrite Hu. unfold banned_users.
  rewrite filter_fmap_same.
  2: { intros u. by destruct (decide _). }
  unfold fetchone.
  destruct (filter (λ u, u_id u = uid) (users (w_db w))) as [|u l]; [done|].
  cbn [fmap list_fmap head]. intros [= ->]. eexists. split; [done|].
  by destruct (decide _).
Qed.

(** X25.  Banned users leave the ban page: after [post_banned] by a
    privileged user who submits the token of the session, [get_banned]
    renders the users it rendered before whose id was not among the
    posted ones, and no other. *)
Theorem banned_users_leave_the_ban_page w csrf_token uids me :
  session_user_row w = Some me →
  u_authority me ≠ 0 →
  s_csrf_token (w_session w) = Some csrf_token →
  let w' := exec (post_banned csrf_token uids) w in
  ∃ before after me',
    eval get_banned w = Ok (RenderBanned before me)
    ∧ eval get_banned w' = Ok (RenderBanned after me')
    ∧ ∀ u, u ∈ after ↔ u ∈ before ∧ u_id u ∉ uids.
Proof.
  intros Hme Hadmin Htoken. cbv zeta. unfold exec at 1.
  rewrite (post_banned_run w csrf_token uids me) by done. cbn [snd].
  destruct (ban_all_run uids (logged (session_queries w) w))
    as (_ & Hdb & Hs).
  set (w' := exec (ban_all uids) (logged (session_queries w) w)) in *.
  rewrite w_db_logged in Hdb.
  assert (Hu : users (w_db w') = banned_users uids (users (w_db w)))
    by (by rewrite Hdb).
  destruct (session_user_row_banned w w' uids me) as (me' & Hme' & Hauth);
    [by rewrite Hs| done | done |].
  exists (sel_bannable (w_db w)), (sel_bannable (w_db w')), me'.
  unfold eval. rewrite (get_banned_run w me), (get_banned_run w' me')
    by (done || congruence).
  do 2 (split; [done|]). intros u.
  rewrite !elem_of_sel_bannable, Hu. unfold banned_users.
  rewrite list_elem_of_fmap. split.
  - intros ((u0 & -> & Hin) & Ha & Hd).
    destruct (decide (u_id u0 ∈ uids)); [done|]. done.
  - intros ((Hin & Ha & Hd) & Hnot). split; [|done].
    exists u. split; [|done]. by rewrite decide_False.
Qed.

Lemma banned_users_leave_the_ban_page_witness :
  session_user_row (logged_in 3 demo_world) = Some carol
  ∧ u_authority carol ≠ 0
  ∧ s_csrf_token (w_session (logged_in 3 demo_world)) = Some demo_token
  ∧ let w' := exec (post_banned demo_token [1]) (logged_in 3 demo_world) in
    ∃ before after me',
      eval get_banned (logged_in 3 demo_world) = Ok (RenderBanned before carol)
      ∧ eval get_banned w' = Ok (RenderBanned after me')
      ∧ ∀ u, u ∈ after ↔ u ∈ before ∧ u_id u ∉ [1].
Proof.
  assert (Hadmin : u_authority carol ≠ 0) by (by vm_compute).
  split; [reflexivity|]. split; [exact Hadmin|]. split; [reflexivity|].
  exact (banned_users_leave_the_ban_page (logged_in 3 demo_world) demo_token
           [1] carol eq_refl Hadmin eq_refl).
Defined.

(** X26.  After [get_logout] the session names nobody: the session has
    no user, no token and no flash message, the store is as it was, and
    in the world the logout leaves every endpoint that asks for a user
    redirects to the login page without changing the store. *)
Theorem logout_ends_the_session w :
  let w' := exec get_logout w in
  eval get_logout w = Ok (Page (Redirect "/"))
  ∧ w_session w' = mkSession None None []
  ∧ w_db w' = w_db w
  ∧ eval get_session_user w' = Ok None
  ∧ (∀ csrf_token file body,
       post_index csrf_token file body w' = (Ok (Page (Redirect "/login")), w'))
  ∧ (∀ csrf_token post_id comment,
       post_comment csrf_token post_id comment w'
       = (Ok (Page (Redirect "/login")), w'))
  ∧ get_banned w' = (Ok (Page (Redirect "/login")), w')
  ∧ (∀ csrf_token uids,
       post_banned csrf_token uids w' = (Ok (Redirect "/login"), w')).
Proof.
  cbv zeta. destruct w as [db se sh now ur log]. by repeat split.
Qed.

(** ** The label of [openssl] *)

Lemma list_ascii_of_string_app s t :
  list_ascii_of_string (s +:+ t)
  = list_ascii_of_string s ++ list_ascii_of_string t.
Proof. induction s as [|a s IH]; [done|]. cbn. by rewrite <- IH. Qed.

Lemma hex_digit_plain a :
  is_hex_digit a = true →
  is_space a = false ∧ (nat_of_ascii a =? 61)%nat = false
  ∧ (nat_of_ascii a =? 10)%nat = false.
Proof. by destruct a as [[] [] [] [] [] [] [] []]. Qed.

Lemma after_last_label_none l :
  Forall (λ a, (nat_of_ascii a =? 61)%nat = false) l →
  after_last_label l = None.
Proof.
  induction 1 as [|a l Ha _ IH]; [done|]. cbn [after_last_label].
  rewrite IH. destruct l; [done|]. by rewrite Ha.
Qed.

Lemma after_last_label_app label l :
  Forall (λ a, (nat_of_ascii a =? 61)%nat = false) l →
  after_last_label (label ++ Ascii.ascii_of_nat 61 :: Ascii.ascii_of_nat 32 :: l)
  = Some l.
Proof.
  intros Hl. induction label as [|a label IH].
  - cbn [app after_last_label]. rewrite (after_last_label_none l Hl).
    by destruct l.
  - cbn [app after_last_label]. by rewrite IH.
Qed.

Lemma split_lines_one_line l : ∀ cur,
  Forall (λ a, (nat_of_ascii a =? 10)%nat = false) l →
  split_lines (l ++ [newline]) cur = [reverse cur ++ l; []].
Proof.
  induction l as [|a l IH]; intros cur Hl.
  - cbn. by rewrite app_nil_r.
  - apply Forall_cons in Hl as [Ha Hl]. cbn [app split_lines].
    rewrite Ha, IH by done. by rewrite reverse_cons, <- app_assoc.
Qed.

Lemma strip_line l :
  Forall (λ a, is_space a = false) l →
  strip (string_of_list_ascii (l ++ [newline])) = string_of_list_ascii l.
Proof.
  intros Hl. unfold strip. rewrite String.list_ascii_of_string_of_list_ascii.
  f_equal. destruct l as [|a l]; [done|].
  pose proof Hl as Hl'. apply Forall_cons in Hl' as [Ha _].
  cbn [app]. rewrite lstrip_id by done.
  change (a :: l ++ [newline]) with ((a :: l) ++ [newline]).
  rewrite reverse_app. change (reverse [newline]) with [newline].
  destruct (reverse (a :: l)) as [|z r] eqn:Hr.
  { apply (f_equal length) in Hr. by rewrite length_reverse in Hr. }
  change (lstrip ([newline] ++ z :: r)) with (lstrip (z :: r)).
  rewrite lstrip_id.
  - by rewrite <- Hr, reverse_involutive.
  - rewrite Forall_forall in Hl. apply Hl.
    apply elem_of_reverse. rewrite Hr. by left.
Qed.

(** X27.  [digest] returns the digest with neither label nor line end:
    when [printf] and [sed] are the usual tools and [openssl] succeeds
    and prints one line, the hexadecimal digest with or without a label
    ending in ["= "] in front of it, the result is the digest alone. *)
Theorem digest_drops_the_label w src label hex :
  sh_printf (w_shell w) = printf_s →
  sh_sed (w_shell w) = sed_strip_label →
  sh_openssl (w_shell w) src = mkProc 0 (openssl_line label hex) →
  Forall (λ a, is_hex_digit a = true) (list_ascii_of_string hex) →
  Forall (λ a, (nat_of_ascii a =? 10)%nat = false)
         (list_ascii_of_string (default "" label)) →
  digest src w = (Ok hex, w).
Proof.
  intros Hprintf Hsed Hopenssl Hhex Hlabel.
  rewrite digest_run. f_equal. unfold digest_value, run_pipeline.
  rewrite Hprintf, Hsed. cbn [printf_s stdout]. rewrite Hopenssl.
  cbn [stdout sed_strip_label exit_status].
  rewrite decide_True by done. f_equal.
  assert (Hplain : Forall (λ a, is_space a = false) (list_ascii_of_string hex)).
  { eapply Forall_impl; [exact Hhex|]. by intros a [? _]%hex_digit_plain. }
  assert (Hnoeq : Forall (λ a, (nat_of_ascii a =? 61)%nat = false)
                         (list_ascii_of_string hex)).
  { eapply Forall_impl; [exact Hhex|]. by intros a (_ & ? & _)%hex_digit_plain. }
  assert (Hnonl : Forall (λ a, (nat_of_ascii a =? 10)%nat = false)
                         (list_ascii_of_string hex)).
  { eapply Forall_impl; [exact Hhex|]. by intros a (_ & _ & ?)%hex_digit_plain. }
  rewrite <- (String.string_of_list_ascii_of_string hex) at 2.
  rewrite <- (strip_line _ Hplain). do 2 f_equal.
  destruct label as [label|]; cbn [openssl_line default from_option] in *.
  - rewrite !list_ascii_of_string_app.
    change (list_ascii_of_string (String newline "")) with [newline].
    change (list_ascii_of_string "= ")
      with [Ascii.ascii_of_nat 61; Ascii.ascii_of_nat 32].
    rewrite !app_assoc, split_lines_one_line.
    2: { rewrite <- app_assoc. apply Forall_app. split; [done|].
         apply Forall_app. split; [by repeat constructor|done]. }
    cbn [fmap list_fmap join_lines reverse rev_append].
    rewrite app_nil_l, <- app_assoc. cbn [app].
    by rewrite after_last_label_app.
  - rewrite list_ascii_of_string_app.
    change (list_ascii_of_string (String newline "")) with [newline].
    rewrite split_lines_one_line by done.
    cbn [fmap list_fmap join_lines reverse rev_append].
    rewrite app_nil_l. by rewrite after_last_label_none.
Qed.

Lemma digest_drops_the_label_witness :
  let w := with_shell labelling_shell demo_world in
  sh_printf (w_shell w) = printf_s
  ∧ sh_sed (w_shell w) = sed_strip_label
  ∧ sh_openssl (w_shell w) "secret1"
    = mkProc 0 (openssl_line (Some "SHA2-512(stdin)") "0a1b")
  ∧ Forall (λ a, is_hex_digit a = true) (list_ascii_of_string "0a1b")
  ∧ Forall (λ a, (nat_of_ascii a =? 10)%nat = false)
           (list_ascii_of_string (default "" (Some "SHA2-512(stdin)")))
  ∧ digest "secret1" w = (Ok "0a1b", w).
Proof.
  cbv zeta.
  assert (Hhex : Forall (λ a, is_hex_digit a = true)
                        (list_ascii_of_string "0a1b")).
  { by repeat constructor. }
  assert (Hlabel : Forall (λ a, (nat_of_ascii a =? 10)%nat = false)
                          (list_ascii_of_string
                             (default "" (Some "SHA2-512(stdin)")))).
  { by repeat constructor. }
  do 3 (split; [reflexivity|]). split; [exact Hhex|]. split; [exact Hlabel|].
  exact (digest_drops_the_label (with_shell labelling_shell demo_world)
           "secret1" (Some "SHA2-512(stdin)") "0a1b" eq_refl eq_refl eq_refl
           Hhex Hlabel).
Defined.

(** ** The views do not write *)

Section ReadOnly.
Context {A B : Type}.

Lemma read_only_ret (a : A) : read_only (mret a : M A).
Proof. intros w. exists []. by rewrite logged_nil. Qed.

Lemma read_only_raise (e : exn) : read_only (raise e : M A).
Proof. intros w. exists []. by rewrite logged_nil. Qed.

Lemma read_only_bind (m : M A) (k : A → M B) :
  read_only m → (∀ a, read_only (k a)) → read_only (m ≫= k).
Proof.
  intros Hm Hk w. destruct (Hm w) as [qs Hqs]. unfold exec in *.
  rewrite run_bind. destruct (m w) as [[a|e] w1]; cbn [snd] in Hqs; subst w1.
  - destruct (Hk a (logged qs w)) as [qs' Hqs']. exists (qs ++ qs').
    unfold exec in Hqs'. by rewrite Hqs', logged_logged.
  - by exists qs.
Qed.
End ReadOnly.

Lemma read_only_execute q :
  (∀ now db, sql_effect now db q = db) → read_only (execute q).
Proof. intros Hq w. exists [q]. unfold exec. by rewrite execute_read. Qed.

Lemma read_only_get_session_user : read_only get_session_user.
Proof.
  intros w. exists (session_queries w). unfold exec.
  by rewrite get_session_user_run.
Qed.

Lemma read_only_make_posts results all_comments :
  read_only (make_posts results all_comments).
Proof.
  intros w. destruct (make_posts_eval results all_comments w) as [qs Hqs].
  exists qs. unfold exec. by rewrite Hqs.
Qed.

Lemma read_only_spec {A} (m : M A) w :
  read_only m →
  w_db (exec m w) = w_db w ∧ w_session (exec m w) = w_session w.
Proof. intros Hm. destruct (Hm w) as [qs ->]. by split. Qed.

Ltac read_only_step :=
  first
    [ apply read_only_ret
    | apply read_only_raise
    | apply read_only_get_session_user
    | apply read_only_make_posts
    | by apply read_only_execute
    | apply read_only_bind; [|intros ?]
    | match goal with
      | |- read_only (match ?x with _ => _ end) => destruct x
      end ].

Lemma read_only_execute_sel_bannable : read_only execute_sel_bannable.
Proof. intros w. exists []. by rewrite logged_nil. Qed.

Lemma read_only_views :
  read_only get_login
  ∧ read_only get_register
  ∧ read_only get_index
  ∧ (∀ account_name, read_only (get_user_list account_name))
  ∧ (∀ max_created_at, read_only (get_posts max_created_at))
  ∧ (∀ id, read_only (get_posts_id id))
  ∧ (∀ id ext, read_only (get_image id ext))
  ∧ read_only get_banned.
Proof.
  repeat apply conj; intros.
  - unfold get_login. repeat read_only_step.
  - unfold get_register. repeat read_only_step.
  - unfold get_index. repeat read_only_step.
  - unfold get_user_list. repeat read_only_step.
  - unfold get_posts. repeat read_only_step.
  - unfold get_posts_id. repeat read_only_step.
  - unfold get_image. repeat read_only_step.
  - unfold get_banned. repeat read_only_step.
    apply read_only_execute_sel_bannable.
Qed.

(** X28.  The pages that show things do not write: the login and
    registration forms, the feed, the author page, the cursor page, the
    post page, the image and the ban page leave the store and the
    session as they were, whatever they answer. *)
Theorem views_leave_store_and_session w :
  let same (w' : World) := w_db w' = w_db w ∧ w_session w' = w_session w in
  same (exec get_login w)
  ∧ same (exec get_register w)
  ∧ same (exec get_index w)
  ∧ (∀ account_name, same (exec (get_user_list account_name) w))
  ∧ (∀ max_created_at, same (exec (get_posts max_created_at) w))
  ∧ (∀ id, same (exec (get_posts_id id) w))
  ∧ (∀ id ext, same (exec (get_image id ext) w))
  ∧ same (exec get_banned w).
Proof.
  cbv zeta.
  destruct read_only_views as (H1 & H2 & H3 & H4 & H5 & H6 & H7 & H8).
  repeat apply conj; intros; by apply read_only_spec.
Qed.

(** ** The cursor *)

(** [int_group] is [int] on a group of digits. *)
Lemma int_group_py_int l :
  l ≠ [] → Forall (λ a, is_digit a = true) l →
  py_int (string_of_list_ascii l) = Some (int_group l).
Proof.
  intros Hne Hall. rewrite py_int_digits;
    rewrite String.list_ascii_of_string_of_list_ascii; done.
Qed.

Lemma digit_char_spec k :
  0 ≤ k < 10 →
  is_digit (digit_char k) = true ∧ digit_value (digit_char k) = k.
Proof.
  intros Hk.
  assert (k = 0 ∨ k = 1 ∨ k = 2 ∨ k = 3 ∨ k = 4 ∨ k = 5 ∨ k = 6 ∨ k = 7
          ∨ k = 8 ∨ k = 9) as Hcases by lia.
  repeat destruct Hcases as [->|Hcases]; try subst k; by vm_compute.
Qed.

Lemma digit_char_value a : is_digit a = true → digit_char (digit_value a) = a.
Proof. by destruct a as [[] [] [] [] [] [] [] []]. Qed.

Lemma digit_value_range a : is_digit a = true → 0 ≤ digit_value a < 10.
Proof. destruct a as [[] [] [] [] [] [] [] []]; try done; by vm_compute. Qed.

Lemma two_digits_spec n :
  0 ≤ n < 100 →
  Forall (λ a, is_digit a = true) (two_digits n) ∧ int_group (two_digits n) = n.
Proof.
  intros Hn.
  assert (0 ≤ n / 10 < 10).
  { split; [apply Z.div_pos; lia|apply Z.div_lt_upper_bound; lia]. }
  pose proof (Z.mod_pos_bound n 10 eq_refl).
  destruct (digit_char_spec (n / 10)) as [Ha Hva]; [done|].
  destruct (digit_char_spec (n mod 10)) as [Hb Hvb]; [done|].
  split; [by repeat constructor|].
  unfold int_group, two_digits. cbn [foldl]. rewrite Hva, Hvb.
  pose proof (Z.div_mod n 10). lia.
Qed.

Lemma four_digits_spec n :
  0 ≤ n < 10000 →
  Forall (λ a, is_digit a = true) (four_digits n)
  ∧ int_group (four_digits n) = n.
Proof.
  intros Hn.
  assert (0 ≤ n / 100 < 100).
  { split; [apply Z.div_pos; lia|apply Z.div_lt_upper_bound; lia]. }
  pose proof (Z.mod_pos_bound n 100 eq_refl).
  destruct (two_digits_spec (n / 100)) as [Ha Hva]; [done|].
  destruct (two_digits_spec (n mod 100)) as [Hb Hvb]; [done|].
  split; [by apply Forall_app|].
  unfold four_digits, int_group in *. rewrite foldl_app.
  unfold two_digits in *. cbn [foldl] in *.
  pose proof (Z.div_mod n 100). lia.
Qed.

Lemma two_digits_int_group a b :
  is_digit a = true → is_digit b = true →
  two_digits (int_group [a; b]) = [a; b].
Proof.
  intros Ha Hb. pose proof (digit_value_range a Ha).
  pose proof (digit_value_range b Hb).
  unfold two_digits, int_group. cbn [foldl].
  replace ((10 * (10 * 0 + digit_value a) + digit_value b) / 10)
    with (digit_value a)
    by (apply (Z.div_unique _ 10 _ (digit_value b)); lia).
  replace ((10 * (10 * 0 + digit_value a) + digit_value b) mod 10)
    with (digit_value b)
    by (apply (Z.mod_unique _ 10 (digit_value a)); lia).
  by rewrite !digit_char_value.
Qed.

Lemma four_digits_int_group a b c d :
  is_digit a = true → is_digit b = true →
  is_digit c = true → is_digit d = true →
  four_digits (int_group [a; b; c; d]) = [a; b; c; d].
Proof.
  intros Ha Hb Hc Hd.
  pose proof (digit_value_range a Ha). pose proof (digit_value_range b Hb).
  pose proof (digit_value_range c Hc). pose proof (digit_value_range d Hd).
  unfold four_digits.
  replace (int_group [a; b; c; d] / 100) with (int_group [a; b]).
  2: { unfold int_group. cbn [foldl].
       apply (Z.div_unique _ 100 _ (10 * digit_value c + digit_value d)); lia. }
  replace (int_group [a; b; c; d] mod 100) with (int_group [c; d]).
  2: { unfold int_group. cbn [foldl].
       apply (Z.mod_unique _ 100 (10 * digit_value a + digit_value b)); lia. }
  by rewrite !two_digits_int_group.
Qed.

Lemma datetime_new_spec year month day hour minute second d :
  datetime_new year month day hour minute second = Some d
  ↔ d = mkDatetime year month day hour minute second ∧ valid_datetime d.
Proof.
  unfold datetime_new, valid_datetime. split.
  - destruct (_ && _) eqn:Hok; [|done]. intros [= <-]. split; [done|].
    cbn. repeat (apply andb_true_iff in Hok as [Hok ?]). lia.
  - intros [-> Hv]. cbn in Hv. rewrite (proj2 (andb_true_iff _ _)); [done|].
    repeat (rewrite andb_true_iff); repeat split; lia.
Qed.

(** X29.  Of the strings of the ASCII range, [_parse_iso8601] accepts
    those that begin with the ISO form of a date and a time that exist,
    with a blank, a [t] or a [T] between the two, and no other; it
    returns that date and time and ignores what follows the seconds, so
    a time zone is dropped. *)
Theorem parse_iso8601_accepts_isoformat_prefix s d :
  ascii_only s →
  _parse_iso8601 s = Some d
  ↔ valid_datetime d
    ∧ ∃ sep rest,
        (is_char 32 sep || is_char 116 sep || is_char 84 sep) = true
        ∧ s = isoformat d sep +:+ rest.
Proof.
  intros _. split.
  - unfold _parse_iso8601.
    assert (Hs : s = string_of_list_ascii (list_ascii_of_string s))
      by (by rewrite String.string_of_list_ascii_of_string).
    revert Hs.
    destruct (list_ascii_of_string s)
      as [|y1 [|y2 [|y3 [|y4 [|c1 [|m1 [|m2 [|c2 [|d1 [|d2 [|sep [|h1 [|h2
          [|c3 [|n1 [|n2 [|c4 [|s1 [|s2 rest]]]]]]]]]]]]]]]]]]]; try done.
    intros -> Hnew. destruct (_ && _) eqn:Hok; [|done].
    apply datetime_new_spec in Hnew as [-> Hv]. split; [done|].
    exists sep, (string_of_list_ascii rest).
    cbn [forallb] in Hok. rewrite !andb_true_iff in Hok. destruct_and!.
    split; [done|].
    unfold isoformat. cbn [dt_year dt_month dt_day dt_hour dt_minute dt_second].
    rewrite four_digits_int_group, !two_digits_int_group by done.
    unfold is_char in *.
    repeat match goal with
           | H : (nat_of_ascii ?c =? _)%nat = true |- _ =>
               apply Nat.eqb_eq in H;
               apply (f_equal Ascii.ascii_of_nat) in H;
               rewrite Ascii.ascii_nat_embedding in H; subst c
           end.
    reflexivity.
  - intros (Hv & sep & rest & Hsep & ->).
    destruct Hv as (Hy & Hm & Hd & Hh & Hn & Hs).
    assert (Hdays : days_in_month (dt_year d) (dt_month d) ≤ 31).
    { unfold days_in_month. repeat case_match; lia. }
    destruct (four_digits_spec (dt_year d)) as [Fy Vy]; [lia|].
    destruct (two_digits_spec (dt_month d)) as [Fm Vm]; [lia|].
    destruct (two_digits_spec (dt_day d)) as [Fd Vd]; [lia|].
    destruct (two_digits_spec (dt_hour d)) as [Fh Vh]; [lia|].
    destruct (two_digits_spec (dt_minute d)) as [Fn Vn]; [lia|].
    destruct (two_digits_spec (dt_second d)) as [Fs Vs]; [lia|].
    unfold _parse_iso8601, isoformat.
    rewrite list_ascii_of_string_app,
      String.list_ascii_of_string_of_list_ascii.
    unfold four_digits in *. unfold two_digits in *.
    cbn [app] in *.
    repeat match goal with
           | H : Forall _ (_ :: _) |- _ => apply Forall_cons in H as [? H]
           end.
    rewrite Vy, Vm, Vd, Vh, Vn, Vs.
    rewrite (proj2 (andb_true_iff _ _)).
    + apply datetime_new_spec. by destruct d.
    + repeat (rewrite andb_true_iff); cbn [forallb];
        repeat (rewrite andb_true_iff); repeat split; done.
Qed.

Lemma parse_iso8601_accepts_isoformat_prefix_witness :
  let s := "2016-01-02T11:46:21+09:00" in
  let d := mkDatetime 2016 1 2 11 46 21 in
  ascii_only s
  ∧ (_parse_iso8601 s = Some d
     ↔ valid_datetime d
       ∧ ∃ sep rest,
           (is_char 32 sep || is_char 116 sep || is_char 84 sep) = true
           ∧ s = isoformat d sep +:+ rest).
Proof.
  cbv zeta.
  assert (Hascii : ascii_only "2016-01-02T11:46:21+09:00").
  { apply (bool_decide_unpack _). by vm_compute. }
  split; [exact Hascii|].
  exact (parse_iso8601_accepts_isoformat_prefix "2016-01-02T11:46:21+09:00"
           (mkDatetime 2016 1 2 11 46 21) Hascii).
Defined.

(** ** Configuration *)

(** X30.  [config] reads the environment once: when the first call
    returns a configuration, the global holds it and every later call
    returns it whatever the environment has become; the port is the
    integer the variable (or ["3306"]) denotes; and the configuration
    has a password exactly when the variable is set to a string that is
    not empty, which is then the password. *)
Theorem config_reads_environment_once environ c st :
  config environ None = (inr c, st) →
  st = Some c
  ∧ (∀ environ', config environ' st = (inr c, st))
  ∧ py_int (default "3306" (environ !! "ISUCONP_DB_PORT")) = Some (db_port c)
  ∧ (∀ password,
       db_passwd c = Some password
       ↔ environ !! "ISUCONP_DB_PASSWORD" = Some password ∧ password ≠ "").
Proof.
  unfold config, environ_get.
  destruct (py_int (default "3306" (environ !! "ISUCONP_DB_PORT")))
    as [port|]; [|done].
  intros [= <- <-]. split; [done|]. split; [done|].
  destruct (environ !! "ISUCONP_DB_PASSWORD") as [p|].
  - destruct (decide (p = "")) as [->|Hp]; cbn [db_passwd db_port];
      (split; [done|]); intros password; split.
    + done.
    + by intros [[= <-] ?].
    + by intros [= <-].
    + by intros [[= <-] ?].
  - cbn [db_passwd db_port]. split; [done|]. intros password.
    split; [done|]. by intros [? _].
Qed.

Lemma config_reads_environment_once_witness :
  let c := mkConfig "localhost" 3307 "root" "isuconp" None "127.0.0.1:11211" in
  config demo_environ None = (inr c, Some c)
  ∧ Some c = Some c
  ∧ (∀ environ', config environ' (Some c) = (inr c, Some c))
  ∧ py_int (default "3306" (demo_environ !! "ISUCONP_DB_PORT"))
    = Some (db_port c)
  ∧ (∀ password,
       db_passwd c = Some password
       ↔ demo_environ !! "ISUCONP_DB_PASSWORD" = Some password
         ∧ password ≠ "").
Proof.
  cbv zeta.
  assert (Hrun : config demo_environ None
                 = (inr (mkConfig "localhost" 3307 "root" "isuconp" None
                                  "127.0.0.1:11211"),
                    Some (mkConfig "localhost" 3307 "root" "isuconp" None
                                   "127.0.0.1:11211")))
    by (by vm_compute).
  split; [exact Hrun|].
  exact (config_reads_environment_once demo_environ _ _ Hrun).
Defined.
